(** * EventEmitter: a shallow embedding of the emitter class and its properties

    The class keeps a [Map] from event names to insertion-ordered [Set]s of
    listener functions and a second [Map] holding per-listener options.
    Listeners are callbacks that may call back into the emitter while it is
    dispatching, so the embedding is an interpreter over an explicit state:
    the three private fields, the heap of [Set] objects they point to, and a
    log of every listener invocation. *)

From Stdlib Require Import ZArith String.
From stdpp Require Import base decidable option list gmap strings.

Local Open Scope Z_scope.
Local Open Scope string_scope.
Local Open Scope list_scope.

(** ** Values *)

(** [string | symbol]: the key type of both maps. *)
Inductive EventName :=
| EStr (s : string)
| ESym (id : nat).

Global Instance EventName_eq_dec : EqDecision EventName.
Proof. solve_decision. Defined.

Global Instance EventName_countable : Countable EventName.
Proof.
  refine (inj_countable'
            (fun e => match e with EStr s => inl s | ESym n => inr n end)
            (fun x => match x with inl s => EStr s | inr n => ESym n end) _).
  intros []; reflexivity.
Defined.

(** A [GenericFunction] is compared by reference: a listener is its identity. *)
Abbreviation Listener := nat (only parsing).

Record EventListenerOptions := { once : option bool }.

Record EventListenerMeta := { options : option EventListenerOptions }.

(** [Error] objects: the two exported classes and a plain [Error] with its
    message. *)
Inductive Error :=
| UnhandledError
| TooManyListeners
| PlainError (msg : string).

(** What flows through [...args] and what can be thrown. *)
Inductive Value :=
| VUndefined
| VString (s : string)
| VSymbol (id : nat)
| VNumber (n : Z)
| VFunction (l : Listener)
| VOptions (o : EventListenerOptions)
| VError (e : Error).

Definition name_value (e : EventName) : Value :=
  match e with EStr s => VString s | ESym n => VSymbol n end.

Definition options_value (o : option EventListenerOptions) : Value :=
  match o with Some o => VOptions o | None => VUndefined end.

(** [!eventName] on an optional [string | symbol]: [undefined] and the empty
    string are falsy, every symbol is truthy. *)
Definition falsy (eventName : option EventName) : bool :=
  match eventName with
  | None => true
  | Some (EStr s) => bool_decide (s = "")
  | Some (ESym _) => false
  end.

(** ** The built-in collections *)

(** A [Set] is a list of entries in insertion order in which [delete] leaves
    a hole ([None]) and [add] appends: an iterator is an index into that
    list, so it sees entries appended while it runs and skips entries deleted
    before it reaches them. *)
Abbreviation JSSet := (list (option Listener)) (only parsing).

Definition set_has (s : JSSet) (l : Listener) : bool := bool_decide (Some l ∈ s).

Definition set_add (s : JSSet) (l : Listener) : JSSet :=
  if set_has s l then s else s ++ [Some l].

Definition set_delete (s : JSSet) (l : Listener) : JSSet :=
  (fun x => if decide (x = Some l) then None else x) <$> s.

(** [Array.from(set)]: the entries that are still there, in order. *)
Definition set_values (s : JSSet) : list Listener := omap id s.

Definition set_size (s : JSSet) : nat := length (set_values s).

(** The outer [Map] of listener sets, in insertion order; a value is a
    reference into the heap of sets. *)
Abbreviation JSMap := (list (EventName * nat)) (only parsing).

Fixpoint map_get (m : JSMap) (k : EventName) : option nat :=
  match m with
  | [] => None
  | (k', v) :: m' => if decide (k' = k) then Some v else map_get m' k
  end.

Definition map_has (m : JSMap) (k : EventName) : bool :=
  match map_get m k with Some _ => true | None => false end.

Definition map_keys (m : JSMap) : list EventName := fst <$> m.

Definition map_delete (m : JSMap) (k : EventName) : JSMap :=
  filter (fun p => p.1 ≠ k) m.

(** [map.set(k, v)] for a key that is not there yet (the only use the class
    makes of it on the outer map). *)
Definition map_set_new (m : JSMap) (k : EventName) (v : nat) : JSMap := m ++ [(k, v)].

(** ** State *)

(** One call of a listener: [listener.apply(this, [eventName, ...args])]. *)
Record Invocation := { callee : Listener; arguments : list Value }.

Global Instance EventListenerOptions_eq_dec : EqDecision EventListenerOptions.
Proof. solve_decision. Defined.

Global Instance Error_eq_dec : EqDecision Error.
Proof. solve_decision. Defined.

Global Instance Value_eq_dec : EqDecision Value.
Proof. solve_decision. Defined.

Global Instance Invocation_eq_dec : EqDecision Invocation.
Proof. solve_decision. Defined.

Record State := {
  _maxListeners : Z;
  _listeners : JSMap;
  _listenerMeta : gmap EventName (gmap Listener EventListenerMeta);
  sets : list JSSet;
  calls : list Invocation
}.

Definition with_maxListeners (n : Z) (st : State) : State :=
  {| _maxListeners := n; _listeners := _listeners st;
     _listenerMeta := _listenerMeta st; sets := sets st; calls := calls st |}.

Definition with_listeners (m : JSMap) (st : State) : State :=
  {| _maxListeners := _maxListeners st; _listeners := m;
     _listenerMeta := _listenerMeta st; sets := sets st; calls := calls st |}.

Definition with_listenerMeta (m : gmap EventName (gmap Listener EventListenerMeta))
    (st : State) : State :=
  {| _maxListeners := _maxListeners st; _listeners := _listeners st;
     _listenerMeta := m; sets := sets st; calls := calls st |}.

Definition with_sets (h : list JSSet) (st : State) : State :=
  {| _maxListeners := _maxListeners st; _listeners := _listeners st;
     _listenerMeta := _listenerMeta st; sets := h; calls := calls st |}.

Definition with_calls (c : list Invocation) (st : State) : State :=
  {| _maxListeners := _maxListeners st; _listeners := _listeners st;
     _listenerMeta := _listenerMeta st; sets := sets st; calls := c |}.

Definition DEFAULT_MAX_LISTENERS : Z := 10.

(** [new EventEmitter()]. *)
Definition new_EventEmitter : State :=
  {| _maxListeners := DEFAULT_MAX_LISTENERS; _listeners := [];
     _listenerMeta := ∅; sets := []; calls := [] |}.

(** The set object behind a reference. *)
Definition deref (st : State) (loc : nat) : JSSet := default [] (sets st !! loc).

(** ** Computations that may throw *)

Inductive Outcome (A : Type) :=
| Return (a : A) (st : State)
| Throw (err : Value) (st : State)
| OutOfFuel.
Arguments Return {A} a st.
Arguments Throw {A} err st.
Arguments OutOfFuel {A}.

Definition M (A : Type) := State -> Outcome A.

Definition ret {A} (a : A) : M A := fun st => Return a st.

Definition throw {A} (err : Value) : M A := fun st => Throw err st.

Definition bind {A B} (m : M A) (k : A -> M B) : M B :=
  fun st =>
    match m st with
    | Return a st' => k a st'
    | Throw err st' => Throw err st'
    | OutOfFuel => OutOfFuel
    end.

Notation "x <- m ;; k" := (bind m (fun x => k))
  (at level 100, m at next level, right associativity).
Notation "m ;;; k" := (bind m (fun _ => k))
  (at level 100, right associativity).

(** [try { body } catch (err) { handler(err) }]. *)
Definition try_catch {A} (body : M A) (handler : Value -> M A) : M A :=
  fun st =>
    match body st with
    | Throw err st' => handler err st'
    | r => r
    end.

(** [try { body } finally { cleanup }]: the cleanup runs on every exit of the
    body; if it throws, its exception replaces the body's completion. *)
Definition try_finally {A} (body : M A) (cleanup : M unit) : M A :=
  fun st =>
    match body st with
    | Return a st' => (cleanup ;;; ret a) st'
    | Throw err st' => (cleanup ;;; throw err) st'
    | OutOfFuel => OutOfFuel
    end.

(** [for (const x of array) body(x)] over an array that nobody else holds. *)
Fixpoint for_each {A} (xs : list A) (body : A -> M unit) : M unit :=
  match xs with
  | [] => ret tt
  | x :: xs' => body x ;;; for_each xs' body
  end.

(** [for (const x of set) body(x)]: the iterator is an index into the live
    set object behind [listenerSet], read again at every step.  The fuel
    bounds the number of steps. *)
Fixpoint for_of_set (fuel : nat) (listenerSet : nat) (index : nat)
    (body : Listener -> M unit) : M unit :=
  fun st =>
    match fuel with
    | O => OutOfFuel
    | S fuel' =>
        match deref st listenerSet !! index with
        | None => Return tt st
        | Some None => for_of_set fuel' listenerSet (S index) body st
        | Some (Some listener) =>
            (body listener ;;; for_of_set fuel' listenerSet (S index) body) st
        end
    end.

(** ** Listeners *)

(** What a listener does when it is called: a sequence of calls on the emitter
    it closes over, each of whose exceptions it lets through, or a [throw]. *)
Inductive Cmd :=
| CallAddEventListener (eventName : EventName) (listener : Listener)
    (options : option EventListenerOptions)
| CallRemoveEventListener (eventName : EventName) (listener : Listener)
| CallRemoveAllListeners (eventName : option EventName)
| CallEmit (eventName : EventName) (args : list Value)
| SetMaxListeners (n : Z)
| ThrowValue (v : Value).

(** The code of every listener; it may depend on the arguments of the call
    and on the emitter as the listener finds it. *)
Definition Program := Listener -> list Value -> State -> list Cmd.

(** The methods that the class reaches through [this]. *)
Record Methods := {
  this_addEventListener : EventName -> Listener -> option EventListenerOptions -> M unit;
  this_removeEventListener : EventName -> Listener -> M bool;
  this_removeAllListeners : option EventName -> M bool;
  this_emit : EventName -> list Value -> M bool
}.

(** [listenerMeta?.options?.once] as a condition. *)
Definition once_set (meta : option EventListenerMeta) : bool :=
  match meta with
  | Some {| options := Some {| once := Some true |} |} => true
  | _ => false
  end.

(** [set maxListeners(n)]. *)
Definition set_maxListeners (n : Z) : M unit :=
  fun st =>
    if (n <? 0)%Z
    then Throw (VError (PlainError "Tried to set negative value for maxListeners.")) st
    else Return tt (with_maxListeners n st).

(** ** The methods of the class *)

Section EventEmitter.
Variable prog : Program.
Variable this : Methods.
Variable fuel : nat.

Definition addEventListener (eventName : EventName) (listener : Listener)
    (options : option EventListenerOptions) : M unit :=
  fun st =>
    let '(listenerSet, st) :=
      match map_get (_listeners st) eventName with
      | Some listenerSet => (listenerSet, st)
      | None =>
          let listenerSet := length (sets st) in
          (listenerSet,
           with_listeners (map_set_new (_listeners st) eventName listenerSet)
             (with_sets (sets st ++ [[]]) st))
      end in
    if set_has (deref st listenerSet) listener then Return tt st
    else if (_maxListeners st <=? Z.of_nat (set_size (deref st listenerSet)))%Z
    then Throw (VError TooManyListeners) st
    else
      let st :=
        with_sets (<[listenerSet := set_add (deref st listenerSet) listener]> (sets st)) st in
      let meta := {| options := options |} in
      let st :=
        match _listenerMeta st !! eventName with
        | Some metaMap =>
            match metaMap !! listener with
            | Some _ => st
            | None =>
                with_listenerMeta
                  (<[eventName := <[listener := meta]> metaMap]> (_listenerMeta st)) st
            end
        | None =>
            with_listenerMeta (<[eventName := {[listener := meta]}]> (_listenerMeta st)) st
        end in
      (this_emit this (EStr "newListener")
         [name_value eventName; VFunction listener; options_value options] ;;;
       ret tt) st.

Definition removeEventListener (eventName : EventName) (listener : Listener) : M bool :=
  fun st =>
    match map_get (_listeners st) eventName with
    | None => Return false st
    | Some listenerSet =>
        if negb (set_has (deref st listenerSet) listener) then Return false st
        else
          (this_emit this (EStr "removeListener") [name_value eventName; VFunction listener] ;;;
           (fun st =>
              let st :=
                with_sets
                  (<[listenerSet := set_delete (deref st listenerSet) listener]> (sets st)) st in
              let st :=
                match _listenerMeta st !! eventName with
                | Some metaMap =>
                    with_listenerMeta
                      (<[eventName := delete listener metaMap]> (_listenerMeta st)) st
                | None => st
                end in
              Return true st)) st
    end.

Definition removeAllListeners (eventName : option EventName) : M bool :=
  fun st =>
    if falsy eventName then
      let reversedEvents := rev (map_keys (_listeners st)) in
      (for_each reversedEvents
         (fun key => this_removeAllListeners this (Some key) ;;; ret tt) ;;;
       ret (bool_decide (0 < length reversedEvents)%nat)) st
    else
      match eventName ≫= map_get (_listeners st), eventName with
      | Some listenerSet, Some eventName =>
          let listenerSet := deref st listenerSet in
          let st :=
            with_listenerMeta (delete eventName (_listenerMeta st))
              (with_listeners (map_delete (_listeners st) eventName) st) in
          let reversedListeners := rev (set_values listenerSet) in
          (for_each reversedListeners
             (fun listener =>
                this_emit this (EStr "removeListener")
                  [name_value eventName; VFunction listener] ;;;
                ret tt) ;;;
           ret true) st
      | _, _ => Return false st
      end.

(** What a listener's body does with the emitter it closes over. *)
Definition run_cmd (c : Cmd) : M unit :=
  match c with
  | CallAddEventListener eventName listener options =>
      this_addEventListener this eventName listener options
  | CallRemoveEventListener eventName listener =>
      this_removeEventListener this eventName listener ;;; ret tt
  | CallRemoveAllListeners eventName =>
      this_removeAllListeners this eventName ;;; ret tt
  | CallEmit eventName args => this_emit this eventName args ;;; ret tt
  | SetMaxListeners n => set_maxListeners n
  | ThrowValue v => throw v
  end.

(** [listener.apply(this, _args)]. *)
Definition apply (listener : Listener) (_args : list Value) : M unit :=
  fun st =>
    let st := with_calls (calls st ++ [{| callee := listener; arguments := _args |}]) st in
    for_each (prog listener _args st) run_cmd st.

(** The [finally] block of the loop of [emit]. *)
Definition remove_if_once (eventName : EventName) (listener : Listener) : M unit :=
  fun st =>
    let listenerMeta :=
      _listenerMeta st !! eventName ≫= (fun metaMap => metaMap !! listener) in
    if once_set listenerMeta
    then (this_removeEventListener this eventName listener ;;; ret tt) st
    else Return tt st.

(** The body of the loop of [emit]: one listener, with its [try], [catch]
    and [finally]. *)
Definition call_listener (eventName : EventName) (args : list Value)
    (listener : Listener) : M unit :=
  try_finally
    (try_catch
       (apply listener (name_value eventName :: args))
       (fun err => this_emit this (EStr "error") [err] ;;; ret tt))
    (remove_if_once eventName listener).

Definition emit (eventName : EventName) (args : list Value) : M bool :=
  fun st =>
    match map_get (_listeners st) eventName with
    | None =>
        if decide (eventName = EStr "error") then
          match args with
          | VError e :: _ => Throw (VError e) st
          | _ => Throw (VError UnhandledError) st
          end
        else Return false st
    | Some listenerSet =>
        let listenerSetSize := set_size (deref st listenerSet) in
        (for_of_set fuel listenerSet 0 (call_listener eventName args) ;;;
         ret (bool_decide (0 < listenerSetSize)%nat)) st
    end.
End EventEmitter.

(** An emitter whose calls may nest [fuel] deep: every [this.method(...)]
    inside a method, and every call a listener makes, goes one level down. *)
Definition exhausted : Methods :=
  {| this_addEventListener := fun _ _ _ _ => OutOfFuel;
     this_removeEventListener := fun _ _ _ => OutOfFuel;
     this_removeAllListeners := fun _ _ => OutOfFuel;
     this_emit := fun _ _ _ => OutOfFuel |}.

Fixpoint emitter (prog : Program) (fuel : nat) : Methods :=
  match fuel with
  | O => exhausted
  | S fuel' =>
      let this := emitter prog fuel' in
      {| this_addEventListener := addEventListener this;
         this_removeEventListener := removeEventListener this;
         this_removeAllListeners := removeAllListeners this;
         this_emit := emit prog this fuel' |}
  end.

(** ** The read-only methods *)

Definition eventNames (st : State) : list EventName := map_keys (_listeners st).

Fixpoint listenerCount (fuel : nat) (st : State) (eventName : option EventName)
    (listener : option Listener) : option nat :=
  match fuel with
  | O => None
  | S fuel' =>
      if falsy eventName then
        foldl
          (fun count eventName =>
             c ← count; n ← listenerCount fuel' st (Some eventName) None; Some (c + n)%nat)
          (Some 0%nat) (eventNames st)
      else
        match eventName ≫= map_get (_listeners st) with
        | None => Some 0%nat
        | Some listenerSet =>
            match listener with
            | Some listener =>
                Some (if set_has (deref st listenerSet) listener then 1 else 0)%nat
            | None => Some (set_size (deref st listenerSet))
            end
        end
  end.

Definition listeners (st : State) (eventName : EventName) : list Listener :=
  match map_get (_listeners st) eventName with
  | Some listenerSet => set_values (deref st listenerSet)
  | None => []
  end.

(** ** Dispatch over a snapshot *)

(** What a dispatch over a snapshot comes to for listeners that leave the
    emitter alone (they return or throw): the listeners of the event are read
    once, at the start of the call, each of them is visited in turn, and
    every nested [emit] of ["error"] or ["removeListener"] just calls that
    event's listeners.  The dispatch for listeners of any kind is
    [emit_over_snapshot] below. *)

Definition called (eventName : EventName) (args : list Value) (listener : Listener)
    : Invocation :=
  {| callee := listener; arguments := name_value eventName :: args |}.

Definition is_once (st : State) (eventName : EventName) (listener : Listener) : bool :=
  once_set (_listenerMeta st !! eventName ≫= (fun metaMap => metaMap !! listener)).

(** Every listener of [eventName] is called and returns. *)
Definition notify (eventName : EventName) (args : list Value) (st : State) : State :=
  with_calls (calls st ++ (called eventName args <$> listeners st eventName)) st.

(** The listener leaves its set and the meta map of its event. *)
Definition unregister_now (eventName : EventName) (listener : Listener) (st : State)
    : State :=
  match map_get (_listeners st) eventName with
  | None => st
  | Some listenerSet =>
      let st :=
        with_sets (<[listenerSet := set_delete (deref st listenerSet) listener]> (sets st)) st in
      match _listenerMeta st !! eventName with
      | Some metaMap =>
          with_listenerMeta (<[eventName := delete listener metaMap]> (_listenerMeta st)) st
      | None => st
      end
  end.

(** What is thrown when nobody listens to ["error"]. *)
Definition unhandled (err : Value) : Value :=
  match err with
  | VError e => VError e
  | _ => VError UnhandledError
  end.

Section Snapshot.
Variable prog : Program.

(** After a listener has run, whether it returned or threw. *)
Definition after_call (eventName : EventName) (listener : Listener) (st : State)
    : State :=
  if is_once st eventName listener
  then unregister_now eventName listener
         (notify (EStr "removeListener") [name_value eventName; VFunction listener] st)
  else st.

Definition visit (eventName : EventName) (args : list Value) (listener : Listener)
    : M unit :=
  fun st =>
    let st := with_calls (calls st ++ [called eventName args listener]) st in
    match prog listener (name_value eventName :: args) st with
    | ThrowValue err :: _ =>
        if map_has (_listeners st) (EStr "error")
        then Return tt (after_call eventName listener (notify (EStr "error") [err] st))
        else Throw (unhandled err) (after_call eventName listener st)
    | _ => Return tt (after_call eventName listener st)
    end.

Definition emit_snapshot (eventName : EventName) (args : list Value) : M bool :=
  fun st =>
    match map_get (_listeners st) eventName with
    | None =>
        if decide (eventName = EStr "error") then
          match args with
          | VError e :: _ => Throw (VError e) st
          | _ => Throw (VError UnhandledError) st
          end
        else Return false st
    | Some listenerSet =>
        let snapshot := set_values (deref st listenerSet) in
        (for_each snapshot (visit eventName args) ;;;
         ret (bool_decide (0 < length snapshot)%nat)) st
    end.

(** Listeners that leave the emitter alone. *)
Definition quiet (l : Listener) : Prop := forall args st, prog l args st = [].

Definition inert (l : Listener) : Prop :=
  forall args st, prog l args st = [] \/ exists v, prog l args st = [ThrowValue v].

Definition registered (st : State) (l : Listener) : Prop :=
  exists eventName, l ∈ listeners st eventName.

(** The two events that the class itself emits while it dispatches. *)
Definition service (eventName : EventName) : Prop :=
  eventName = EStr "error" \/ eventName = EStr "removeListener".

(** Every registered listener returns or throws without touching the
    emitter, and the listeners of ["error"] and ["removeListener"] return
    and stay. *)
Record calm (st : State) : Prop := {
  calm_inert : forall l, registered st l -> inert l;
  calm_service :
    forall eventName l, service eventName -> l ∈ listeners st eventName ->
      quiet l /\ is_once st eventName l = false
}.
End Snapshot.

(** The shape of the heap that the class maintains: no listener occurs twice
    in a set, and two event names never share a set. *)
Definition sets_nodup (st : State) : Prop :=
  forall loc, NoDup (set_values (deref st loc)).

Definition unaliased (st : State) : Prop :=
  forall e e' loc,
    map_get (_listeners st) e = Some loc -> map_get (_listeners st) e' = Some loc -> e = e'.

Definition well_formed (st : State) : Prop := sets_nodup st /\ unaliased st.

(** Enough fuel for a dispatch over listeners that leave the emitter alone:
    three nested calls and a loop over the longest set. *)
Definition deep_enough (fuel : nat) (st : State) : Prop :=
  forall loc, (length (deref st loc) + 3 < fuel)%nat.

(** The calls of the listeners of [eventName] among [log], in order. *)
Definition invoked (eventName : EventName) (log : list Invocation) : list Listener :=
  callee <$> filter (fun c => head (arguments c) = Some (name_value eventName)) log.


(** The log of one visit of [listener] during [emit(eventName, ...args)]: its
    call, calls of the listeners of ["error"] if it threw, and the
    ["removeListener"] notifications of its removal if it was registered
    once. *)
Definition removal_notes (st : State) (eventName : EventName) (listener : Listener)
    : list Invocation :=
  if is_once st eventName listener
  then called (EStr "removeListener") [name_value eventName; VFunction listener]
         <$> listeners st (EStr "removeListener")
  else [].

(** The notifications that a listener leaves, one per listener of
    ["removeListener"]. *)
Definition removeListener_calls (st : State) (eventName : EventName) (listener : Listener)
    : list Invocation :=
  called (EStr "removeListener") [name_value eventName; VFunction listener]
    <$> listeners st (EStr "removeListener").

Definition error_call (c : Invocation) : Prop :=
  head (arguments c) = Some (VString "error").

Definition visit_log (st : State) (eventName : EventName) (args : list Value)
    (listener : Listener) (log : list Invocation) : Prop :=
  exists errs,
    log = called eventName args listener :: errs ++ removal_notes st eventName listener
    /\ Forall error_call errs.

(** How a dispatch over listeners that leave the emitter alone changes it:
    listeners leave, none arrives, and those that stay keep their options. *)
Record settles (st s : State) : Prop := {
  settles_listeners : _listeners s = _listeners st;
  settles_max : _maxListeners s = _maxListeners st;
  settles_length : forall loc, length (deref s loc) = length (deref st loc);
  settles_sub : forall e, sublist (listeners s e) (listeners st e);
  settles_nodup : sets_nodup st -> sets_nodup s;
  settles_kept : forall e x, x ∈ listeners s e -> is_once s e x = is_once st e x;
  settles_once : forall e x, is_once s e x = true -> is_once st e x = true
}.

(** A sequence of [emit] calls, each from the state the previous one left,
    whether it returned or threw. *)
Fixpoint emit_all (prog : Program) (fuel : nat) (es : list (EventName * list Value))
    (st : State) : State :=
  match es with
  | [] => st
  | (eventName, args) :: es' =>
      match this_emit (emitter prog fuel) eventName args st with
      | Return _ s | Throw _ s => emit_all prog fuel es' s
      | OutOfFuel => st
      end
  end.

(** How often [listener] was called for [eventName] in [log]. *)
Definition times_called (eventName : EventName) (listener : Listener)
    (log : list Invocation) : nat :=
  length (filter (fun x => x = listener) (invoked eventName log)).

(** The state that a call leaves, whether it returned or threw. *)
Definition after {A : Type} (m : M A) (st : State) : State :=
  match m st with
  | Return _ s | Throw _ s => s
  | OutOfFuel => st
  end.

(** The part of [log] that was written after [st]. *)
Definition since (st : State) (log : list Invocation) : list Invocation :=
  drop (length (calls st)) log.

(** ** Example emitters *)

(** Listeners that do nothing. *)
Definition no_op : Program := fun _ _ _ => [].

(** [register("a", f1); register("a", f2)] on a new emitter. *)
Definition two_listeners (prog : Program) : State :=
  after (this_addEventListener (emitter prog 3) (EStr "a") 2%nat None)
    (after (this_addEventListener (emitter prog 3) (EStr "a") 1%nat None)
       new_EventEmitter).

(** [f1] registers [f3] for ["a"] and unregisters [f2] from it. *)
Definition meddling : Program :=
  fun l _ _ =>
    match l with
    | 1%nat => [CallAddEventListener (EStr "a") 3%nat None;
                CallRemoveEventListener (EStr "a") 2%nat]
    | _ => []
    end.

(** [f1] emits ["b"]; [f2] unregisters itself from ["b"] and emits ["a"]. *)
Definition reentrant : Program :=
  fun l _ _ =>
    match l with
    | 1%nat => [CallEmit (EStr "b") []]
    | 2%nat => [CallRemoveEventListener (EStr "b") 2%nat; CallEmit (EStr "a") []]
    | _ => []
    end.

Definition once_only : option EventListenerOptions := Some {| once := Some true |}.

(** [register("a", f1, { once: true }); register("b", f2)]. *)
Definition once_and_other (prog : Program) : State :=
  after (this_addEventListener (emitter prog 3) (EStr "b") 2%nat None)
    (after (this_addEventListener (emitter prog 3) (EStr "a") 1%nat once_only)
       new_EventEmitter).

(** [f7] throws. *)
Definition throwing : Program :=
  fun l _ _ =>
    match l with
    | 7%nat => [ThrowValue (VError (PlainError "boom"))]
    | _ => []
    end.

(** [register("removeListener", f7); register("a", f1, { once: true })]. *)
Definition once_and_notified (prog : Program) : State :=
  after (this_addEventListener (emitter prog 3) (EStr "a") 1%nat once_only)
    (after (this_addEventListener (emitter prog 3) (EStr "removeListener") 7%nat None)
       new_EventEmitter).

(** [f7] registers [f2] for ["full"]. *)
Definition cascading : Program :=
  fun l _ _ =>
    match l with
    | 7%nat => [CallAddEventListener (EStr "full") 2%nat None]
    | _ => []
    end.

(** [maxListeners = 1; register("full", f1)]. *)
Definition one_full (prog : Program) : State :=
  after (this_addEventListener (emitter prog 3) (EStr "full") 1%nat None)
    (after (set_maxListeners 1) new_EventEmitter).

(** [register(e, f1); unregister(e, f1)]. *)
Definition emptied (e : EventName) : State :=
  after (this_removeEventListener (emitter no_op 3) e 1%nat)
    (after (this_addEventListener (emitter no_op 3) e 1%nat None) new_EventEmitter).

(** [maxListeners = 0]. *)
Definition capped : State := after (set_maxListeners 0) new_EventEmitter.

(** [f7] unregisters every listener of ["a"] and registers [f1] for it. *)
Definition re_registering : Program :=
  fun l _ _ =>
    match l with
    | 7%nat => [CallRemoveAllListeners (Some (EStr "a"));
                CallAddEventListener (EStr "a") 1%nat None]
    | _ => []
    end.

(** [register("removeListener", f7); register("a", f1)]. *)
Definition notified (prog : Program) : State :=
  after (this_addEventListener (emitter prog 5) (EStr "a") 1%nat None)
    (after (this_addEventListener (emitter prog 5) (EStr "removeListener") 7%nat None)
       new_EventEmitter).

(** [register("", f1)]. *)
Definition unnamed : State :=
  after (this_addEventListener (emitter no_op 3) (EStr "") 1%nat None) new_EventEmitter.

(** ** What every reachable emitter satisfies *)

(** Every set in the map of listeners is in the heap. *)
Definition in_heap (st : State) : Prop :=
  forall e loc, map_get (_listeners st) e = Some loc -> (loc < length (sets st))%nat.

(** The half of the lockstep of the two maps that the class maintains: an
    event with meta data has a set, and a listener with meta data is in it. *)
Definition meta_within_listeners (st : State) : Prop :=
  forall e metaMap,
    _listenerMeta st !! e = Some metaMap ->
    is_Some (map_get (_listeners st) e)
    /\ forall l, is_Some (metaMap !! l) -> l ∈ listeners st e.

Record consistent (st : State) : Prop := {
  consistent_heap : in_heap st;
  consistent_sets : well_formed st;
  consistent_meta : meta_within_listeners st;
  consistent_max : (0 <= _maxListeners st)%Z
}.

(** From one state to a later one the heap grows, and a set that was in the
    heap belongs to the event it belonged to, if to any. *)
Definition evolves (st s : State) : Prop :=
  (length (sets st) <= length (sets s))%nat
  /\ forall e loc,
       map_get (_listeners s) e = Some loc -> (loc < length (sets st))%nat ->
       map_get (_listeners st) e = Some loc.

(** A computation that keeps the emitter consistent, whether it returns or
    throws. *)
Definition preserves {A : Type} (m : M A) : Prop :=
  forall st, consistent st ->
    match m st with
    | Return _ s | Throw _ s => consistent s /\ evolves st s
    | OutOfFuel => True
    end.

(** The states that a client reaches from a new emitter by calls that return
    or throw, with listeners that run [prog]. *)
Inductive reachable (prog : Program) : State -> Prop :=
| reachable_new : reachable prog new_EventEmitter
| reachable_return (st s : State) (fuel : nat) (c : Cmd) :
    reachable prog st -> run_cmd (emitter prog fuel) c st = Return tt s -> reachable prog s
| reachable_throw (st s : State) (fuel : nat) (c : Cmd) (v : Value) :
    reachable prog st -> run_cmd (emitter prog fuel) c st = Throw v s -> reachable prog s.

(** ** Fuel *)

(** [m'] does what [m] does wherever [m] has enough fuel. *)
Definition at_least {A : Type} (m m' : M A) : Prop :=
  forall st, m st <> OutOfFuel -> m' st = m st.

(** ** The accessor, and what a client writes *)

(** [get maxListeners()]. *)
Definition maxListeners (st : State) : Z := _maxListeners st.

(** [for (const l of ls) emitter.addEventListener(eventName, l)]. *)
Definition register_all (this : Methods) (eventName : EventName) (ls : list Listener)
    : M unit :=
  for_each ls (fun l => this_addEventListener this eventName l None).

(** The listeners of [eventName] return without touching the emitter, and
    none of them is registered once. *)
Definition bystanders (prog : Program) (st : State) (eventName : EventName) : Prop :=
  forall r, r ∈ listeners st eventName -> quiet prog r /\ is_once st eventName r = false.

(** The notifications of a registration, one per listener of
    ["newListener"]. *)
Definition newListener_calls (st : State) (eventName : EventName) (listener : Listener)
    (options : option EventListenerOptions) : list Invocation :=
  called (EStr "newListener")
    [name_value eventName; VFunction listener; options_value options]
    <$> listeners st (EStr "newListener").

(** [listenerMeta?.options?.once] of a listener registered with [options]. *)
Definition once_option (options : option EventListenerOptions) : bool :=
  once_set (Some {| options := options |}).

(** A ["removeListener"] notification, made to a listener of
    ["removeListener"] about a listener that was registered for some
    event. *)
Definition removal_notice (st : State) (c : Invocation) : Prop :=
  callee c ∈ listeners st (EStr "removeListener")
  /\ exists eventName listener,
       listener ∈ listeners st eventName
       /\ arguments c
          = [VString "removeListener"; name_value eventName; VFunction listener].


(** The calls in [log] that were made for [eventName]. *)
Definition calls_for (eventName : EventName) (log : list Invocation) : list Invocation :=
  filter (fun c => head (arguments c) = Some (name_value eventName)) log.


(** [register("error", f9)], then the same. *)
Definition guarded (prog : Program) : State :=
  after (this_addEventListener (emitter prog 3) (EStr "a") 2%nat None)
    (after (this_addEventListener (emitter prog 3) (EStr "a") 7%nat None)
       (after (this_addEventListener (emitter prog 3) (EStr "a") 1%nat None)
          (after (this_addEventListener (emitter prog 3) (EStr "error") 9%nat None)
             new_EventEmitter))).

(** ** Dispatch over a snapshot, whatever the listeners do *)

(** [emit] as the specification words it: the listeners registered for the
    event are read once, when the call starts.  With none, ["error"] throws
    and any other event returns [false].  Otherwise each of them is visited
    in turn, in the order of registration, with the [try], [catch] and
    [finally] of the loop of [emit], and the call returns [true]. *)
Definition emit_over_snapshot (prog : Program) (this : Methods) (eventName : EventName)
    (args : list Value) : M bool :=
  fun st =>
    let snapshot := listeners st eventName in
    match snapshot with
    | [] =>
        if decide (eventName = EStr "error") then
          match args with
          | VError e :: _ => Throw (VError e) st
          | _ => Throw (VError UnhandledError) st
          end
        else Return false st
    | _ =>
        (for_each snapshot (call_listener prog this eventName args) ;;; ret true) st
    end.

(** No visit disturbs what is still to be visited.  [entries] is the part of
    the set behind [listenerSet] from [index] on, as [st] has it; its
    listeners are visited in turn, from [st], and each visit that returns
    leaves the part of the set after the listener visited as it was: nothing
    has been added to the set, and no listener that is still to be visited
    has been deleted from it.  Entries before that may go, as those of
    listeners registered once do, and the map may come to hold another set
    for the event. *)
Fixpoint undisturbed (listenerSet : nat) (body : Listener -> M unit)
    (entries : list (option Listener)) (index : nat) (st : State) : Prop :=
  match entries with
  | [] => True
  | None :: rest => undisturbed listenerSet body rest (S index) st
  | Some listener :: rest =>
      match body listener st with
      | Return _ s =>
          drop (S index) (deref s listenerSet) = rest
          /\ undisturbed listenerSet body rest (S index) s
      | _ => True
      end
  end.

(** A computation that only adds to the log of calls. *)
Definition appends {A : Type} (m : M A) : Prop :=
  forall st,
    match m st with
    | Return _ s | Throw _ s => calls st `prefix_of` calls s
    | OutOfFuel => True
    end.

(** [f1] unregisters every listener of ["a"] and registers [f3] for it. *)
Definition detaching : Program :=
  fun l _ _ =>
    match l with
    | 1%nat => [CallRemoveAllListeners (Some (EStr "a"));
                CallAddEventListener (EStr "a") 3%nat None]
    | _ => []
    end.

(** * Properties *)

(** ** Sets and maps *)

Lemma with_calls_same (st : State) : with_calls (calls st) st = st.
Proof. destruct st; reflexivity. Qed.

Lemma with_calls_twice (c c' : list Invocation) (st : State) :
  with_calls c' (with_calls c st) = with_calls c' st.
Proof. reflexivity. Qed.

Lemma name_value_inj (e e' : EventName) : name_value e = name_value e' -> e = e'.
Proof. destruct e, e'; simpl; congruence. Qed.

Lemma set_has_true (s : JSSet) (l : Listener) : set_has s l = true <-> Some l ∈ s.
Proof. unfold set_has. rewrite bool_decide_eq_true. reflexivity. Qed.

Lemma set_has_false (s : JSSet) (l : Listener) : set_has s l = false <-> Some l ∉ s.
Proof. unfold set_has. rewrite bool_decide_eq_false. reflexivity. Qed.

Lemma elem_of_set_values (s : JSSet) (l : Listener) : l ∈ set_values s <-> Some l ∈ s.
Proof.
  unfold set_values. rewrite list_elem_of_omap. split.
  - intros (x & Hx & Hid). simpl in Hid. subst x. exact Hx.
  - intros H. exists (Some l). split; [exact H | reflexivity].
Qed.

Lemma set_values_app (s s' : JSSet) : set_values (s ++ s') = set_values s ++ set_values s'.
Proof. apply omap_app. Qed.

Lemma set_delete_cons (x : option Listener) (s : JSSet) (l : Listener) :
  set_delete (x :: s) l = (if decide (x = Some l) then None else x) :: set_delete s l.
Proof. reflexivity. Qed.

Lemma set_delete_app (s s' : JSSet) (l : Listener) :
  set_delete (s ++ s') l = set_delete s l ++ set_delete s' l.
Proof. unfold set_delete. apply fmap_app. Qed.

Lemma set_values_cons (x : option Listener) (s : JSSet) :
  set_values (x :: s) = match x with Some l => l :: set_values s | None => set_values s end.
Proof. destruct x; reflexivity. Qed.

Lemma set_values_delete (s : JSSet) (l : Listener) :
  set_values (set_delete s l) = filter (fun x => x ≠ l) (set_values s).
Proof.
  induction s as [|x s IH]; [reflexivity |].
  rewrite set_delete_cons, (set_values_cons x).
  destruct (decide (x = Some l)) as [->|Hne].
  - rewrite set_values_cons, filter_cons_False by (intros H; apply H; reflexivity).
    exact IH.
  - destruct x as [x|]; rewrite set_values_cons; [| exact IH].
    rewrite filter_cons_True by congruence. rewrite IH. reflexivity.
Qed.

Lemma set_delete_length (s : JSSet) (l : Listener) : length (set_delete s l) = length s.
Proof. unfold set_delete. apply length_fmap. Qed.

Lemma set_delete_absent (s : JSSet) (l : Listener) : Some l ∉ s -> set_delete s l = s.
Proof.
  induction s as [|x s IH]; intros Hn; [reflexivity |].
  rewrite set_delete_cons. apply not_elem_of_cons in Hn as [Hx Hs].
  rewrite (IH Hs). destruct (decide (x = Some l)); [congruence | reflexivity].
Qed.

(** Deleting the entry under the iterator leaves a hole there and nothing
    else changes, when the entry occurs once. *)
Lemma set_delete_at (pre suf : JSSet) (l : Listener) :
  Some l ∉ suf ->
  exists pre', length pre' = length pre /\
    set_delete (pre ++ Some l :: suf) l = pre' ++ None :: suf.
Proof.
  intros Hsuf. exists (set_delete pre l). split; [apply set_delete_length |].
  rewrite set_delete_app, set_delete_cons, (set_delete_absent suf l Hsuf).
  destruct (decide (Some l = Some l)); [reflexivity | congruence].
Qed.

Lemma map_get_app_new (m : list (EventName * nat)) (e e' : EventName) (loc : nat) :
  map_get (map_set_new m e loc) e'
  = match map_get m e' with
    | Some v => Some v
    | None => if decide (e = e') then Some loc else None
    end.
Proof.
  unfold map_set_new. induction m as [|[k v] m IH]; simpl; [reflexivity |].
  destruct (decide (k = e')); [reflexivity | exact IH].
Qed.

Lemma deref_with_calls (c : list Invocation) (st : State) (loc : nat) :
  deref (with_calls c st) loc = deref st loc.
Proof. reflexivity. Qed.

Lemma is_once_with_calls (c : list Invocation) (st : State) (e : EventName) (l : Listener) :
  is_once (with_calls c st) e l = is_once st e l.
Proof. reflexivity. Qed.

Lemma listeners_with_calls (c : list Invocation) (st : State) (e : EventName) :
  listeners (with_calls c st) e = listeners st e.
Proof. reflexivity. Qed.

Lemma for_of_set_S (k loc index : nat) (body : Listener -> M unit) (st : State) :
  for_of_set (S k) loc index body st
  = match deref st loc !! index with
    | None => Return tt st
    | Some None => for_of_set k loc (S index) body st
    | Some (Some listener) => (body listener ;;; for_of_set k loc (S index) body) st
    end.
Proof. reflexivity. Qed.

(** *** The state after a listener has left *)

Lemma deref_insert (st : State) (loc loc' : nat) (s : JSSet) :
  (loc < length (sets st))%nat ->
  deref (with_sets (<[loc := s]> (sets st)) st) loc'
  = if decide (loc = loc') then s else deref st loc'.
Proof.
  intros Hlt. unfold deref. simpl. destruct (decide (loc = loc')) as [<-|Hne].
  - rewrite list_lookup_insert_eq by exact Hlt. reflexivity.
  - rewrite list_lookup_insert_ne by exact Hne. reflexivity.
Qed.

Lemma deref_unregister_now (e : EventName) (l : Listener) (st : State) (loc' : nat) :
  deref (unregister_now e l st) loc'
  = if decide (map_get (_listeners st) e = Some loc')
    then set_delete (deref st loc') l else deref st loc'.
Proof.
  unfold unregister_now. destruct (map_get (_listeners st) e) as [loc|] eqn:Hloc.
  - assert (Hd : deref (with_sets (<[loc := set_delete (deref st loc) l]> (sets st)) st) loc'
                 = if decide (loc = loc') then set_delete (deref st loc') l else deref st loc').
    { destruct (decide (loc < length (sets st))%nat) as [Hlt|Hge].
      - rewrite deref_insert by exact Hlt.
        destruct (decide (loc = loc')) as [<-|]; reflexivity.
      - unfold deref. simpl. rewrite list_insert_ge by lia.
        destruct (decide (loc = loc')) as [<-|]; [| reflexivity].
        rewrite lookup_ge_None_2 by lia. reflexivity. }
    cbv zeta. change (_listenerMeta (with_sets _ st)) with (_listenerMeta st).
    assert (Hgoal : deref (with_sets (<[loc := set_delete (deref st loc) l]> (sets st)) st) loc'
                    = if decide (Some loc = Some loc')
                      then set_delete (deref st loc') l else deref st loc').
    { rewrite Hd. destruct (decide (loc = loc')) as [<-|Hne].
      - rewrite decide_True by reflexivity. reflexivity.
      - rewrite decide_False by congruence. reflexivity. }
    destruct (_listenerMeta st !! e); exact Hgoal.
  - rewrite decide_False by discriminate. reflexivity.
Qed.

Lemma listeners_unregister_now (e e' : EventName) (l : Listener) (st : State) :
  listeners (unregister_now e l st) e'
  = if decide (map_get (_listeners st) e = map_get (_listeners st) e')
    then filter (fun x => x ≠ l) (listeners st e') else listeners st e'.
Proof.
  assert (Hmap : _listeners (unregister_now e l st) = _listeners st).
  { unfold unregister_now. destruct (map_get (_listeners st) e); [| reflexivity].
    simpl. destruct (_listenerMeta st !! e); reflexivity. }
  unfold listeners. rewrite Hmap.
  destruct (map_get (_listeners st) e') as [loc'|] eqn:Hloc'.
  - rewrite deref_unregister_now.
    destruct (decide (map_get (_listeners st) e = Some loc')); [| reflexivity].
    apply set_values_delete.
  - destruct (decide _); reflexivity.
Qed.

Lemma _listeners_unregister_now (e : EventName) (l : Listener) (st : State) :
  _listeners (unregister_now e l st) = _listeners st.
Proof.
  unfold unregister_now. destruct (map_get (_listeners st) e); [| reflexivity].
  simpl. destruct (_listenerMeta st !! e); reflexivity.
Qed.

Lemma is_once_unregister_now (e e' : EventName) (l l' : Listener) (st : State) :
  is_once (unregister_now e l st) e' l'
  = if decide (e = e' /\ l = l' /\ is_Some (map_get (_listeners st) e))
    then false else is_once st e' l'.
Proof.
  unfold unregister_now, is_once.
  destruct (map_get (_listeners st) e) as [loc|] eqn:Hloc.
  - simpl. destruct (_listenerMeta st !! e) as [m|] eqn:Hm; simpl.
    + destruct (decide (e = e')) as [<-|Hne].
      * rewrite lookup_insert_eq, Hm. simpl.
        destruct (decide (l = l')) as [<-|Hnl].
        -- rewrite lookup_delete_eq, decide_True by eauto. reflexivity.
        -- rewrite lookup_delete_ne by exact Hnl.
           rewrite decide_False by (intros (_ & ? & _); contradiction). reflexivity.
      * rewrite lookup_insert_ne by exact Hne.
        rewrite decide_False by (intros (? & _); contradiction). reflexivity.
    + destruct (decide _) as [(<- & <- & _)|]; [| reflexivity].
      rewrite Hm. reflexivity.
  - rewrite decide_False; [reflexivity |]. intros (_ & _ & [x Hx]). discriminate.
Qed.

Lemma _listeners_after_call (e : EventName) (l : Listener) (st : State) :
  _listeners (after_call e l st) = _listeners st.
Proof.
  unfold after_call. destruct (is_once st e l); [| reflexivity].
  rewrite _listeners_unregister_now. reflexivity.
Qed.

Lemma deref_after_call (e : EventName) (l : Listener) (st : State) (loc' : nat) :
  deref (after_call e l st) loc'
  = if is_once st e l
    then if decide (map_get (_listeners st) e = Some loc')
         then set_delete (deref st loc') l else deref st loc'
    else deref st loc'.
Proof.
  unfold after_call. destruct (is_once st e l); [| reflexivity].
  rewrite deref_unregister_now. reflexivity.
Qed.

Lemma listeners_after_call (e e' : EventName) (l : Listener) (st : State) :
  listeners (after_call e l st) e'
  = if is_once st e l
    then if decide (map_get (_listeners st) e = map_get (_listeners st) e')
         then filter (fun x => x ≠ l) (listeners st e') else listeners st e'
    else listeners st e'.
Proof.
  unfold after_call. destruct (is_once st e l); [| reflexivity].
  rewrite listeners_unregister_now. reflexivity.
Qed.


Lemma calls_after_call (e : EventName) (l : Listener) (st : State) :
  calls (after_call e l st)
  = calls st ++
    (if is_once st e l
     then called (EStr "removeListener") [name_value e; VFunction l]
            <$> listeners st (EStr "removeListener")
     else []).
Proof.
  unfold after_call. destruct (is_once st e l); [| rewrite app_nil_r; reflexivity].
  unfold unregister_now, notify.
  change (_listeners (with_calls _ st)) with (_listeners st).
  destruct (map_get (_listeners st) e); [| reflexivity].
  cbv zeta. change (_listenerMeta (with_sets _ (with_calls _ st))) with (_listenerMeta st).
  destruct (_listenerMeta st !! e); reflexivity.
Qed.

Lemma _maxListeners_after_call (e : EventName) (l : Listener) (st : State) :
  _maxListeners (after_call e l st) = _maxListeners st.
Proof.
  unfold after_call. destruct (is_once st e l); [| reflexivity].
  unfold unregister_now, notify.
  change (_listeners (with_calls _ st)) with (_listeners st).
  destruct (map_get (_listeners st) e); [| reflexivity].
  cbv zeta. change (_listenerMeta (with_sets _ (with_calls _ st))) with (_listenerMeta st).
  destruct (_listenerMeta st !! e); reflexivity.
Qed.

(** *** Listeners only leave *)

Lemma settles_refl (st : State) : settles st st.
Proof. split; auto. Qed.

Lemma settles_trans (st s s' : State) : settles st s -> settles s s' -> settles st s'.
Proof.
  intros [Hl Hm Hn Hs Hd Hk Ho] [Hl' Hm' Hn' Hs' Hd' Hk' Ho']. split.
  - congruence.
  - congruence.
  - intros loc. rewrite Hn'. apply Hn.
  - intros e. etransitivity; [apply Hs' | apply Hs].
  - auto.
  - intros e x Hx. rewrite (Hk' e x Hx). apply Hk.
    eapply elem_of_sublist; [exact Hx | apply Hs'].
  - auto.
Qed.

Lemma settles_with_calls (c : list Invocation) (st : State) : settles st (with_calls c st).
Proof. split; auto. Qed.

Lemma settles_after_call (e : EventName) (l : Listener) (st : State) :
  settles st (after_call e l st).
Proof.
  split.
  - apply _listeners_after_call.
  - apply _maxListeners_after_call.
  - intros loc. rewrite deref_after_call.
    destruct (is_once st e l); [| reflexivity].
    destruct (decide _); [apply set_delete_length | reflexivity].
  - intros e'. rewrite listeners_after_call.
    destruct (is_once st e l); [| reflexivity].
    destruct (decide _); [apply sublist_filter | reflexivity].
  - intros Hnd loc. rewrite deref_after_call.
    destruct (is_once st e l); [| apply Hnd].
    destruct (decide _); [| apply Hnd].
    rewrite set_values_delete. apply NoDup_filter, Hnd.
  - intros e' x Hx. unfold after_call in *.
    destruct (is_once st e l); [| reflexivity].
    rewrite is_once_unregister_now. unfold notify in *.
    change (_listeners (with_calls _ st)) with (_listeners st) in *.
    destruct (decide _) as [(<- & <- & Hsome)|]; [| reflexivity].
    exfalso. rewrite listeners_unregister_now in Hx.
    rewrite decide_True in Hx by reflexivity.
    apply list_elem_of_filter in Hx as [Hx _]. apply Hx. reflexivity.
  - intros e' x. unfold after_call.
    destruct (is_once st e l); [| tauto].
    rewrite is_once_unregister_now. destruct (decide _); [discriminate | tauto].
Qed.

Lemma settles_visit (e : EventName) (l : Listener) (c : list Invocation) (st : State) :
  settles st (after_call e l (with_calls c st)).
Proof.
  eapply settles_trans; [apply settles_with_calls | apply settles_after_call].
Qed.

(** *** Reading the log *)

Lemma invoked_app (e : EventName) (log log' : list Invocation) :
  invoked e (log ++ log') = invoked e log ++ invoked e log'.
Proof. unfold invoked. rewrite filter_app, fmap_app. reflexivity. Qed.

Lemma invoked_called (e e' : EventName) (args : list Value) (ls : list Listener) :
  invoked e' (called e args <$> ls) = if decide (e = e') then ls else [].
Proof.
  unfold invoked. induction ls as [|x ls IH]; [destruct (decide _); reflexivity |].
  rewrite fmap_cons, filter_cons. simpl.
  destruct (decide (e = e')) as [->|Hne].
  - rewrite decide_True by reflexivity. rewrite fmap_cons, IH. reflexivity.
  - rewrite decide_False; [exact IH |].
    intros Heq. injection Heq as Heq. apply name_value_inj in Heq. contradiction.
Qed.

Lemma invoked_error_calls (e : EventName) (errs : list Invocation) :
  e <> EStr "error" -> Forall error_call errs -> invoked e errs = [].
Proof.
  intros Hne Herrs. unfold invoked. induction Herrs as [|c errs Hc _ IH]; [reflexivity |].
  rewrite filter_cons, decide_False; [exact IH |].
  unfold error_call in Hc. rewrite Hc. intros Heq. injection Heq as Heq.
  apply Hne, name_value_inj. symmetry. exact Heq.
Qed.

Lemma invoked_removal_notes (st : State) (e e' : EventName) (l : Listener) :
  e' <> EStr "removeListener" -> invoked e' (removal_notes st e l) = [].
Proof.
  intros Hne. unfold removal_notes. destruct (is_once st e l); [| reflexivity].
  rewrite invoked_called, decide_False by congruence. reflexivity.
Qed.

Lemma invoked_visit_log (st : State) (e e' : EventName) (args : list Value)
    (l : Listener) (log : list Invocation) :
  e' <> EStr "error" -> e' <> EStr "removeListener" ->
  visit_log st e args l log ->
  invoked e' log = if decide (e = e') then [l] else [].
Proof.
  intros Herr Hrl (errs & -> & Herrs).
  change (called e args l :: errs ++ removal_notes st e l)
    with ((called e args <$> [l]) ++ errs ++ removal_notes st e l).
  rewrite !invoked_app, invoked_called, (invoked_error_calls e' errs Herr Herrs),
    (invoked_removal_notes st e e' l Hrl).
  destruct (decide (e = e')); reflexivity.
Qed.

Lemma invoked_visit_logs (st : State) (e e' : EventName) (args : list Value)
    (vis : list Listener) (logs : list (list Invocation)) :
  e' <> EStr "error" -> e' <> EStr "removeListener" ->
  Forall2 (visit_log st e args) vis logs ->
  invoked e' (concat logs) = if decide (e = e') then vis else [].
Proof.
  intros Herr Hrl Hlogs. induction Hlogs as [|l log vis logs Hlog _ IH].
  - destruct (decide _); reflexivity.
  - simpl concat. rewrite invoked_app, IH, (invoked_visit_log st e e' args l log Herr Hrl Hlog).
    destruct (decide (e = e')); reflexivity.
Qed.

Section Calm.
Variable prog : Program.

Local Arguments emitter : simpl never.

Lemma call_listener_quiet this ev args l st :
  quiet prog l -> is_once st ev l = false ->
  call_listener prog this ev args l st
  = Return tt (with_calls (calls st ++ [called ev args l]) st).
Proof.
  intros Hq Ho. unfold call_listener, try_finally, try_catch, apply, remove_if_once.
  rewrite Hq. simpl. unfold bind, ret.
  unfold is_once in Ho. simpl. rewrite Ho. reflexivity.
Qed.

(** A loop over listeners that return and stay only grows the log. *)
Lemma for_of_set_quiet this ev args loc (suf : JSSet) :
  forall (pre : JSSet) (k : nat) (st : State),
    deref st loc = pre ++ suf ->
    (length suf < k)%nat ->
    (forall l, Some l ∈ suf -> quiet prog l /\ is_once st ev l = false) ->
    for_of_set k loc (length pre) (call_listener prog this ev args) st
    = Return tt (with_calls (calls st ++ (called ev args <$> set_values suf)) st).
Proof.
  induction suf as [|x suf IH]; intros pre k st Hd Hk Hq.
  - destruct k as [|k]; [simpl in Hk; lia |]. rewrite for_of_set_S.
    rewrite Hd, lookup_ge_None_2 by (rewrite length_app; simpl; lia).
    simpl. rewrite app_nil_r, with_calls_same. reflexivity.
  - destruct k as [|k]; [simpl in Hk; lia |]. simpl in Hk. rewrite for_of_set_S.
    rewrite Hd, lookup_app_r, Nat.sub_diag by lia. simpl.
    assert (Hd' : deref st loc = (pre ++ [x]) ++ suf)
      by (rewrite <- app_assoc; exact Hd).
    assert (Hlen : S (length pre) = length (pre ++ [x]))
      by (rewrite length_app; simpl; lia).
    destruct x as [l|].
    + unfold bind. rewrite call_listener_quiet by (apply Hq; left).
      rewrite Hlen, (IH (pre ++ [Some l]) k); [ | exact Hd' | lia | ].
      * unfold with_calls. simpl. rewrite <- app_assoc. reflexivity.
      * intros l' Hl'. apply Hq. right. exact Hl'.
    + rewrite Hlen, (IH (pre ++ [None]) k); [ | exact Hd' | lia | ].
      * reflexivity.
      * intros l' Hl'. apply Hq. right. exact Hl'.
Qed.

Lemma emit_quiet this k ev args st :
  (forall l, l ∈ listeners st ev -> quiet prog l /\ is_once st ev l = false) ->
  (forall loc, (length (deref st loc) < k)%nat) ->
  ev <> EStr "error" \/ map_has (_listeners st) ev = true ->
  emit prog this k ev args st
  = Return (bool_decide (0 < length (listeners st ev))%nat) (notify ev args st).
Proof.
  intros Hq Hk Hev. unfold emit, notify, listeners, map_has in *.
  destruct (map_get (_listeners st) ev) as [loc|] eqn:Hloc.
  - unfold bind, ret.
    pose proof (for_of_set_quiet this ev args loc (deref st loc) [] k st
                  eq_refl (Hk loc)) as Hloop.
    simpl in Hloop. rewrite Hloop; [reflexivity |].
    intros l Hl. apply Hq, elem_of_set_values, Hl.
  - destruct Hev as [Hev|Hev]; [| discriminate].
    destruct (decide (ev = EStr "error")); [contradiction |].
    simpl. rewrite app_nil_r, with_calls_same. reflexivity.
Qed.

Lemma emit_error_unhandled this k err st :
  map_get (_listeners st) (EStr "error") = None ->
  emit prog this k (EStr "error") [err] st = Throw (unhandled err) st.
Proof.
  intros Hn. unfold emit. rewrite Hn.
  destruct (decide (EStr "error" = EStr "error")); [| congruence].
  destruct err; reflexivity.
Qed.

(** [unregister] of a listener that is there, when the listeners of
    ["removeListener"] return and stay. *)
Lemma removeEventListener_calm n e l loc st :
  (forall r, r ∈ listeners st (EStr "removeListener") ->
     quiet prog r /\ is_once st (EStr "removeListener") r = false) ->
  (forall loc, (length (deref st loc) < n)%nat) ->
  map_get (_listeners st) e = Some loc ->
  Some l ∈ deref st loc ->
  removeEventListener (emitter prog (S n)) e l st
  = Return true
      (unregister_now e l (notify (EStr "removeListener") [name_value e; VFunction l] st)).
Proof.
  intros Hq Hn Hloc Hl. unfold removeEventListener. rewrite Hloc.
  apply set_has_true in Hl. rewrite Hl. simpl negb. cbv iota.
  unfold bind. change (this_emit (emitter prog (S n))) with (emit prog (emitter prog n) n).
  rewrite emit_quiet; [ | exact Hq | exact Hn | left; discriminate].
  unfold unregister_now, notify. simpl. rewrite Hloc. reflexivity.
Qed.

Lemma registered_at st e loc l :
  map_get (_listeners st) e = Some loc -> Some l ∈ deref st loc -> registered st l.
Proof.
  intros Hloc Hl. exists e. unfold listeners. rewrite Hloc.
  apply elem_of_set_values, Hl.
Qed.

Lemma remove_if_once_calm n e l loc st :
  calm prog st ->
  (forall loc, (length (deref st loc) < n)%nat) ->
  map_get (_listeners st) e = Some loc ->
  Some l ∈ deref st loc ->
  forall c,
    remove_if_once (emitter prog (S (S n))) e l (with_calls c st)
    = Return tt (after_call e l (with_calls c st)).
Proof.
  intros [Hin Hsv] Hn Hloc Hl c. unfold remove_if_once, after_call.
  change (once_set _) with (is_once (with_calls c st) e l).
  destruct (is_once (with_calls c st) e l); [| reflexivity].
  unfold bind, ret.
  change (this_removeEventListener (emitter prog (S (S n))))
    with (removeEventListener (emitter prog (S n))).
  rewrite (removeEventListener_calm n e l loc); [reflexivity | | | exact Hloc | exact Hl].
  - intros r Hr. apply Hsv; [right; reflexivity | exact Hr].
  - intros loc'. apply Hn.
Qed.

(** Under [calm], one turn of the loop of [emit] is one [visit]. *)
Lemma call_listener_calm n e args l loc st :
  calm prog st ->
  (forall loc, (length (deref st loc) < n)%nat) ->
  map_get (_listeners st) e = Some loc ->
  Some l ∈ deref st loc ->
  call_listener prog (emitter prog (S (S n))) e args l st = visit prog e args l st.
Proof.
  intros Hcalm Hn Hloc Hl.
  pose proof (calm_inert _ _ Hcalm l (registered_at st e loc l Hloc Hl)) as Hl_inert.
  pose proof (remove_if_once_calm n e l loc st Hcalm Hn Hloc Hl) as Hrm.
  unfold call_listener, visit, try_finally, try_catch, apply.
  set (st1 := with_calls (calls st ++ [called e args l]) st).
  change (with_calls (calls st ++ [{| callee := l; arguments := name_value e :: args |}]) st)
    with st1.
  destruct (Hl_inert (name_value e :: args) st1) as [Hp|[v Hp]]; rewrite Hp.
  - unfold for_each, ret at 1. unfold bind. unfold st1 at 1. rewrite Hrm. reflexivity.
  - unfold for_each, run_cmd, throw, ret at 1. unfold bind. cbv beta iota.
    change (this_emit (emitter prog (S (S n))))
      with (emit prog (emitter prog (S n)) (S n)).
    unfold map_has.
    destruct (map_get (_listeners st1) (EStr "error")) as [eloc|] eqn:Heloc.
    + rewrite emit_quiet.
      * unfold notify at 1. unfold ret. cbv beta iota.
        match goal with
        | |- context [remove_if_once _ e l (with_calls ?c st1)] =>
            change (with_calls c st1) with (with_calls c st)
        end.
        rewrite Hrm. reflexivity.
      * intros r Hr. apply (calm_service _ _ Hcalm); [left; reflexivity | exact Hr].
      * intros loc'. unfold st1. rewrite deref_with_calls. specialize (Hn loc'). lia.
      * right. unfold map_has. rewrite Heloc. reflexivity.
    + rewrite emit_error_unhandled by exact Heloc.
      unfold st1 at 1. rewrite Hrm. reflexivity.
Qed.

(** Where a visit leaves the emitter: the listener has been called, the
    listeners of ["error"] may have been, and the listener has left if it
    was registered once. *)
Lemma visit_outcome e args l st :
  exists notes,
    let s := after_call e l (with_calls (calls st ++ called e args l :: notes) st) in
    (visit prog e args l st = Return tt s \/ exists v, visit prog e args l st = Throw v s)
    /\ Forall (fun c => head (arguments c) = Some (VString "error")) notes.
Proof.
  unfold visit.
  set (st1 := with_calls (calls st ++ [called e args l]) st).
  destruct (prog l (name_value e :: args) st1) as [|[| | | | |v] rest];
    try (exists []; split; [left; reflexivity | constructor]).
  destruct (map_has (_listeners st1) (EStr "error")).
  - exists (called (EStr "error") [v] <$> listeners st (EStr "error")). split.
    + left. unfold notify, st1. simpl. rewrite <- app_assoc. reflexivity.
    + apply Forall_fmap, Forall_forall. intros r _. reflexivity.
  - exists []. split; [right; exists (unhandled v); reflexivity | constructor].
Qed.

Lemma calm_with_calls c st : calm prog st -> calm prog (with_calls c st).
Proof. intros [Hin Hsv]. split; [exact Hin | exact Hsv]. Qed.

Lemma calm_after_call e l st : calm prog st -> calm prog (after_call e l st).
Proof.
  intros [Hin Hsv].
  assert (Hsub : forall e' x, x ∈ listeners (after_call e l st) e' -> x ∈ listeners st e').
  { intros e' x. rewrite listeners_after_call.
    destruct (is_once st e l); [| tauto].
    destruct (decide _); [| tauto]. rewrite list_elem_of_filter. tauto. }
  split.
  - intros x [e' Hx]. apply Hin. exists e'. apply Hsub, Hx.
  - intros e' x Hs Hx. destruct (Hsv e' x Hs (Hsub _ _ Hx)) as [Hq Ho].
    split; [exact Hq |].
    unfold after_call. destruct (is_once st e l); [| exact Ho].
    rewrite is_once_unregister_now. destruct (decide _); [reflexivity | exact Ho].
Qed.

Lemma for_of_set_calm n e args loc (suf : JSSet) :
  forall (pre : JSSet) (k : nat) (st : State),
    calm prog st ->
    (forall loc, (length (deref st loc) < n)%nat) ->
    map_get (_listeners st) e = Some loc ->
    deref st loc = pre ++ suf ->
    NoDup (set_values suf) ->
    (length suf < k)%nat ->
    for_of_set k loc (length pre) (call_listener prog (emitter prog (S (S n))) e args) st
    = for_each (set_values suf) (visit prog e args) st.
Proof.
  induction suf as [|x suf IH]; intros pre k st Hcalm Hn Hloc Hd Hnd Hk.
  - destruct k as [|k]; [simpl in Hk; lia |]. rewrite for_of_set_S.
    rewrite Hd, lookup_ge_None_2 by (rewrite length_app; simpl; lia). reflexivity.
  - destruct k as [|k]; [simpl in Hk; lia |]. simpl in Hk. rewrite for_of_set_S.
    rewrite Hd, lookup_app_r, Nat.sub_diag by lia. simpl lookup. cbv iota.
    assert (Hlen : forall (p : JSSet) y, length p = length pre ->
              S (length pre) = length (p ++ [y]))
      by (intros p y Hp; rewrite length_app, Hp; simpl; lia).
    destruct x as [l|].
    + rewrite set_values_cons in Hnd |- *. apply NoDup_cons in Hnd as [Hl Hnd].
      assert (Hin : Some l ∈ deref st loc)
        by (rewrite Hd; apply elem_of_app; right; left).
      simpl for_each. unfold bind.
      rewrite (call_listener_calm n e args l loc st Hcalm Hn Hloc Hin).
      destruct (visit_outcome e args l st) as (notes & [Hv|[v Hv]] & _);
        cbv zeta in Hv; rewrite Hv; [| reflexivity].
      set (c := calls st ++ called e args l :: notes) in *.
      assert (Hd' : exists pre', length pre' = length pre /\
                deref (after_call e l (with_calls c st)) loc = (pre' ++ [None]) ++ suf
                \/ deref (after_call e l (with_calls c st)) loc = (pre ++ [Some l]) ++ suf).
      { rewrite deref_after_call, deref_with_calls, is_once_with_calls.
        change (_listeners (with_calls c st)) with (_listeners st).
        rewrite decide_True by exact Hloc. rewrite Hd.
        destruct (is_once st e l).
        - destruct (set_delete_at pre suf l) as (pre' & Hp & Heq).
          { rewrite <- elem_of_set_values. exact Hl. }
          exists pre'. left. split; [exact Hp |]. rewrite Heq, <- app_assoc. reflexivity.
        - exists pre. right. rewrite <- app_assoc. reflexivity. }
      assert (Hcalm' : calm prog (after_call e l (with_calls c st)))
        by (apply calm_after_call, calm_with_calls, Hcalm).
      assert (Hn' : forall loc', (length (deref (after_call e l (with_calls c st)) loc') < n)%nat).
      { intros loc'. rewrite deref_after_call, deref_with_calls.
        destruct (is_once _ e l); [| apply Hn].
        destruct (decide _); [rewrite set_delete_length |]; apply Hn. }
      assert (Hloc' : map_get (_listeners (after_call e l (with_calls c st))) e = Some loc)
        by (rewrite _listeners_after_call; exact Hloc).
      destruct Hd' as (pre' & [[Hp Hd']|Hd']).
      * rewrite (Hlen pre' None Hp). apply IH; [exact Hcalm' | exact Hn' | exact Hloc' | exact Hd' | exact Hnd | lia].
      * rewrite (Hlen pre (Some l) eq_refl). apply IH; [exact Hcalm' | exact Hn' | exact Hloc' | exact Hd' | exact Hnd | lia].
    + rewrite set_values_cons in Hnd |- *.
      rewrite (Hlen pre None eq_refl).
      apply IH; [exact Hcalm | exact Hn | exact Hloc | | exact Hnd | lia].
      rewrite <- app_assoc. exact Hd.
Qed.

Lemma deep_enough_S fuel st :
  deep_enough fuel st ->
  exists n, fuel = S (S (S n)) /\ forall loc, (length (deref st loc) < n)%nat.
Proof.
  intros Hdeep. pose proof (Hdeep 0%nat) as H0.
  destruct fuel as [|[|[|n]]]; try lia. exists n. split; [reflexivity |].
  intros loc. specialize (Hdeep loc). lia.
Qed.

(** With listeners that leave the emitter alone, [emit] is the dispatch
    over the snapshot. *)
Lemma emit_calm fuel e args st :
  calm prog st -> sets_nodup st -> deep_enough fuel st ->
  this_emit (emitter prog fuel) e args st = emit_snapshot prog e args st.
Proof.
  intros Hcalm Hnd Hdeep. destruct (deep_enough_S fuel st Hdeep) as (n & -> & Hn).
  change (this_emit (emitter prog (S (S (S n)))))
    with (emit prog (emitter prog (S (S n))) (S (S n))).
  unfold emit, emit_snapshot.
  destruct (map_get (_listeners st) e) as [loc|] eqn:Hloc; [| reflexivity].
  unfold bind.
  pose proof (for_of_set_calm n e args loc (deref st loc) [] (S (S n)) st
                Hcalm Hn Hloc eq_refl (Hnd loc)) as Hloop.
  simpl length in Hloop at 2. rewrite Hloop; [reflexivity |].
  specialize (Hn loc). lia.
Qed.

Lemma calm_settles st s : calm prog st -> settles st s -> calm prog s.
Proof.
  intros [Hin Hsv] Hs. split.
  - intros x [e Hx]. apply Hin. exists e.
    eapply elem_of_sublist; [exact Hx | apply (settles_sub _ _ Hs)].
  - intros e x He Hx.
    assert (Hx0 : x ∈ listeners st e)
      by (eapply elem_of_sublist; [exact Hx | apply (settles_sub _ _ Hs)]).
    destruct (Hsv e x He Hx0) as [Hq Ho]. split; [exact Hq |].
    rewrite (settles_kept _ _ Hs e x Hx). exact Ho.
Qed.

(** The dispatch over a snapshot, one visit after the other. *)
Lemma dispatch_post e args st0 loc :
  e <> EStr "removeListener" -> unaliased st0 ->
  map_get (_listeners st0) e = Some loc ->
  forall ls st,
    settles st0 st ->
    listeners st (EStr "removeListener") = listeners st0 (EStr "removeListener") ->
    (forall x, x ∈ ls -> x ∈ listeners st e) ->
    NoDup ls ->
    exists s vis logs,
      (for_each ls (visit prog e args) st = Return tt s /\ vis = ls
       \/ (exists v, for_each ls (visit prog e args) st = Throw v s) /\ vis `prefix_of` ls)
      /\ settles st s
      /\ listeners s (EStr "removeListener") = listeners st0 (EStr "removeListener")
      /\ calls s = calls st ++ concat logs
      /\ Forall2 (visit_log st0 e args) vis logs
      /\ (forall x, x ∈ vis -> is_once st0 e x = true -> x ∉ listeners s e).
Proof.
  intros Hne Hua Hloc. induction ls as [|x ls IH]; intros st Hst Hrl Hls Hnd.
  - exists st, [], []. split; [left; split; reflexivity |].
    split; [apply settles_refl |]. split; [exact Hrl |].
    split; [simpl; rewrite app_nil_r; reflexivity |].
    split; [constructor |]. intros x Hx. inversion Hx.
  - apply NoDup_cons in Hnd as [Hx Hnd].
    assert (Hxin : x ∈ listeners st e) by (apply Hls; left).
    assert (Hloc' : map_get (_listeners st) e = Some loc)
      by (rewrite (settles_listeners _ _ Hst); exact Hloc).
    destruct (visit_outcome e args x st) as (notes & Hv & Hnotes). cbv zeta in Hv.
    set (c := calls st ++ called e args x :: notes) in *.
    set (s1 := after_call e x (with_calls c st)) in *.
    assert (Hs1 : settles st s1) by apply settles_visit.
    assert (Hrl1 : listeners s1 (EStr "removeListener")
                   = listeners st0 (EStr "removeListener")).
    { unfold s1. rewrite listeners_after_call, listeners_with_calls, is_once_with_calls.
      change (_listeners (with_calls c st)) with (_listeners st).
      destruct (is_once st e x); [| exact Hrl].
      destruct (decide _) as [Heq|]; [| exact Hrl].
      exfalso. apply Hne. apply (Hua e (EStr "removeListener") loc); [exact Hloc |].
      rewrite <- (settles_listeners _ _ Hst), <- Heq. exact Hloc'. }
    assert (Hlog : calls s1 = calls st ++ (called e args x :: notes ++ removal_notes st0 e x)).
    { unfold s1. rewrite calls_after_call, is_once_with_calls, listeners_with_calls.
      unfold removal_notes. rewrite <- (settles_kept _ _ Hst e x Hxin), Hrl.
      unfold c. simpl. rewrite <- app_assoc. reflexivity. }
    assert (Hvl : visit_log st0 e args x (called e args x :: notes ++ removal_notes st0 e x))
      by (exists notes; split; [reflexivity | exact Hnotes]).
    assert (Hgone : is_once st0 e x = true -> x ∉ listeners s1 e).
    { intros Ho. unfold s1. rewrite listeners_after_call, is_once_with_calls.
      rewrite (settles_kept _ _ Hst e x Hxin), Ho.
      rewrite decide_True by reflexivity.
      rewrite list_elem_of_filter. intros [Hn _]. apply Hn. reflexivity. }
    destruct Hv as [Hv|[v Hv]].
    + destruct (IH s1) as (s & vis & logs & Hout & Hs & Hrls & Hcalls & Hlogs & Hvis).
      * eapply settles_trans; [exact Hst | exact Hs1].
      * exact Hrl1.
      * intros y Hy. unfold s1.
        rewrite listeners_after_call, listeners_with_calls, is_once_with_calls.
        destruct (is_once st e x); [| apply Hls; right; exact Hy].
        destruct (decide _); [| apply Hls; right; exact Hy].
        apply list_elem_of_filter. split; [| apply Hls; right; exact Hy].
        intros ->. contradiction.
      * exact Hnd.
      * exists s, (x :: vis), ((called e args x :: notes ++ removal_notes st0 e x) :: logs).
        split.
        { simpl for_each. unfold bind. rewrite Hv.
          destruct Hout as [[Hr ->]|[[v Hr] Hp]].
          - left. split; [exact Hr | reflexivity].
          - right. split; [exists v; exact Hr | apply prefix_cons, Hp]. }
        split; [eapply settles_trans; [exact Hs1 | exact Hs] |].
        split; [exact Hrls |].
        split; [rewrite Hcalls, Hlog, <- app_assoc; reflexivity |].
        split; [constructor; [exact Hvl | exact Hlogs] |].
        intros y Hy Ho. apply elem_of_cons in Hy as [->|Hy]; [| apply Hvis; assumption].
        intros Hin. apply (Hgone Ho).
        eapply elem_of_sublist; [exact Hin | apply (settles_sub _ _ Hs)].
    + exists s1, [x], [called e args x :: notes ++ removal_notes st0 e x].
      split.
      { right. split; [exists v; simpl for_each; unfold bind; rewrite Hv; reflexivity |].
        apply prefix_cons, prefix_nil. }
      split; [exact Hs1 |]. split; [exact Hrl1 |].
      split; [simpl; rewrite app_nil_r; exact Hlog |].
      split; [constructor; [exact Hvl | constructor] |].
      intros y Hy Ho. apply list_elem_of_singleton in Hy as ->. apply Hgone, Ho.
Qed.

Lemma once_not_service st e l :
  calm prog st -> l ∈ listeners st e -> is_once st e l = true -> ~ service e.
Proof.
  intros Hcalm Hl Ho Hs. destruct (calm_service _ _ Hcalm e l Hs Hl) as [_ Hf].
  congruence.
Qed.

(** One [emit] of an event that is not ["error"] or ["removeListener"]. *)
Lemma emit_post fuel e args st :
  calm prog st -> well_formed st -> deep_enough fuel st -> ~ service e ->
  exists s vis logs,
    (this_emit (emitter prog fuel) e args st
       = Return (bool_decide (0 < length (listeners st e))%nat) s
     /\ vis = listeners st e
     \/ (exists v, this_emit (emitter prog fuel) e args st = Throw v s)
        /\ vis `prefix_of` listeners st e)
    /\ settles st s
    /\ calls s = calls st ++ concat logs
    /\ Forall2 (visit_log st e args) vis logs
    /\ (forall x, x ∈ vis -> is_once st e x = true -> x ∉ listeners s e).
Proof.
  intros Hcalm [Hnd Hua] Hdeep Hns.
  rewrite (emit_calm fuel e args st Hcalm Hnd Hdeep).
  unfold emit_snapshot, listeners.
  destruct (map_get (_listeners st) e) as [loc|] eqn:Hloc.
  - destruct (dispatch_post e args st loc) with (ls := set_values (deref st loc)) (st := st)
      as (s & vis & logs & Hout & Hs & _ & Hcalls & Hlogs & Hgone).
    + intros ->. apply Hns. right. reflexivity.
    + exact Hua.
    + exact Hloc.
    + apply settles_refl.
    + reflexivity.
    + intros x Hx. unfold listeners. rewrite Hloc. exact Hx.
    + apply Hnd.
    + exists s, vis, logs. split; [| split; [exact Hs | split; [exact Hcalls |]]].
      * unfold bind. destruct Hout as [[-> ->]|[[v ->] Hp]].
        -- left. split; reflexivity.
        -- right. split; [exists v; reflexivity | exact Hp].
      * split; [exact Hlogs |]. intros x Hx Ho.
        specialize (Hgone x Hx Ho). unfold listeners in Hgone.
        rewrite (settles_listeners _ _ Hs), Hloc in Hgone. unfold listeners.
        rewrite (settles_listeners _ _ Hs), Hloc. exact Hgone.
  - exists st, [], []. rewrite decide_False by (intros ->; apply Hns; left; reflexivity).
    split; [left; split; reflexivity |].
    split; [apply settles_refl |].
    split; [simpl; rewrite app_nil_r; reflexivity |].
    split; [constructor |]. intros x Hx. inversion Hx.
Qed.

(** One [emit] of ["error"] or ["removeListener"]. *)
Lemma emit_service fuel e args st :
  calm prog st -> deep_enough fuel st -> service e ->
  this_emit (emitter prog fuel) e args st
    = Return (bool_decide (0 < length (listeners st e))%nat) (notify e args st)
  \/ (exists v, this_emit (emitter prog fuel) e args st = Throw v st)
     /\ map_get (_listeners st) e = None.
Proof.
  intros Hcalm Hdeep Hs. destruct (deep_enough_S fuel st Hdeep) as (n & -> & Hn).
  change (this_emit (emitter prog (S (S (S n)))))
    with (emit prog (emitter prog (S (S n))) (S (S n))).
  destruct (map_get (_listeners st) e) as [loc|] eqn:Hloc.
  - left. apply emit_quiet.
    + intros l Hl. apply (calm_service _ _ Hcalm e l Hs Hl).
    + intros loc'. specialize (Hn loc'). lia.
    + right. unfold map_has. rewrite Hloc. reflexivity.
  - destruct Hs as [->| ->].
    + right. split; [| reflexivity]. unfold emit. rewrite Hloc.
      rewrite decide_True by reflexivity.
      destruct args as [|[] ?]; eexists; reflexivity.
    + left. apply emit_quiet.
      * intros l Hl. apply (calm_service _ _ Hcalm _ l (or_intror eq_refl) Hl).
      * intros loc'. specialize (Hn loc'). lia.
      * left. discriminate.
Qed.
End Calm.

(** *** Counting calls *)

Lemma since_app (st : State) (log : list Invocation) : since st (calls st ++ log) = log.
Proof. unfold since. apply drop_app_length. Qed.

Lemma times_called_app (e : EventName) (l : Listener) (log log' : list Invocation) :
  times_called e l (log ++ log') = (times_called e l log + times_called e l log')%nat.
Proof. unfold times_called. rewrite invoked_app, filter_app, length_app. reflexivity. Qed.

Lemma count_NoDup (l : nat) (ls : list nat) :
  NoDup ls ->
  length (filter (fun x => x = l) ls) = if decide (l ∈ ls) then 1%nat else 0%nat.
Proof.
  induction 1 as [|x ls Hx Hnd IH]; [reflexivity |].
  rewrite filter_cons. destruct (decide (x = l)) as [->|Hne].
  - simpl. rewrite IH, decide_False by exact Hx.
    rewrite decide_True by left. reflexivity.
  - rewrite IH. destruct (decide (l ∈ ls)) as [Hin|Hnin].
    + rewrite decide_True by (right; exact Hin). reflexivity.
    + rewrite decide_False; [reflexivity |].
      intros Hin. apply elem_of_cons in Hin as [->|Hin]; contradiction.
Qed.

Lemma count_absent (l : nat) (ls : list nat) :
  l ∉ ls -> length (filter (fun x => x = l) ls) = 0%nat.
Proof.
  induction ls as [|x ls IH]; intros Hl; [reflexivity |].
  apply not_elem_of_cons in Hl as [Hx Hl].
  rewrite filter_cons, decide_False by congruence. apply IH, Hl.
Qed.

Lemma prefix_NoDup (ls ls' : list nat) : ls `prefix_of` ls' -> NoDup ls' -> NoDup ls.
Proof. intros [k ->] Hnd. apply NoDup_app in Hnd as [Hnd _]. exact Hnd. Qed.

Lemma listeners_NoDup (st : State) (e : EventName) : sets_nodup st -> NoDup (listeners st e).
Proof.
  intros Hnd. unfold listeners. destruct (map_get (_listeners st) e); [apply Hnd | constructor].
Qed.

(** ** The listeners that one [emit] calls *)

(** The listeners that [emit] calls for the event, read off the log. *)
Lemma emit_calm_log (prog : Program) (fuel : nat) (st : State)
    (e : EventName) (args : list Value) :
  calm prog st -> well_formed st -> deep_enough fuel st ->
  exists s log,
    calls s = calls st ++ log
    /\ (this_emit (emitter prog fuel) e args st
          = Return (bool_decide (0 < length (listeners st e))%nat) s
        /\ invoked e log = listeners st e
        \/ (exists v, this_emit (emitter prog fuel) e args st = Throw v s)
           /\ invoked e log `prefix_of` listeners st e).
Proof.
  intros Hcalm Hwf Hdeep.
  destruct (decide (service e)) as [Hs|Hns].
  - destruct (emit_service prog fuel e args st Hcalm Hdeep Hs) as [Hr|[[v Hr] Hnone]].
    + exists (notify e args st), (called e args <$> listeners st e).
      split; [reflexivity |]. left. split; [exact Hr |].
      rewrite invoked_called, decide_True by reflexivity. reflexivity.
    + exists st, []. split; [rewrite app_nil_r; reflexivity |].
      right. split; [exists v; exact Hr | apply prefix_nil].
  - destruct (emit_post prog fuel e args st Hcalm Hwf Hdeep Hns)
      as (s & vis & logs & Hout & _ & Hcalls & Hlogs & _).
    exists s, (concat logs). split; [exact Hcalls |].
    assert (Hinv : invoked e (concat logs) = vis).
    { rewrite (invoked_visit_logs st e e args vis logs); [| | | exact Hlogs].
      - rewrite decide_True by reflexivity. reflexivity.
      - intros ->. apply Hns. left. reflexivity.
      - intros ->. apply Hns. right. reflexivity. }
    rewrite Hinv. destruct Hout as [[Hr ->]|[Hr Hp]].
    + left. split; [exact Hr | reflexivity].
    + right. split; [exact Hr | exact Hp].
Qed.

(** *** Checking the hypotheses on a given emitter *)

Ltac by_computation := apply (bool_decide_unpack _); vm_compute; exact I.

Lemma map_get_elem_of (m : list (EventName * nat)) (e : EventName) (loc : nat) :
  map_get m e = Some loc -> (e, loc) ∈ m.
Proof.
  induction m as [|[k v] m IH]; simpl; [discriminate |].
  destruct (decide (k = e)) as [->|_].
  - intros [= <-]. left.
  - intros H. right. apply IH, H.
Qed.

Lemma well_formed_intro (st : State) :
  Forall (fun s : list (option nat) => NoDup (set_values s)) (sets st) ->
  NoDup ((_listeners st).*2) ->
  well_formed st.
Proof.
  intros Hsets Hlocs. split.
  - intros loc. unfold deref. destruct (sets st !! loc) as [s|] eqn:Hs; simpl.
    + eapply Forall_lookup_1 in Hsets; [exact Hsets | exact Hs].
    + constructor.
  - intros e e' loc He He'. apply map_get_elem_of in He, He'.
    induction (_listeners st) as [|[k v] m IH]; [inversion He |].
    simpl in Hlocs. apply NoDup_cons in Hlocs as [Hv Hlocs].
    apply elem_of_cons in He as [He|He], He' as [He'|He'].
    + congruence.
    + injection He as <- <-. exfalso. apply Hv.
      apply list_elem_of_fmap. exists (e', loc). split; [reflexivity | exact He'].
    + injection He' as <- <-. exfalso. apply Hv.
      apply list_elem_of_fmap. exists (e, loc). split; [reflexivity | exact He].
    + apply IH; assumption.
Qed.

Lemma deep_enough_intro (fuel : nat) (st : State) :
  (3 < fuel)%nat ->
  Forall (fun s : list (option nat) => (length s + 3 < fuel)%nat) (sets st) ->
  deep_enough fuel st.
Proof.
  intros Hf Hsets loc. unfold deref. destruct (sets st !! loc) as [s|] eqn:Hs; simpl.
  - eapply Forall_lookup_1 in Hsets; [exact Hsets | exact Hs].
  - lia.
Qed.

Lemma calm_no_op (st : State) :
  (forall e l, service e -> l ∈ listeners st e -> is_once st e l = false) ->
  calm no_op st.
Proof.
  intros Hsv. split.
  - intros l _ args s. left. reflexivity.
  - intros e l He Hl. split; [intros args s; reflexivity | apply Hsv; assumption].
Qed.

(** C1, as stated, fails: [f1] registers [f3] and unregisters [f2] while
    ["a"] is being emitted; the call visits [f1] and [f3], not the listeners
    [f1] and [f2] that were registered when it started. *)
Lemma emit_visits_live_set :
  let st := two_listeners meddling in
  listeners st (EStr "a") = [1; 2]%nat
  /\ exists s,
       this_emit (emitter meddling 9) (EStr "a") [] st = Return true s
       /\ invoked (EStr "a") (since st (calls s)) = [1; 3]%nat.
Proof.
  intros st. split; [reflexivity |]. eexists. split; vm_compute; reflexivity.
Qed.

(** *** Listeners registered once *)

Section Once.
Variable prog : Program.
Variable fuel : nat.
Variable e : EventName.
Variable l : Listener.
Hypothesis He : ~ service e.

(** The shape of the log around the visit of [l]. *)
Lemma visit_logs_split st args vis logs :
  NoDup vis -> l ∈ vis -> is_once st e l = true ->
  Forall2 (visit_log st e args) vis logs ->
  exists before errs after,
    concat logs
    = before ++ called e args l :: errs ++ removeListener_calls st e l ++ after
    /\ Forall error_call errs
    /\ times_called e l before = 0%nat
    /\ times_called e l after = 0%nat.
Proof.
  intros Hnd Hl Ho Hlogs.
  assert (Herr : e <> EStr "error") by (intros ->; apply He; left; reflexivity).
  assert (Hrl : e <> EStr "removeListener") by (intros ->; apply He; right; reflexivity).
  apply list_elem_of_split in Hl as (v1 & v2 & ->).
  apply Forall2_app_inv_l in Hlogs as (k1 & k2 & H1 & H2 & ->).
  apply Forall2_cons_inv_l in H2 as (log & k2' & (errs & -> & Herrs) & H2 & ->).
  apply NoDup_app in Hnd as (_ & Hv1 & Hnd). apply NoDup_cons in Hnd as [Hv2 _].
  exists (concat k1), errs, (concat k2'). split.
  - rewrite concat_app. simpl concat. unfold removal_notes, removeListener_calls.
    rewrite Ho, <- !app_assoc. reflexivity.
  - split; [exact Herrs |]. unfold times_called.
    rewrite (invoked_visit_logs st e e args v1 k1 Herr Hrl H1),
      (invoked_visit_logs st e e args v2 k2' Herr Hrl H2), !decide_True by reflexivity.
    split; apply count_absent.
    + intros Hin. apply (Hv1 l Hin). left.
    + exact Hv2.
Qed.

Lemma well_formed_settles st s : well_formed st -> settles st s -> well_formed s.
Proof.
  intros [Hnd Hua] Hs. split; [apply (settles_nodup _ _ Hs), Hnd |].
  intros e1 e2 loc. rewrite (settles_listeners _ _ Hs). apply Hua.
Qed.

Lemma deep_enough_settles st s : deep_enough fuel st -> settles st s -> deep_enough fuel s.
Proof. intros Hd Hs loc. rewrite (settles_length _ _ Hs). apply Hd. Qed.

(** One [emit], of any event: [l] is called for [e] at most once, and
    not at all unless it is registered; once called it is gone. *)
Lemma emit_step st e2 args2 :
  calm prog st -> well_formed st -> deep_enough fuel st ->
  (l ∈ listeners st e -> is_once st e l = true) ->
  exists s log,
    ((exists b, this_emit (emitter prog fuel) e2 args2 st = Return b s)
     \/ (exists v, this_emit (emitter prog fuel) e2 args2 st = Throw v s))
    /\ settles st s
    /\ calls s = calls st ++ log
    /\ (times_called e l log + (if decide (l ∈ listeners s e) then 1 else 0)
        <= (if decide (l ∈ listeners st e) then 1 else 0))%nat.
Proof.
  intros Hcalm Hwf Hdeep Hol.
  assert (Herr : e <> EStr "error") by (intros ->; apply He; left; reflexivity).
  assert (Hrl : e <> EStr "removeListener") by (intros ->; apply He; right; reflexivity).
  destruct (decide (service e2)) as [Hs2|Hns2].
  - destruct (emit_service prog fuel e2 args2 st Hcalm Hdeep Hs2) as [Hr|[[v Hr] _]].
    + exists (notify e2 args2 st), (called e2 args2 <$> listeners st e2).
      split; [left; eexists; exact Hr |]. split; [apply settles_with_calls |].
      split; [reflexivity |]. unfold times_called.
      rewrite invoked_called, decide_False by (intros ->; contradiction).
      unfold notify. rewrite listeners_with_calls. simpl. lia.
    + exists st, []. split; [right; exists v; exact Hr |].
      split; [apply settles_refl |]. split; [rewrite app_nil_r; reflexivity |].
      simpl. lia.
  - destruct (emit_post prog fuel e2 args2 st Hcalm Hwf Hdeep Hns2)
      as (s & vis & logs & Hout & Hs & Hcalls & Hlogs & Hgone).
    exists s, (concat logs).
    split; [destruct Hout as [[Hr _]|[[v Hr] _]]; [left; eexists; exact Hr | right; exists v; exact Hr] |].
    split; [exact Hs |]. split; [exact Hcalls |].
    assert (Hsub : l ∈ listeners s e -> l ∈ listeners st e)
      by (intros Hin; eapply elem_of_sublist; [exact Hin | apply (settles_sub _ _ Hs)]).
    unfold times_called. rewrite (invoked_visit_logs st e2 e args2 vis logs Herr Hrl Hlogs).
    destruct (decide (e2 = e)) as [->|Hne].
    + assert (Hp : vis `prefix_of` listeners st e)
        by (destruct Hout as [[_ ->]|[_ Hp]]; [reflexivity | exact Hp]).
      rewrite count_NoDup
        by (eapply prefix_NoDup; [exact Hp | apply listeners_NoDup, Hwf]).
      destruct (decide (l ∈ vis)) as [Hv|Hv].
      * assert (Hin : l ∈ listeners st e)
          by (destruct Hp as [k ->]; apply elem_of_app; left; exact Hv).
        rewrite (decide_True (P := l ∈ listeners st e)) by exact Hin.
        rewrite decide_False by (apply Hgone; [exact Hv | apply Hol, Hin]). lia.
      * destruct (decide (l ∈ listeners s e)) as [Hin|]; [| simpl; lia].
        rewrite decide_True by (apply Hsub, Hin). simpl. lia.
    + destruct (decide (l ∈ listeners s e)) as [Hin|]; [| simpl; lia].
      rewrite decide_True by (apply Hsub, Hin). simpl. lia.
Qed.

Lemma emit_all_once es :
  forall st,
    calm prog st -> well_formed st -> deep_enough fuel st ->
    (l ∈ listeners st e -> is_once st e l = true) ->
    exists log,
      calls (emit_all prog fuel es st) = calls st ++ log
      /\ (times_called e l log <= (if decide (l ∈ listeners st e) then 1 else 0))%nat.
Proof.
  induction es as [|[e2 args2] es IH]; intros st Hcalm Hwf Hdeep Hol.
  - exists []. split; [simpl; rewrite app_nil_r; reflexivity |]. unfold times_called. simpl. lia.
  - destruct (emit_step st e2 args2 Hcalm Hwf Hdeep Hol)
      as (s & log & Hout & Hs & Hcalls & Hcount).
    destruct (IH s) as (log' & Hcalls' & Hcount').
    + eapply calm_settles; [exact Hcalm | exact Hs].
    + eapply well_formed_settles; [exact Hwf | exact Hs].
    + eapply deep_enough_settles; [exact Hdeep | exact Hs].
    + intros Hin. rewrite (settles_kept _ _ Hs e l Hin). apply Hol.
      eapply elem_of_sublist; [exact Hin | apply (settles_sub _ _ Hs)].
    + exists (log ++ log'). split.
      * simpl emit_all. destruct Hout as [[b ->]|[v ->]];
          rewrite Hcalls', Hcalls, <- app_assoc; reflexivity.
      * rewrite times_called_app. lia.
Qed.
End Once.

(** When the registered listeners leave the emitter alone, a listener
    registered with [once: true] is called at most once for its
    event, by one [emit] and by any sequence of [emit] calls; once it has been
    called, whether it returned or threw, it is gone from [listeners], and
    the log shows the ["removeListener"] notifications of its removal, one
    per listener of that event, right after its call and the calls of the
    ["error"] listeners that its failure caused, before any other listener
    of the event is called. *)
Theorem once_listener_called_once (prog : Program) (fuel : nat) (st : State)
    (e : EventName) (l : Listener) :
  calm prog st -> well_formed st -> deep_enough fuel st ->
  l ∈ listeners st e -> is_once st e l = true ->
  (forall args, exists s,
      (this_emit (emitter prog fuel) e args st = Return true s
       /\ times_called e l (since st (calls s)) = 1%nat
       \/ (exists v, this_emit (emitter prog fuel) e args st = Throw v s)
          /\ (times_called e l (since st (calls s)) <= 1)%nat)
      /\ (times_called e l (since st (calls s)) = 1%nat ->
          (l ∉ listeners s e)
          /\ exists before errs after,
               since st (calls s)
               = before ++ called e args l :: errs ++ removeListener_calls st e l ++ after
               /\ Forall error_call errs
               /\ times_called e l before = 0%nat
               /\ times_called e l after = 0%nat))
  /\ (forall es, (times_called e l (since st (calls (emit_all prog fuel es st))) <= 1)%nat).
Proof.
  intros Hcalm Hwf Hdeep Hl Ho.
  pose proof (once_not_service prog st e l Hcalm Hl Ho) as Hns.
  assert (Herr : e <> EStr "error") by (intros ->; apply Hns; left; reflexivity).
  assert (Hrl : e <> EStr "removeListener") by (intros ->; apply Hns; right; reflexivity).
  split.
  - intros args.
    destruct (emit_post prog fuel e args st Hcalm Hwf Hdeep Hns)
      as (s & vis & logs & Hout & Hs & Hcalls & Hlogs & Hgone).
    exists s. rewrite Hcalls, since_app.
    assert (Hp : vis `prefix_of` listeners st e)
      by (destruct Hout as [[_ ->]|[_ Hp]]; [reflexivity | exact Hp]).
    assert (Hnd : NoDup vis)
      by (eapply prefix_NoDup; [exact Hp | apply listeners_NoDup, Hwf]).
    assert (Hcount : times_called e l (concat logs)
                     = if decide (l ∈ vis) then 1%nat else 0%nat).
    { unfold times_called.
      rewrite (invoked_visit_logs st e e args vis logs Herr Hrl Hlogs).
      rewrite decide_True by reflexivity. apply count_NoDup, Hnd. }
    split.
    + destruct Hout as [[Hr ->]|[Hr _]].
      * left. split.
        -- rewrite Hr. f_equal. apply bool_decide_eq_true.
           destruct (listeners st e); [inversion Hl | simpl; lia].
        -- rewrite Hcount, decide_True by exact Hl. reflexivity.
      * right. split; [exact Hr |]. rewrite Hcount. destruct (decide _); lia.
    + rewrite Hcount. destruct (decide (l ∈ vis)) as [Hv|]; [| discriminate].
      intros _. split; [apply Hgone; assumption |].
      apply (visit_logs_split e l Hns st args vis logs Hnd Hv Ho Hlogs).
  - intros es.
    destruct (emit_all_once prog fuel e l Hns es st Hcalm Hwf Hdeep (fun _ => Ho))
      as (log & Hcalls & Hcount).
    rewrite Hcalls, since_app. destruct (decide _); lia.
Qed.

(** ** More fuel changes nothing *)

Lemma at_least_refl {A : Type} (m : M A) : at_least m m.
Proof. intros st _. reflexivity. Qed.

Lemma at_least_trans {A : Type} (m1 m2 m3 : M A) :
  at_least m1 m2 -> at_least m2 m3 -> at_least m1 m3.
Proof.
  intros H12 H23 st H. rewrite <- (H12 st H). apply H23. rewrite (H12 st H). exact H.
Qed.

Lemma at_least_bind {A B : Type} (m m' : M A) (k k' : A -> M B) :
  at_least m m' -> (forall a, at_least (k a) (k' a)) -> at_least (bind m k) (bind m' k').
Proof.
  intros Hm Hk st H. unfold bind in *.
  destruct (m st) as [a s|v s|] eqn:E; [| | contradiction].
  - rewrite (Hm st) by (rewrite E; discriminate). rewrite E. apply Hk, H.
  - rewrite (Hm st) by (rewrite E; discriminate). rewrite E. reflexivity.
Qed.

Lemma at_least_try_catch {A : Type} (body body' : M A) (handler handler' : Value -> M A) :
  at_least body body' -> (forall v, at_least (handler v) (handler' v)) ->
  at_least (try_catch body handler) (try_catch body' handler').
Proof.
  intros Hb Hh st H. unfold try_catch in *.
  destruct (body st) as [a s|v s|] eqn:E; [| | contradiction].
  - rewrite (Hb st) by (rewrite E; discriminate). rewrite E. reflexivity.
  - rewrite (Hb st) by (rewrite E; discriminate). rewrite E. apply Hh, H.
Qed.

Lemma at_least_try_finally {A : Type} (body body' : M A) (cleanup cleanup' : M unit) :
  at_least body body' -> at_least cleanup cleanup' ->
  at_least (try_finally body cleanup) (try_finally body' cleanup').
Proof.
  intros Hb Hc st H. unfold try_finally in *.
  destruct (body st) as [a s|v s|] eqn:E; [| | contradiction].
  - rewrite (Hb st) by (rewrite E; discriminate). rewrite E.
    apply (at_least_bind cleanup cleanup' (fun _ => ret a) (fun _ => ret a) Hc
             (fun _ => at_least_refl _)), H.
  - rewrite (Hb st) by (rewrite E; discriminate). rewrite E.
    apply (at_least_bind cleanup cleanup' (fun _ => throw v) (fun _ => throw v) Hc
             (fun _ => at_least_refl _)), H.
Qed.

Lemma at_least_for_each {A : Type} (xs : list A) (body body' : A -> M unit) :
  (forall x, at_least (body x) (body' x)) -> at_least (for_each xs body) (for_each xs body').
Proof.
  intros Hb. induction xs as [|x xs IH]; [apply at_least_refl |].
  simpl. apply at_least_bind; [apply Hb | intros _; exact IH].
Qed.

Lemma at_least_for_of_set (loc : nat) (body body' : Listener -> M unit) :
  (forall l, at_least (body l) (body' l)) ->
  forall k k' index, (k <= k')%nat ->
    at_least (for_of_set k loc index body) (for_of_set k' loc index body').
Proof.
  intros Hb. induction k as [|k IH]; intros k' index Hk st H; [contradiction H; reflexivity |].
  destruct k' as [|k']; [lia |]. rewrite for_of_set_S in H. rewrite !for_of_set_S.
  destruct (deref st loc !! index) as [[l|]|]; [| apply IH; [lia | exact H] | reflexivity].
  apply (at_least_bind (body l) (body' l) (fun _ => for_of_set k loc (S index) body)
           (fun _ => for_of_set k' loc (S index) body')); [apply Hb | | exact H].
  intros _. apply IH. lia.
Qed.

Section Fuel.
Variable prog : Program.
Variables this this' : Methods.
Hypothesis Hadd :
  forall e l o, at_least (this_addEventListener this e l o) (this_addEventListener this' e l o).
Hypothesis Hremove :
  forall e l, at_least (this_removeEventListener this e l) (this_removeEventListener this' e l).
Hypothesis HremoveAll :
  forall e, at_least (this_removeAllListeners this e) (this_removeAllListeners this' e).
Hypothesis Hemit : forall e args, at_least (this_emit this e args) (this_emit this' e args).

Lemma at_least_addEventListener e l o :
  at_least (addEventListener this e l o) (addEventListener this' e l o).
Proof.
  intros st. unfold addEventListener.
  destruct (match map_get (_listeners st) e with Some _ => _ | None => _ end) as [loc s].
  destruct (set_has (deref s loc) l); [reflexivity |].
  destruct (_maxListeners s <=? _)%Z; [reflexivity |].
  apply at_least_bind; [apply Hemit | intros _; apply at_least_refl].
Qed.

Lemma at_least_removeEventListener e l :
  at_least (removeEventListener this e l) (removeEventListener this' e l).
Proof.
  intros st. unfold removeEventListener.
  destruct (map_get (_listeners st) e) as [loc|]; [| reflexivity].
  destruct (negb _); [reflexivity |].
  apply at_least_bind; [apply Hemit | intros _; apply at_least_refl].
Qed.

Lemma at_least_removeAllListeners e :
  at_least (removeAllListeners this e) (removeAllListeners this' e).
Proof.
  intros st. unfold removeAllListeners. destruct (falsy e).
  - apply at_least_bind; [| intros _; apply at_least_refl].
    apply at_least_for_each. intros key.
    apply at_least_bind; [apply HremoveAll | intros _; apply at_least_refl].
  - destruct (e ≫= map_get (_listeners st)) as [loc|]; [| reflexivity].
    destruct e as [e|]; [| reflexivity].
    apply at_least_bind; [| intros _; apply at_least_refl].
    apply at_least_for_each. intros x.
    apply at_least_bind; [apply Hemit | intros _; apply at_least_refl].
Qed.

Lemma at_least_run_cmd c : at_least (run_cmd this c) (run_cmd this' c).
Proof.
  destruct c; simpl.
  - apply Hadd.
  - apply at_least_bind; [apply Hremove | intros _; apply at_least_refl].
  - apply at_least_bind; [apply HremoveAll | intros _; apply at_least_refl].
  - apply at_least_bind; [apply Hemit | intros _; apply at_least_refl].
  - apply at_least_refl.
  - apply at_least_refl.
Qed.

Lemma at_least_call_listener e args l :
  at_least (call_listener prog this e args l) (call_listener prog this' e args l).
Proof.
  unfold call_listener. apply at_least_try_finally.
  - apply at_least_try_catch.
    + intros st. unfold apply. apply at_least_for_each, at_least_run_cmd.
    + intros v. apply at_least_bind; [apply Hemit | intros _; apply at_least_refl].
  - intros st. unfold remove_if_once. destruct (once_set _); [| reflexivity].
    apply at_least_bind; [apply Hremove | intros _; apply at_least_refl].
Qed.

Lemma at_least_emit k k' e args :
  (k <= k')%nat -> at_least (emit prog this k e args) (emit prog this' k' e args).
Proof.
  intros Hk st. unfold emit. destruct (map_get (_listeners st) e) as [loc|]; [| reflexivity].
  apply at_least_bind; [| intros _; apply at_least_refl].
  apply at_least_for_of_set; [| exact Hk]. intros l. apply at_least_call_listener.
Qed.
End Fuel.

Lemma emitter_S (prog : Program) (n : nat) :
  (forall e l o, at_least (this_addEventListener (emitter prog n) e l o)
                   (this_addEventListener (emitter prog (S n)) e l o))
  /\ (forall e l, at_least (this_removeEventListener (emitter prog n) e l)
                    (this_removeEventListener (emitter prog (S n)) e l))
  /\ (forall e, at_least (this_removeAllListeners (emitter prog n) e)
                  (this_removeAllListeners (emitter prog (S n)) e))
  /\ (forall e args, at_least (this_emit (emitter prog n) e args)
                       (this_emit (emitter prog (S n)) e args)).
Proof.
  induction n as [|n (Hadd & Hremove & HremoveAll & Hemit)].
  - repeat split; intros; intros st H; contradiction H; reflexivity.
  - split; [| split; [| split]]; intros.
    + apply at_least_addEventListener, Hemit.
    + apply at_least_removeEventListener, Hemit.
    + apply at_least_removeAllListeners; assumption.
    + apply at_least_emit; [assumption .. | lia].
Qed.

(** What a call returns or throws with some fuel, it returns or throws with
    any more. *)
Lemma emitter_fuel (prog : Program) (n m : nat) :
  (n <= m)%nat ->
  (forall e l o, at_least (this_addEventListener (emitter prog n) e l o)
                   (this_addEventListener (emitter prog m) e l o))
  /\ (forall e l, at_least (this_removeEventListener (emitter prog n) e l)
                    (this_removeEventListener (emitter prog m) e l))
  /\ (forall e, at_least (this_removeAllListeners (emitter prog n) e)
                  (this_removeAllListeners (emitter prog m) e))
  /\ (forall e args, at_least (this_emit (emitter prog n) e args)
                       (this_emit (emitter prog m) e args)).
Proof.
  induction 1 as [|m _ (Hadd & Hremove & HremoveAll & Hemit)].
  - repeat split; intros; apply at_least_refl.
  - destruct (emitter_S prog m) as (Hadd' & Hremove' & HremoveAll' & Hemit').
    repeat split; intros; eapply at_least_trans; eauto.
Qed.

(** ** Invariants of the emitter *)

Lemma evolves_refl (st : State) : evolves st st.
Proof. split; [lia | auto]. Qed.

Lemma evolves_trans (st s s' : State) : evolves st s -> evolves s s' -> evolves st s'.
Proof.
  intros [Hl Hm] [Hl' Hm']. split; [lia |].
  intros e loc He Hloc. apply Hm; [apply Hm'; [exact He | lia] | exact Hloc].
Qed.

Lemma map_get_delete (m : list (EventName * nat)) (e e' : EventName) :
  map_get (map_delete m e) e' = if decide (e = e') then None else map_get m e'.
Proof.
  unfold map_delete. induction m as [|[k v] m IH]; [destruct (decide _); reflexivity |].
  rewrite filter_cons. simpl.
  destruct (decide (k ≠ e)) as [Hk|Hk].
  - simpl. destruct (decide (k = e')) as [->|Hne].
    + rewrite decide_False by (intros ->; apply Hk; reflexivity). reflexivity.
    + exact IH.
  - assert (k = e) as -> by (destruct (decide (k = e)); [assumption | contradiction]).
    rewrite IH. destruct (decide (e = e')); reflexivity.
Qed.

Lemma consistent_new : consistent new_EventEmitter.
Proof.
  split.
  - intros e loc H. discriminate.
  - split.
    + intros loc. unfold deref. simpl. constructor.
    + intros e e' loc H. discriminate.
  - intros e m H. unfold new_EventEmitter in H. simpl in H.
    rewrite lookup_empty in H. discriminate.
  - unfold new_EventEmitter, DEFAULT_MAX_LISTENERS. simpl. lia.
Qed.

Lemma consistent_with_calls (c : list Invocation) (st : State) :
  consistent st -> consistent (with_calls c st).
Proof. intros [H1 [H2 H3] H4 H5]. split; [exact H1 | split; [exact H2 | exact H3] | exact H4 | exact H5]. Qed.

Lemma consistent_with_maxListeners (n : Z) (st : State) :
  (0 <= n)%Z -> consistent st -> consistent (with_maxListeners n st).
Proof. intros Hn [H1 [H2 H3] H4 H5]. split; [exact H1 | split; [exact H2 | exact H3] | exact H4 | exact Hn]. Qed.

(** The new empty set that [register] makes for an event without one. *)
Lemma consistent_new_set (st : State) (e : EventName) :
  consistent st -> map_get (_listeners st) e = None ->
  let s := with_listeners (map_set_new (_listeners st) e (length (sets st)))
             (with_sets (sets st ++ [[]]) st) in
  consistent s /\ evolves st s.
Proof.
  intros [Hheap [Hnd Hua] Hmeta Hmax] Hnone s.
  assert (Hget : forall e' loc, map_get (_listeners s) e' = Some loc ->
            map_get (_listeners st) e' = Some loc
            \/ (map_get (_listeners st) e' = None /\ e' = e /\ loc = length (sets st))).
  { intros e' loc. unfold s. simpl. rewrite map_get_app_new.
    destruct (map_get (_listeners st) e') as [v|]; [intros [= <-]; left; reflexivity |].
    destruct (decide (e = e')) as [<-|]; [| discriminate].
    intros [= <-]. right. auto. }
  assert (Hderef : forall loc, (loc < length (sets st))%nat -> deref s loc = deref st loc).
  { intros loc Hloc. unfold deref, s. simpl. rewrite lookup_app_l by exact Hloc. reflexivity. }
  assert (Hls : forall e', is_Some (map_get (_listeners st) e') ->
            listeners s e' = listeners st e').
  { intros e' [loc Hloc]. unfold listeners. unfold s at 1. simpl.
    rewrite map_get_app_new, Hloc. apply f_equal, Hderef, (Hheap e' loc Hloc). }
  split; [split |].
  - intros e' loc H. unfold s. simpl. rewrite length_app. simpl.
    destruct (Hget e' loc H) as [H0|(_ & _ & ->)]; [specialize (Hheap e' loc H0) |]; lia.
  - split.
    + intros loc. destruct (decide (loc < length (sets st))%nat) as [Hlt|Hge].
      * rewrite Hderef by exact Hlt. apply Hnd.
      * unfold deref, s. simpl. rewrite lookup_app_r by lia.
        destruct (loc - length (sets st))%nat as [|k]; simpl; constructor.
    + intros e1 e2 loc H1 H2.
      destruct (Hget e1 loc H1) as [H1'|(_ & He1 & Hl1)],
               (Hget e2 loc H2) as [H2'|(_ & He2 & Hl2)].
      * apply (Hua e1 e2 loc H1' H2').
      * specialize (Hheap e1 loc H1'). lia.
      * specialize (Hheap e2 loc H2'). lia.
      * congruence.
  - intros e' m Hm. change (_listenerMeta s) with (_listenerMeta st) in Hm.
    destruct (Hmeta e' m Hm) as [Hsome Hin]. split.
    + destruct Hsome as [loc Hloc]. exists loc. unfold s. simpl.
      rewrite map_get_app_new, Hloc. reflexivity.
    + intros l Hl. rewrite (Hls e' Hsome). apply Hin, Hl.
  - exact Hmax.
  - split.
    + unfold s. simpl. rewrite length_app. lia.
    + intros e' loc H Hlt. destruct (Hget e' loc H) as [H0|(_ & _ & ->)]; [exact H0 | lia].
Qed.

(** A listener joins the set of its event and, possibly, its meta map. *)
Lemma consistent_add (st : State) (e : EventName) (loc : nat) (l : Listener)
    (meta' : gmap EventName (gmap nat EventListenerMeta)) :
  consistent st ->
  map_get (_listeners st) e = Some loc ->
  set_has (deref st loc) l = false ->
  (forall e', e' <> e -> meta' !! e' = _listenerMeta st !! e') ->
  (forall m' l', meta' !! e = Some m' -> is_Some (m' !! l') ->
     l' = l \/ exists m, _listenerMeta st !! e = Some m /\ is_Some (m !! l')) ->
  let s := with_listenerMeta meta'
             (with_sets (<[loc := set_add (deref st loc) l]> (sets st)) st) in
  consistent s /\ evolves st s.
Proof.
  intros [Hheap [Hnd Hua] Hmeta Hmax] Hloc Hhas Hother Hsame s.
  pose proof (Hheap e loc Hloc) as Hlt.
  assert (Hderef : forall loc',
            deref s loc' = if decide (loc = loc') then deref st loc ++ [Some l]
                           else deref st loc').
  { intros loc'. unfold s.
    change (deref (with_listenerMeta meta' ?x) loc') with (deref x loc').
    rewrite deref_insert by exact Hlt. unfold set_add. rewrite Hhas. reflexivity. }
  assert (Hls : forall e', listeners s e'
                  = if decide (e' = e) then listeners st e ++ [l] else listeners st e').
  { intros e'. unfold listeners. change (_listeners s) with (_listeners st).
    destruct (decide (e' = e)) as [->|Hne].
    - rewrite Hloc, Hderef, decide_True by reflexivity.
      rewrite set_values_app. reflexivity.
    - destruct (map_get (_listeners st) e') as [loc'|] eqn:Hloc'; [| reflexivity].
      rewrite Hderef, decide_False; [reflexivity |].
      intros <-. apply Hne. apply (Hua e' e loc Hloc' Hloc). }
  split; [split |].
  - intros e' loc' H. unfold s. simpl. rewrite length_insert. apply (Hheap e' loc' H).
  - split; [| exact Hua].
    intros loc'. rewrite Hderef. destruct (decide (loc = loc')); [| apply Hnd].
    rewrite set_values_app. apply NoDup_app. split; [apply Hnd |].
    split; [| apply NoDup_singleton].
    intros x Hx Hx'. apply list_elem_of_singleton in Hx'. subst x.
    apply set_has_false in Hhas. apply Hhas, elem_of_set_values, Hx.
  - intros e' m' Hm'. change (_listenerMeta s) with meta' in Hm'.
    change (_listeners s) with (_listeners st). rewrite Hls.
    destruct (decide (e' = e)) as [->|Hne].
    + split; [rewrite Hloc; eauto |].
      intros l' Hl'. destruct (Hsame m' l' Hm' Hl') as [->|(m & Hm & Hl'')].
      * apply elem_of_app. right. left.
      * apply elem_of_app. left. apply (Hmeta e m Hm), Hl''.
    + rewrite (Hother e' Hne) in Hm'. apply (Hmeta e' m' Hm').
  - exact Hmax.
  - split; [unfold s; simpl; rewrite length_insert; lia |].
    intros e' loc' H _. exact H.
Qed.

(** A listener leaves a set that is the set of [e], or of no event any
    more, and the meta map of [e]. *)
Lemma consistent_remove (s : State) (e : EventName) (loc : nat) (l : Listener) :
  consistent s ->
  (forall e', map_get (_listeners s) e' = Some loc -> e' = e) ->
  let s1 := with_sets (<[loc := set_delete (deref s loc) l]> (sets s)) s in
  let s2 :=
    match _listenerMeta s1 !! e with
    | Some metaMap =>
        with_listenerMeta (<[e := delete l metaMap]> (_listenerMeta s1)) s1
    | None => s1
    end in
  consistent s2 /\ evolves s s2.
Proof.
  intros [Hheap [Hnd Hua] Hmeta Hmax] Hown s1 s2.
  assert (Hderef : forall loc',
            deref s1 loc' = if decide (loc = loc') then set_delete (deref s loc) l
                            else deref s loc').
  { intros loc'. destruct (decide (loc < length (sets s))%nat) as [Hlt|Hge].
    - unfold s1. apply deref_insert, Hlt.
    - unfold deref, s1. simpl. rewrite list_insert_ge by lia.
      destruct (decide (loc = loc')) as [<-|]; [| reflexivity].
      rewrite lookup_ge_None_2 by lia. reflexivity. }
  assert (Hs2 : _listeners s2 = _listeners s /\ _maxListeners s2 = _maxListeners s
                /\ (forall loc', deref s2 loc' = deref s1 loc')
                /\ length (sets s2) = length (sets s)).
  { unfold s2. destruct (_listenerMeta s1 !! e); unfold s1; simpl;
      rewrite length_insert; auto. }
  destruct Hs2 as (Hmap & Hmx & Hd2 & Hlen).
  assert (Hls : forall e', listeners s2 e'
                  = if decide (e' = e /\ is_Some (map_get (_listeners s) e))
                    then match map_get (_listeners s) e with
                         | Some loc' =>
                             if decide (loc' = loc)
                             then filter (fun x => x ≠ l) (listeners s e)
                             else listeners s e
                         | None => []
                         end
                    else listeners s e').
  { intros e'. unfold listeners. rewrite Hmap.
    destruct (map_get (_listeners s) e') as [loc'|] eqn:Hloc'.
    - rewrite Hd2, Hderef. destruct (decide (loc = loc')) as [<-|Hne].
      + pose proof (Hown e' Hloc') as ->. rewrite Hloc', decide_True by eauto.
        rewrite decide_True by reflexivity. apply set_values_delete.
      + destruct (decide _) as [[-> _]|]; [| reflexivity].
        rewrite Hloc', decide_False by congruence. reflexivity.
    - destruct (decide _) as [[-> [x Hx]]|]; [congruence | reflexivity]. }
  split; [split |].
  - intros e' loc' H. rewrite Hmap in H. rewrite Hlen. apply (Hheap e' loc' H).
  - split.
    + intros loc'. rewrite Hd2, Hderef. destruct (decide (loc = loc')); [| apply Hnd].
      rewrite set_values_delete. apply NoDup_filter, Hnd.
    + intros e1 e2 loc'. rewrite Hmap. apply Hua.
  - intros e' m' Hm'. rewrite Hmap.
    assert (Hold : exists m, _listenerMeta s !! e' = Some m
                    /\ forall x, is_Some (m' !! x) ->
                         is_Some (m !! x) /\ (e' = e -> x <> l)).
    { unfold s2 in Hm'. change (_listenerMeta s1) with (_listenerMeta s) in Hm'.
      destruct (_listenerMeta s !! e) as [m|] eqn:Hm.
      - simpl in Hm'. destruct (decide (e' = e)) as [->|Hne].
        + rewrite lookup_insert_eq in Hm'. injection Hm' as <-. exists m.
          split; [exact Hm |]. intros x Hx. destruct (decide (x = l)) as [->|Hxl].
          * rewrite lookup_delete_eq in Hx. destruct Hx; discriminate.
          * rewrite lookup_delete_ne in Hx by congruence. auto.
        + rewrite lookup_insert_ne in Hm' by congruence. exists m'.
          split; [exact Hm' |]. intros x Hx. split; [exact Hx | contradiction].
      - exists m'. split; [exact Hm' |]. intros x Hx. split; [exact Hx |].
        intros ->. change (_listenerMeta s1) with (_listenerMeta s) in Hm'. congruence. }
    destruct Hold as (m & Hm & Hkeys). destruct (Hmeta e' m Hm) as [Hsome Hin].
    split; [exact Hsome |]. intros x Hx. destruct (Hkeys x Hx) as [Hx' Hxl].
    specialize (Hin x Hx'). rewrite Hls.
    destruct (decide _) as [[-> _]|]; [| exact Hin].
    destruct (map_get (_listeners s) e) as [loc'|]; [| destruct Hsome; discriminate].
    destruct (decide (loc' = loc)); [| exact Hin].
    apply list_elem_of_filter. split; [apply Hxl; reflexivity | exact Hin].
  - rewrite Hmx. exact Hmax.
  - split; [lia |]. intros e' loc'. rewrite Hmap. auto.
Qed.

(** An event leaves both maps. *)
Lemma consistent_delete (st : State) (e : EventName) :
  consistent st ->
  let s := with_listenerMeta (delete e (_listenerMeta st))
             (with_listeners (map_delete (_listeners st) e) st) in
  consistent s /\ evolves st s.
Proof.
  intros [Hheap [Hnd Hua] Hmeta Hmax] s.
  assert (Hget : forall e' loc, map_get (_listeners s) e' = Some loc ->
            e' <> e /\ map_get (_listeners st) e' = Some loc).
  { intros e' loc. unfold s. simpl. rewrite map_get_delete.
    destruct (decide (e = e')) as [->|Hne]; [discriminate |]. intros H. split; [congruence | exact H]. }
  split; [split |].
  - intros e' loc H. apply (Hheap e' loc), (Hget e' loc H).
  - split; [exact Hnd |].
    intros e1 e2 loc H1 H2. apply (Hua e1 e2 loc); [apply (Hget _ _ H1) | apply (Hget _ _ H2)].
  - intros e' m Hm. unfold s in Hm. simpl in Hm.
    destruct (decide (e = e')) as [->|Hne]; [rewrite lookup_delete_eq in Hm; discriminate |].
    rewrite lookup_delete_ne in Hm by exact Hne.
    destruct (Hmeta e' m Hm) as [Hsome Hin].
    assert (Heq : map_get (_listeners s) e' = map_get (_listeners st) e').
    { unfold s. simpl. rewrite map_get_delete, decide_False by exact Hne. reflexivity. }
    split; [rewrite Heq; exact Hsome |].
    intros l Hl. unfold listeners. rewrite Heq. apply (Hin l Hl).
  - exact Hmax.
  - split; [unfold s; simpl; lia |]. intros e' loc H _. apply (Hget e' loc H).
Qed.

(** *** Computations that keep the invariant *)

Lemma preserves_ret {A : Type} (a : A) : preserves (ret a).
Proof. intros st Hst. split; [exact Hst | apply evolves_refl]. Qed.

Lemma preserves_throw {A : Type} (v : Value) : preserves (@throw A v).
Proof. intros st Hst. split; [exact Hst | apply evolves_refl]. Qed.

Lemma preserves_bind {A B : Type} (m : M A) (k : A -> M B) :
  preserves m -> (forall a, preserves (k a)) -> preserves (bind m k).
Proof.
  intros Hm Hk st Hst. unfold bind. specialize (Hm st Hst).
  destruct (m st) as [a s|v s|]; [| exact Hm | exact I].
  destruct Hm as [Hs He]. specialize (Hk a s Hs).
  destruct (k a s) as [b s'|v s'|]; [| | exact I];
    (split; [apply Hk | eapply evolves_trans; [exact He | apply Hk]]).
Qed.

Lemma preserves_try_catch {A : Type} (body : M A) (handler : Value -> M A) :
  preserves body -> (forall v, preserves (handler v)) -> preserves (try_catch body handler).
Proof.
  intros Hb Hh st Hst. unfold try_catch. specialize (Hb st Hst).
  destruct (body st) as [a s|v s|]; [exact Hb | | exact I].
  destruct Hb as [Hs He]. specialize (Hh v s Hs).
  destruct (handler v s) as [b s'|v' s'|]; [| | exact I];
    (split; [apply Hh | eapply evolves_trans; [exact He | apply Hh]]).
Qed.

Lemma preserves_try_finally {A : Type} (body : M A) (cleanup : M unit) :
  preserves body -> preserves cleanup -> preserves (try_finally body cleanup).
Proof.
  intros Hb Hc st Hst. unfold try_finally. specialize (Hb st Hst).
  destruct (body st) as [a s|v s|]; [| | exact I]; destruct Hb as [Hs He].
  - pose proof (preserves_bind cleanup (fun _ => ret a) Hc (fun _ => preserves_ret a) s Hs) as H.
    destruct ((cleanup ;;; ret a) s) as [b s'|v' s'|]; [| | exact I];
      (split; [apply H | eapply evolves_trans; [exact He | apply H]]).
  - pose proof (preserves_bind cleanup (fun _ => @throw A v) Hc
                  (fun _ => preserves_throw v) s Hs) as H.
    destruct ((cleanup ;;; throw v) s) as [b s'|v' s'|]; [| | exact I];
      (split; [apply H | eapply evolves_trans; [exact He | apply H]]).
Qed.

Lemma preserves_for_each {A : Type} (xs : list A) (body : A -> M unit) :
  (forall x, preserves (body x)) -> preserves (for_each xs body).
Proof.
  intros Hb. induction xs as [|x xs IH]; [apply preserves_ret |].
  simpl. apply preserves_bind; [apply Hb | intros _; exact IH].
Qed.

Lemma preserves_for_of_set (k loc : nat) (body : Listener -> M unit) :
  (forall l, preserves (body l)) -> forall index, preserves (for_of_set k loc index body).
Proof.
  intros Hb. induction k as [|k IH]; intros index st Hst; [exact I |].
  rewrite for_of_set_S. destruct (deref st loc !! index) as [[l|]|].
  - apply (preserves_bind (body l) (fun _ => for_of_set k loc (S index) body));
      [apply Hb | intros _; apply IH | exact Hst].
  - apply IH, Hst.
  - split; [exact Hst | apply evolves_refl].
Qed.

Lemma preserves_set_maxListeners (n : Z) : preserves (set_maxListeners n).
Proof.
  intros st Hst. unfold set_maxListeners. destruct (n <? 0)%Z eqn:Hn.
  - split; [exact Hst | apply evolves_refl].
  - apply Z.ltb_ge in Hn. split; [apply consistent_with_maxListeners; assumption |].
    split; [simpl; lia | intros e loc H _; exact H].
Qed.

(** *** The methods keep the invariant *)

Section Preservation.
Variable prog : Program.
Variable this : Methods.
Hypothesis Hadd : forall e l o, preserves (this_addEventListener this e l o).
Hypothesis Hremove : forall e l, preserves (this_removeEventListener this e l).
Hypothesis HremoveAll : forall e, preserves (this_removeAllListeners this e).
Hypothesis Hemit : forall e args, preserves (this_emit this e args).

Lemma preserves_then (st s : State) {A : Type} (m : M A) :
  consistent s -> evolves st s -> preserves m ->
  match m s with
  | Return _ s' | Throw _ s' => consistent s' /\ evolves st s'
  | OutOfFuel => True
  end.
Proof.
  intros Hs He Hm. specialize (Hm s Hs).
  destruct (m s) as [a s'|v s'|]; [| | exact I];
    (split; [apply Hm | eapply evolves_trans; [exact He | apply Hm]]).
Qed.

Lemma addEventListener_new_set e l o st :
  map_get (_listeners st) e = None ->
  addEventListener this e l o st
  = addEventListener this e l o
      (with_listeners (map_set_new (_listeners st) e (length (sets st)))
         (with_sets (sets st ++ [[]]) st)).
Proof.
  intros Hnone. unfold addEventListener at 1 2. rewrite Hnone.
  change (_listeners (with_listeners ?m _)) with m.
  rewrite map_get_app_new, Hnone, decide_True by reflexivity. reflexivity.
Qed.

Lemma preserves_addEventListener_present e l o loc st :
  consistent st -> map_get (_listeners st) e = Some loc ->
  match addEventListener this e l o st with
  | Return _ s | Throw _ s => consistent s /\ evolves st s
  | OutOfFuel => True
  end.
Proof.
  intros Hst Hloc. unfold addEventListener. rewrite Hloc.
  destruct (set_has (deref st loc) l) eqn:Hhas; [split; [exact Hst | apply evolves_refl] |].
  destruct (_maxListeners st <=? _)%Z; [split; [exact Hst | apply evolves_refl] |].
  cbv zeta.
  set (st2 := with_sets (<[loc := set_add (deref st loc) l]> (sets st)) st).
  change (_listenerMeta st2) with (_listenerMeta st).
  assert (Hnext : forall meta',
            (forall e', e' <> e -> meta' !! e' = _listenerMeta st !! e') ->
            (forall m' l', meta' !! e = Some m' -> is_Some (m' !! l') ->
               l' = l \/ exists m, _listenerMeta st !! e = Some m /\ is_Some (m !! l')) ->
            match (this_emit this (EStr "newListener")
                     [name_value e; VFunction l; options_value o] ;;; ret tt)
                    (with_listenerMeta meta' st2) with
            | Return _ s | Throw _ s => consistent s /\ evolves st s
            | OutOfFuel => True
            end).
  { intros meta' Hother Hsame.
    destruct (consistent_add st e loc l meta' Hst Hloc Hhas Hother Hsame) as [Hs He].
    apply (preserves_then st _ _ Hs He).
    apply preserves_bind; [apply Hemit | intros _; apply preserves_ret]. }
  destruct (_listenerMeta st !! e) as [m|] eqn:Hm; [destruct (m !! l) as [x|] eqn:Hx |].
  - change st2 with (with_listenerMeta (_listenerMeta st) st2). apply Hnext.
    + reflexivity.
    + intros m' l' Hm' Hl'. right. rewrite Hm in Hm'. injection Hm' as <-. eauto.
  - apply Hnext.
    + intros e' Hne. apply lookup_insert_ne. congruence.
    + intros m' l' Hm' Hl'. rewrite lookup_insert_eq in Hm'. injection Hm' as <-.
      destruct (decide (l' = l)) as [->|Hne]; [left; reflexivity | right].
      rewrite lookup_insert_ne in Hl' by congruence. eauto.
  - apply Hnext.
    + intros e' Hne. apply lookup_insert_ne. congruence.
    + intros m' l' Hm' Hl'. rewrite lookup_insert_eq in Hm'. injection Hm' as <-.
      destruct (decide (l' = l)) as [->|Hne]; [left; reflexivity |].
      rewrite lookup_singleton_ne in Hl' by congruence. destruct Hl'; discriminate.
Qed.

Lemma preserves_addEventListener e l o : preserves (addEventListener this e l o).
Proof.
  intros st Hst. destruct (map_get (_listeners st) e) as [loc|] eqn:Hloc.
  - apply (preserves_addEventListener_present e l o loc st Hst Hloc).
  - rewrite (addEventListener_new_set e l o st Hloc).
    destruct (consistent_new_set st e Hst Hloc) as [Hs He]. cbv zeta in Hs, He.
    set (s := with_listeners _ _) in *.
    assert (Hloc' : map_get (_listeners s) e = Some (length (sets st))).
    { unfold s. simpl. rewrite map_get_app_new, Hloc, decide_True by reflexivity.
      reflexivity. }
    pose proof (preserves_addEventListener_present e l o _ s Hs Hloc') as H.
    destruct (addEventListener this e l o s) as [a s'|v s'|]; [| | exact I];
      (split; [apply H | eapply evolves_trans; [exact He | apply H]]).
Qed.

Lemma preserves_removeEventListener e l : preserves (removeEventListener this e l).
Proof.
  intros st Hst. unfold removeEventListener.
  destruct (map_get (_listeners st) e) as [loc|] eqn:Hloc;
    [| split; [exact Hst | apply evolves_refl]].
  destruct (negb _); [split; [exact Hst | apply evolves_refl] |].
  unfold bind. pose proof (Hemit (EStr "removeListener") [name_value e; VFunction l] st Hst) as H.
  destruct (this_emit this _ _ st) as [b s|v s|]; [| exact H | exact I].
  destruct H as [Hs He].
  destruct (consistent_remove s e loc l Hs) as [Hs2 He2].
  - intros e' He'. destruct Hst as [Hheap [_ Hua] _ _].
    apply (Hua e' e loc); [| exact Hloc].
    apply (proj2 He e' loc He'), (Hheap e loc Hloc).
  - cbv zeta in Hs2, He2. split; [exact Hs2 | eapply evolves_trans; [exact He | exact He2]].
Qed.

Lemma preserves_removeAllListeners e : preserves (removeAllListeners this e).
Proof.
  intros st Hst. unfold removeAllListeners. destruct (falsy e).
  - apply (preserves_bind _ _); [| intros _; apply preserves_ret | exact Hst].
    apply preserves_for_each. intros key.
    apply preserves_bind; [apply HremoveAll | intros _; apply preserves_ret].
  - destruct (e ≫= map_get (_listeners st)) as [loc|];
      [| split; [exact Hst | apply evolves_refl]].
    destruct e as [e|]; [| split; [exact Hst | apply evolves_refl]].
    destruct (consistent_delete st e Hst) as [Hs He]. cbv zeta in Hs, He.
    apply (preserves_then st _ _ Hs He).
    apply preserves_bind; [| intros _; apply preserves_ret].
    apply preserves_for_each. intros x.
    apply preserves_bind; [apply Hemit | intros _; apply preserves_ret].
Qed.

Lemma preserves_run_cmd c : preserves (run_cmd this c).
Proof.
  destruct c; simpl.
  - apply Hadd.
  - apply preserves_bind; [apply Hremove | intros _; apply preserves_ret].
  - apply preserves_bind; [apply HremoveAll | intros _; apply preserves_ret].
  - apply preserves_bind; [apply Hemit | intros _; apply preserves_ret].
  - apply preserves_set_maxListeners.
  - apply preserves_throw.
Qed.

Lemma preserves_apply l args : preserves (apply prog this l args).
Proof.
  intros st Hst. unfold apply.
  apply (preserves_then st (with_calls _ st)).
  - apply consistent_with_calls, Hst.
  - split; [simpl; lia | intros e loc H _; exact H].
  - apply preserves_for_each, preserves_run_cmd.
Qed.

Lemma preserves_remove_if_once e l : preserves (remove_if_once this e l).
Proof.
  intros st Hst. unfold remove_if_once. destruct (once_set _).
  - apply (preserves_bind _ _); [apply Hremove | intros _; apply preserves_ret | exact Hst].
  - split; [exact Hst | apply evolves_refl].
Qed.

Lemma preserves_call_listener e args l : preserves (call_listener prog this e args l).
Proof.
  unfold call_listener. apply preserves_try_finally; [| apply preserves_remove_if_once].
  apply preserves_try_catch; [apply preserves_apply |].
  intros v. apply preserves_bind; [apply Hemit | intros _; apply preserves_ret].
Qed.

Lemma preserves_emit k e args : preserves (emit prog this k e args).
Proof.
  intros st Hst. unfold emit. destruct (map_get (_listeners st) e) as [loc|].
  - apply (preserves_bind _ _); [| intros _; apply preserves_ret | exact Hst].
    apply preserves_for_of_set. intros l. apply preserves_call_listener.
  - destruct (decide _); [| split; [exact Hst | apply evolves_refl]].
    destruct args as [|[] ?]; (split; [exact Hst | apply evolves_refl]).
Qed.
End Preservation.

Lemma emitter_preserves (prog : Program) (fuel : nat) :
  (forall e l o, preserves (this_addEventListener (emitter prog fuel) e l o))
  /\ (forall e l, preserves (this_removeEventListener (emitter prog fuel) e l))
  /\ (forall e, preserves (this_removeAllListeners (emitter prog fuel) e))
  /\ (forall e args, preserves (this_emit (emitter prog fuel) e args)).
Proof.
  induction fuel as [|fuel (Hadd & Hremove & HremoveAll & Hemit)].
  - repeat split; intros; intros st Hst; exact I.
  - split; [| split; [| split]]; intros.
    + apply preserves_addEventListener, Hemit.
    + apply preserves_removeEventListener, Hemit.
    + apply preserves_removeAllListeners; assumption.
    + apply preserves_emit; assumption.
Qed.

(** Every reachable emitter is consistent: its sets hold no listener twice,
    no two events share a set, and the meta data are within the listeners. *)
Lemma reachable_consistent (prog : Program) (st : State) :
  reachable prog st -> consistent st.
Proof.
  induction 1 as [|st s fuel c _ IH Hr|st s fuel c v _ IH Hr]; [apply consistent_new | |].
  - destruct (emitter_preserves prog fuel) as (Hadd & Hremove & HremoveAll & Hemit).
    pose proof (preserves_run_cmd (emitter prog fuel) Hadd Hremove HremoveAll Hemit c st IH) as H.
    rewrite Hr in H. apply H.
  - destruct (emitter_preserves prog fuel) as (Hadd & Hremove & HremoveAll & Hemit).
    pose proof (preserves_run_cmd (emitter prog fuel) Hadd Hremove HremoveAll Hemit c st IH) as H.
    rewrite Hr in H. apply H.
Qed.

Lemma reachable_well_formed (prog : Program) (st : State) :
  reachable prog st -> well_formed st.
Proof. intros H. apply (consistent_sets _ (reachable_consistent prog st H)). Qed.

(** ** Registering *)

Lemma listeners_size (st : State) (e : EventName) :
  length (listeners st e)
  = match map_get (_listeners st) e with
    | Some loc => set_size (deref st loc)
    | None => 0%nat
    end.
Proof. unfold listeners. destruct (map_get (_listeners st) e); reflexivity. Qed.

(** The first half of [register]: the set of the event, created if need be,
    and the two checks on it. *)
Lemma addEventListener_checks (this : Methods) (st : State) (e : EventName) (l : Listener)
    (o : option EventListenerOptions) :
  (l ∈ listeners st e -> addEventListener this e l o st = Return tt st)
  /\ (l ∉ listeners st e ->
      (_maxListeners st <= Z.of_nat (length (listeners st e)))%Z ->
      addEventListener this e l o st
      = Throw (VError TooManyListeners)
          match map_get (_listeners st) e with
          | Some _ => st
          | None =>
              with_listeners (map_set_new (_listeners st) e (length (sets st)))
                (with_sets (sets st ++ [[]]) st)
          end).
Proof.
  unfold addEventListener. rewrite listeners_size. unfold listeners.
  destruct (map_get (_listeners st) e) as [loc|] eqn:Hloc.
  - split.
    + intros Hl. apply elem_of_set_values, set_has_true in Hl. rewrite Hl. reflexivity.
    + intros Hl Hcap. rewrite elem_of_set_values, <- set_has_false in Hl. rewrite Hl.
      apply Z.leb_le in Hcap. rewrite Hcap. reflexivity.
  - set (s0 := with_listeners (map_set_new (_listeners st) e (length (sets st)))
                 (with_sets (sets st ++ [[]]) st)).
    assert (Hd : deref s0 (length (sets st)) = []).
    { unfold deref, s0. simpl. rewrite lookup_app_r, Nat.sub_diag by lia. reflexivity. }
    rewrite Hd. split.
    + intros Hl. inversion Hl.
    + intros _ Hcap. unfold set_size. simpl length.
      change (set_has [] l) with false. cbv iota.
      change (_maxListeners s0) with (_maxListeners st).
      apply Z.leb_le in Hcap. rewrite Hcap. reflexivity.
Qed.

Lemma listeners_new_set (st : State) (e e' : EventName) :
  in_heap st -> map_get (_listeners st) e = None ->
  listeners (with_listeners (map_set_new (_listeners st) e (length (sets st)))
               (with_sets (sets st ++ [[]]) st)) e'
  = listeners st e'.
Proof.
  intros Hheap Hnone. unfold listeners, deref. simpl. rewrite map_get_app_new.
  destruct (map_get (_listeners st) e') as [loc|] eqn:Hloc.
  - rewrite lookup_app_l by apply (Hheap e' loc Hloc). reflexivity.
  - destruct (decide (e = e')) as [<-|]; [| reflexivity].
    rewrite lookup_app_r, Nat.sub_diag by lia. reflexivity.
Qed.

Lemma listeners_add (st : State) (e e' : EventName) (loc : nat) (l : Listener)
    (meta' : gmap EventName (gmap nat EventListenerMeta)) :
  in_heap st -> unaliased st ->
  map_get (_listeners st) e = Some loc ->
  set_has (deref st loc) l = false ->
  listeners (with_listenerMeta meta'
               (with_sets (<[loc := set_add (deref st loc) l]> (sets st)) st)) e'
  = if decide (e' = e) then listeners st e ++ [l] else listeners st e'.
Proof.
  intros Hheap Hua Hloc Hhas. unfold listeners.
  change (_listeners (with_listenerMeta meta' _)) with (_listeners st).
  assert (Hderef : forall loc',
            deref (with_listenerMeta meta'
                     (with_sets (<[loc := set_add (deref st loc) l]> (sets st)) st)) loc'
            = if decide (loc = loc') then deref st loc ++ [Some l] else deref st loc').
  { intros loc'.
    change (deref (with_listenerMeta meta' ?x) loc') with (deref x loc').
    rewrite deref_insert by apply (Hheap e loc Hloc).
    unfold set_add. rewrite Hhas. reflexivity. }
  destruct (decide (e' = e)) as [->|Hne].
  - rewrite Hloc, Hderef, decide_True by reflexivity. apply set_values_app.
  - destruct (map_get (_listeners st) e') as [loc'|] eqn:Hloc'; [| reflexivity].
    rewrite Hderef, decide_False; [reflexivity |].
    intros <-. apply Hne, (Hua e' e loc Hloc' Hloc).
Qed.

(** The second half of [register], below the cap: the listener joins the
    listeners of the event, no other event changes, and the
    ["newListener"] notification is made from there. *)
Lemma addEventListener_registers (this : Methods) (st : State) (e : EventName)
    (l : Listener) (o : option EventListenerOptions) :
  consistent st ->
  l ∉ listeners st e ->
  (Z.of_nat (length (listeners st e)) < _maxListeners st)%Z ->
  exists s,
    addEventListener this e l o st
    = (this_emit this (EStr "newListener")
         [name_value e; VFunction l; options_value o] ;;; ret tt) s
    /\ listeners s e = listeners st e ++ [l]
    /\ (forall e', e' <> e -> listeners s e' = listeners st e')
    /\ (forall e', e' <> e -> map_get (_listeners s) e' = map_get (_listeners st) e')
    /\ calls s = calls st
    /\ _maxListeners s = _maxListeners st.
Proof.
  assert (Hpresent : forall st loc,
    consistent st -> map_get (_listeners st) e = Some loc ->
    l ∉ listeners st e ->
    (Z.of_nat (length (listeners st e)) < _maxListeners st)%Z ->
    exists s,
      addEventListener this e l o st
      = (this_emit this (EStr "newListener")
           [name_value e; VFunction l; options_value o] ;;; ret tt) s
      /\ listeners s e = listeners st e ++ [l]
      /\ (forall e', e' <> e -> listeners s e' = listeners st e')
      /\ (forall e', map_get (_listeners s) e' = map_get (_listeners st) e')
      /\ calls s = calls st
      /\ _maxListeners s = _maxListeners st).
  { clear st. intros st loc [Hheap [_ Hua] _ _] Hloc Hl Hcap.
    rewrite listeners_size, Hloc in Hcap. unfold listeners in Hl. rewrite Hloc in Hl.
    rewrite elem_of_set_values, <- set_has_false in Hl. apply Z.leb_gt in Hcap.
    unfold addEventListener. rewrite Hloc, Hl, Hcap. cbv zeta.
    set (st2 := with_sets (<[loc := set_add (deref st loc) l]> (sets st)) st).
    assert (Hgoal : forall meta',
      exists s,
        (this_emit this (EStr "newListener")
           [name_value e; VFunction l; options_value o] ;;; ret tt)
          (with_listenerMeta meta' st2)
        = (this_emit this (EStr "newListener")
             [name_value e; VFunction l; options_value o] ;;; ret tt) s
        /\ listeners s e = listeners st e ++ [l]
        /\ (forall e', e' <> e -> listeners s e' = listeners st e')
        /\ (forall e', map_get (_listeners s) e' = map_get (_listeners st) e')
        /\ calls s = calls st
        /\ _maxListeners s = _maxListeners st).
    { intros meta'. exists (with_listenerMeta meta' st2). split; [reflexivity |].
      split; [| split; [| split; [| split]; reflexivity]].
      - unfold st2. rewrite (listeners_add st e e loc l meta' Hheap Hua Hloc Hl).
        rewrite decide_True by reflexivity. reflexivity.
      - intros e' Hne. unfold st2.
        rewrite (listeners_add st e e' loc l meta' Hheap Hua Hloc Hl).
        rewrite decide_False by exact Hne. reflexivity. }
    change (_listenerMeta st2) with (_listenerMeta st).
    destruct (_listenerMeta st !! e) as [m|]; [destruct (m !! l) |]; apply Hgoal. }
  intros Hst Hl Hcap. destruct (map_get (_listeners st) e) as [loc|] eqn:Hloc.
  - destruct (Hpresent st loc Hst Hloc Hl Hcap) as (s & Hr & Hle & Hother & Hmap & Hrest).
    exists s. split; [exact Hr |]. split; [exact Hle |]. split; [exact Hother |].
    split; [intros e' _; apply Hmap | exact Hrest].
  - rewrite (addEventListener_new_set this e l o st Hloc).
    destruct (consistent_new_set st e Hst Hloc) as [Hs _]. cbv zeta in Hs.
    set (s1 := with_listeners _ _) in *.
    assert (Hls : forall e', listeners s1 e' = listeners st e')
      by (intros e'; apply listeners_new_set; [apply Hst | exact Hloc]).
    destruct (Hpresent s1 (length (sets st)) Hs)
      as (s & Hr & Hle & Hother & Hmap & Hcalls & Hmax).
    + unfold s1. simpl. rewrite map_get_app_new, Hloc, decide_True by reflexivity.
      reflexivity.
    + rewrite Hls. exact Hl.
    + rewrite Hls. exact Hcap.
    + exists s. split; [exact Hr |]. rewrite <- (Hls e). split; [exact Hle |].
      split; [intros e' Hne; rewrite <- (Hls e'); apply Hother, Hne |].
      split; [| split; assumption].
      intros e' Hne. rewrite Hmap. unfold s1. simpl.
      rewrite map_get_app_new, decide_False by congruence.
      destruct (map_get (_listeners st) e'); reflexivity.
Qed.

(** C5 (as amended).  In a consistent emitter, hence in every reachable one:
    [register] throws [TooManyListeners] at its own check exactly when the
    listener is not yet registered for the event and the event already has
    [maxListeners] listeners or more; a duplicate registration returns
    without any check of the count; below the cap the listener joins the
    listeners of the event, whatever the other events hold, and what
    [register] then returns or throws is what the ["newListener"]
    notification returns or throws: with no listener of ["newListener"] it
    returns. *)
Theorem register_TooManyListeners (prog : Program) (n : nat) (st : State)
    (e : EventName) (l : Listener) (o : option EventListenerOptions) :
  consistent st ->
  let r := this_addEventListener (emitter prog (S (S n))) e l o st in
  let count := Z.of_nat (length (listeners st e)) in
  (l ∈ listeners st e -> r = Return tt st)
  /\ (l ∉ listeners st e -> (_maxListeners st <= count)%Z ->
      exists s, r = Throw (VError TooManyListeners) s
        /\ forall e', listeners s e' = listeners st e')
  /\ (l ∉ listeners st e -> (count < _maxListeners st)%Z ->
      exists s,
        listeners s e = listeners st e ++ [l]
        /\ (forall e', e' <> e -> listeners s e' = listeners st e')
        /\ r = (this_emit (emitter prog (S n)) (EStr "newListener")
                  [name_value e; VFunction l; options_value o] ;;; ret tt) s
        /\ (map_get (_listeners st) (EStr "newListener") = None ->
            e <> EStr "newListener" -> r = Return tt s)).
Proof.
  intros Hst r count. unfold r, count.
  change (this_addEventListener (emitter prog (S (S n))))
    with (addEventListener (emitter prog (S n))).
  destruct (addEventListener_checks (emitter prog (S n)) st e l o) as (Hdup & Hcap).
  split; [exact Hdup |]. split.
  - intros Hl Hc. eexists. split; [apply (Hcap Hl Hc) |]. intros e'.
    destruct (map_get (_listeners st) e) eqn:Hloc; [reflexivity |].
    apply listeners_new_set; [apply Hst | exact Hloc].
  - intros Hl Hc.
    destruct (addEventListener_registers (emitter prog (S n)) st e l o Hst Hl Hc)
      as (s & Hr & Hle & Hother & Hmap & _ & _).
    exists s. split; [exact Hle |]. split; [exact Hother |]. split; [exact Hr |].
    intros Hn Hne. rewrite Hr. unfold bind.
    change (this_emit (emitter prog (S n))) with (emit prog (emitter prog n) n).
    unfold emit. rewrite (Hmap (EStr "newListener")), Hn by congruence.
    rewrite decide_False by discriminate. reflexivity.
Qed.

Lemma listenerCount_S (fuel : nat) (st : State) (eventName : option EventName)
    (listener : option Listener) :
  listenerCount (S fuel) st eventName listener
  = if falsy eventName then
      foldl
        (fun count eventName =>
           c ← count; n ← listenerCount fuel st (Some eventName) None; Some (c + n)%nat)
        (Some 0%nat) (eventNames st)
    else
      match eventName ≫= map_get (_listeners st) with
      | None => Some 0%nat
      | Some listenerSet =>
          match listener with
          | Some listener =>
              Some (if set_has (deref st listenerSet) listener then 1 else 0)%nat
          | None => Some (set_size (deref st listenerSet))
          end
      end.
Proof. reflexivity. Qed.

(** C9 (as amended).  With [maxListeners] at 0, [register] for an event that
    has no entry throws [TooManyListeners] and leaves the empty set that it
    created: the event is among [eventNames], it has no listener and no meta
    entry, and [listenerCount] of it is 0 unless it is the empty string. *)
Theorem failed_register_leaves_empty_set (prog : Program) (n : nat) (st : State)
    (e : EventName) (l : Listener) (o : option EventListenerOptions) :
  map_get (_listeners st) e = None ->
  _maxListeners st = 0%Z ->
  exists s,
    this_addEventListener (emitter prog (S n)) e l o st = Throw (VError TooManyListeners) s
    /\ eventNames s = eventNames st ++ [e]
    /\ listeners s e = []
    /\ _listenerMeta s = _listenerMeta st
    /\ (falsy (Some e) = false ->
        forall k, listenerCount (S k) s (Some e) None = Some 0%nat).
Proof.
  intros Hnone Hmax.
  change (this_addEventListener (emitter prog (S n))) with (addEventListener (emitter prog n)).
  destruct (addEventListener_checks (emitter prog n) st e l o) as (_ & Hcap).
  assert (Hl : listeners st e = []) by (unfold listeners; rewrite Hnone; reflexivity).
  rewrite Hnone in Hcap. eexists. split.
  { apply Hcap; [rewrite Hl; apply not_elem_of_nil | rewrite Hl, Hmax; simpl; lia]. }
  set (s := with_listeners _ _).
  assert (Hget : map_get (_listeners s) e = Some (length (sets st))).
  { unfold s. simpl. rewrite map_get_app_new, Hnone, decide_True by reflexivity.
    reflexivity. }
  assert (Hd : deref s (length (sets st)) = []).
  { unfold deref, s. simpl. rewrite lookup_app_r, Nat.sub_diag by lia. reflexivity. }
  split; [unfold eventNames, s, map_keys, map_set_new; simpl; rewrite fmap_app; reflexivity |].
  split; [unfold listeners; rewrite Hget, Hd; reflexivity |]. split; [reflexivity |].
  intros Hf k. rewrite listenerCount_S, Hf.
  change (Some e ≫= map_get (_listeners s)) with (map_get (_listeners s) e).
  rewrite Hget. unfold set_size. rewrite Hd. reflexivity.
Qed.

(** ** The empty string as an event name *)

(** To [!eventName] the empty string is no name at all. *)
Lemma empty_name_is_no_name (prog : Program) (fuel : nat) (st : State)
    (listener : option Listener) :
  this_removeAllListeners (emitter prog fuel) (Some (EStr "")) st
  = this_removeAllListeners (emitter prog fuel) None st
  /\ listenerCount fuel st (Some (EStr "")) listener = listenerCount fuel st None listener.
Proof. destruct fuel; split; reflexivity. Qed.

Lemma count_all_None (g : EventName -> option nat) (names : list EventName) :
  forall acc,
    acc = None \/ (exists e, e ∈ names /\ g e = None) ->
    foldl (fun count e => c ← count; n ← g e; Some (c + n)%nat) acc names = None.
Proof.
  induction names as [|e names IH]; intros acc [Hacc|(e' & He' & Hg)].
  - exact Hacc.
  - inversion He'.
  - simpl. apply IH. left. rewrite Hacc. reflexivity.
  - simpl. apply elem_of_cons in He' as [->|He'].
    + apply IH. left. rewrite Hg. destruct acc; reflexivity.
    + apply IH. right. exists e'. split; assumption.
Qed.

(** Once an event named by the empty string has an entry, counting all
    listeners recurses on that name for ever. *)
Lemma listenerCount_empty_name (st : State) (eventName : option EventName)
    (listener : option Listener) :
  EStr "" ∈ eventNames st -> falsy eventName = true ->
  forall fuel, listenerCount fuel st eventName listener = None.
Proof.
  intros Hin Hf fuel. revert eventName listener Hf.
  induction fuel as [|fuel IH]; intros eventName listener Hf; [reflexivity |].
  rewrite listenerCount_S, Hf. apply count_all_None. right.
  exists (EStr ""). split; [exact Hin |]. apply IH. reflexivity.
Qed.

(** ** The claims on given emitters *)

(** The three cases of the theorem: a duplicate, a listener refused at a cap of 0, and a first listener below the cap. *)
Lemma register_TooManyListeners_witness :
  (consistent (two_listeners no_op)
   /\ 1%nat ∈ listeners (two_listeners no_op) (EStr "a")
   /\ this_addEventListener (emitter no_op 2) (EStr "a") 1%nat None (two_listeners no_op)
      = Return tt (two_listeners no_op))
  /\ (consistent capped
      /\ (1%nat ∉ listeners capped (EStr "a"))
      /\ (_maxListeners capped <= Z.of_nat (length (listeners capped (EStr "a"))))%Z
      /\ exists s,
           this_addEventListener (emitter no_op 2) (EStr "a") 1%nat None capped
           = Throw (VError TooManyListeners) s)
  /\ (consistent new_EventEmitter
      /\ (1%nat ∉ listeners new_EventEmitter (EStr "a"))
      /\ (Z.of_nat (length (listeners new_EventEmitter (EStr "a")))
          < _maxListeners new_EventEmitter)%Z
      /\ exists s,
           this_addEventListener (emitter no_op 2) (EStr "a") 1%nat None new_EventEmitter
           = Return tt s
           /\ listeners s (EStr "a") = [1%nat]).
Proof.
  split; [| split].
  - assert (Hc : consistent (two_listeners no_op)).
    { apply (reachable_consistent no_op).
      apply (reachable_return no_op
               (after (this_addEventListener (emitter no_op 3) (EStr "a") 1%nat None)
                  new_EventEmitter)
               _ 3 (CallAddEventListener (EStr "a") 2%nat None));
        [| vm_compute; reflexivity].
      apply (reachable_return no_op new_EventEmitter _ 3
               (CallAddEventListener (EStr "a") 1%nat None));
        [apply reachable_new | vm_compute; reflexivity]. }
    assert (H : 1%nat ∈ listeners (two_listeners no_op) (EStr "a")) by by_computation.
    split; [exact Hc |]. split; [exact H |].
    exact (proj1 (register_TooManyListeners no_op 0 (two_listeners no_op) (EStr "a")
                    1%nat None Hc) H).
  - assert (Hc : consistent capped).
    { apply (reachable_consistent no_op).
      apply (reachable_return no_op new_EventEmitter _ 3 (SetMaxListeners 0));
        [apply reachable_new | vm_compute; reflexivity]. }
    assert (H : 1%nat ∉ listeners capped (EStr "a")) by by_computation.
    assert (Hcap : (_maxListeners capped <= Z.of_nat (length (listeners capped (EStr "a"))))%Z)
      by (vm_compute; discriminate).
    split; [exact Hc |]. split; [exact H |]. split; [exact Hcap |].
    destruct (proj1 (proj2 (register_TooManyListeners no_op 0 capped (EStr "a") 1%nat None
                              Hc)) H Hcap) as (s & Hr & _).
    exists s. exact Hr.
  - pose proof consistent_new as Hc.
    assert (H : 1%nat ∉ listeners new_EventEmitter (EStr "a")) by by_computation.
    assert (Hcap : (Z.of_nat (length (listeners new_EventEmitter (EStr "a")))
                    < _maxListeners new_EventEmitter)%Z) by reflexivity.
    split; [exact Hc |]. split; [exact H |]. split; [exact Hcap |].
    destruct (proj2 (proj2 (register_TooManyListeners no_op 0 new_EventEmitter (EStr "a")
                              1%nat None Hc)) H Hcap) as (s & Hle & _ & _ & Hr).
    exists s. split; [apply Hr; [reflexivity | discriminate] | exact Hle].
Defined.

(** C5, as stated, fails: with [maxListeners] at 1 and one listener of
    ["full"], registering [f7] for ["newListener"], which has no listener at
    all, throws [TooManyListeners]: the notification calls [f7], whose own
    [register("full", f2)] fails, and nobody listens to ["error"]. *)
Lemma register_rethrows_TooManyListeners :
  let st := one_full cascading in
  (7%nat ∉ listeners st (EStr "newListener"))
  /\ (Z.of_nat (length (listeners st (EStr "newListener"))) < _maxListeners st)%Z
  /\ exists s,
       this_addEventListener (emitter cascading 9) (EStr "newListener") 7%nat None st
       = Throw (VError TooManyListeners) s.
Proof.
  intros st. split; [by_computation |]. split; [reflexivity |].
  eexists. vm_compute. reflexivity.
Qed.

(** C7.  The removal of a listener registered once is attempted by [emit]
    and missed, twice over.  The listener is unregistered after its call,
    not before: [f1], registered once for ["a"], emits ["b"], whose listener
    emits ["a"] again, and the one [emit("a")] calls [f1] twice.  And the
    removal is dropped when its notification throws: with a listener of
    ["removeListener"] that throws, [f1] is still registered after its call
    and the next [emit("a")] calls it again. *)
Lemma once_listener_called_twice :
  (let st := once_and_other reentrant in
   is_once st (EStr "a") 1%nat = true
   /\ exists s,
        this_emit (emitter reentrant 9) (EStr "a") [] st = Return true s
        /\ times_called (EStr "a") 1%nat (since st (calls s)) = 2%nat)
  /\ (let st := once_and_notified throwing in
      is_once st (EStr "a") 1%nat = true
      /\ (exists s,
            this_emit (emitter throwing 9) (EStr "a") [] st
            = Throw (VError (PlainError "boom")) s
            /\ times_called (EStr "a") 1%nat (since st (calls s)) = 1%nat
            /\ listeners s (EStr "a") = [1%nat])
      /\ times_called (EStr "a") 1%nat
           (since st (calls (emit_all throwing 9 [(EStr "a", []); (EStr "a", [])] st)))
         = 2%nat).
Proof.
  split; intros st.
  - split; [vm_compute; reflexivity |]. eexists. split; vm_compute; reflexivity.
  - split; [vm_compute; reflexivity |]. split; [| vm_compute; reflexivity].
    eexists. repeat split; vm_compute; reflexivity.
Qed.

(** The theorem on a new emitter whose cap is 0. *)
Lemma failed_register_leaves_empty_set_witness :
  map_get (_listeners capped) (EStr "a") = None /\ _maxListeners capped = 0%Z
  /\ exists s,
       this_addEventListener (emitter no_op 1) (EStr "a") 1%nat None capped
       = Throw (VError TooManyListeners) s
       /\ eventNames s = eventNames capped ++ [EStr "a"]
       /\ listeners s (EStr "a") = []
       /\ _listenerMeta s = _listenerMeta capped
       /\ (falsy (Some (EStr "a")) = false ->
           forall k, listenerCount (S k) s (Some (EStr "a")) None = Some 0%nat).
Proof.
  split; [reflexivity |]. split; [reflexivity |].
  exact (failed_register_leaves_empty_set no_op 0 capped (EStr "a") 1%nat None
           eq_refl eq_refl).
Defined.

(** C9, as stated, fails.  [register("newListener", f7)] on an emitter with
    no entry for that event fails with [TooManyListeners], thrown by the
    [register] that [f7] makes when it is notified, and leaves [f7]
    registered: the count of the event is 1.  And after
    [register("", f1)] has failed at the cap of 0, [listenerCount("")] never
    returns. *)
Lemma failed_register_leaves_listener :
  (let st := one_full cascading in
   map_get (_listeners st) (EStr "newListener") = None
   /\ exists s,
        this_addEventListener (emitter cascading 9) (EStr "newListener") 7%nat None st
        = Throw (VError TooManyListeners) s
        /\ EStr "newListener" ∈ eventNames s
        /\ listenerCount 9 s (Some (EStr "newListener")) None = Some 1%nat)
  /\ (map_get (_listeners capped) (EStr "") = None
      /\ exists s,
           this_addEventListener (emitter no_op 9) (EStr "") 1%nat None capped
           = Throw (VError TooManyListeners) s
           /\ EStr "" ∈ eventNames s
           /\ forall k, listenerCount k s (Some (EStr "")) None = None).
Proof.
  split.
  - intros st. split; [reflexivity |]. eexists.
    split; [vm_compute; reflexivity |]. split; [by_computation | vm_compute; reflexivity].
  - split; [reflexivity |]. eexists.
    split; [vm_compute; reflexivity |]. split; [by_computation |].
    intros k. apply listenerCount_empty_name; [by_computation | reflexivity].
Qed.

(** An ["error"] event with no entry in the map of listeners throws. *)
Lemma emit_error_without_entry (prog : Program) (n : nat) (st : State) (args : list Value) :
  map_get (_listeners st) (EStr "error") = None ->
  this_emit (emitter prog (S n)) (EStr "error") args st
  = Throw (match args with VError e :: _ => VError e | _ => VError UnhandledError end) st.
Proof.
  intros Hn. change (this_emit (emitter prog (S n))) with (emit prog (emitter prog n) n).
  unfold emit. rewrite Hn, decide_True by reflexivity.
  destruct args as [|[] ?]; reflexivity.
Qed.

(** C2, on the failing input: after [register("error", f1)] and
    [unregister("error", f1)] no listener is registered for ["error"], and
    [emit("error", ...)] returns false, whatever its arguments, because the
    emptied set is still in the map. *)
Theorem emit_error_into_emptied_set :
  let st := emptied (EStr "error") in
  listeners st (EStr "error") = []
  /\ (forall args, this_emit (emitter no_op 9) (EStr "error") args st = Return false st)
  /\ this_emit (emitter no_op 9) (EStr "error") [VError (PlainError "x")] st
     = Return false st.
Proof.
  intros st. split; [reflexivity |]. split; [intros args |]; vm_compute; reflexivity.
Qed.

(** C3, on the failing inputs: an event whose only listener has been
    unregistered, or has run once, or was refused at the cap, is still listed
    by [eventNames]. *)
Theorem eventNames_lists_emptied_event :
  (let st := emptied (EStr "a") in
   listeners st (EStr "a") = [] /\ eventNames st = [EStr "a"])
  /\ (let st := after (this_emit (emitter no_op 9) (EStr "a") []) (once_and_other no_op) in
      listeners st (EStr "a") = [] /\ eventNames st = [EStr "a"; EStr "b"])
  /\ (let st := after (this_addEventListener (emitter no_op 9) (EStr "a") 1%nat None) capped in
      listeners st (EStr "a") = [] /\ eventNames st = [EStr "a"]).
Proof. repeat split; vm_compute; reflexivity. Qed.

(** C4, on the failing inputs.  At a cap of 0, [register("a", f1)] throws
    after it has put an empty set for ["a"] in the map of listeners and
    before it touches the map of meta data.  And when a listener of
    ["removeListener"] unregisters every listener of ["a"] and registers
    [f1] again, [unregister("a", f1)] deletes [f1] from the set it read
    before the notification and from the meta map of the new set: [f1] stays
    registered without meta data. *)
Theorem maps_out_of_step :
  (exists s,
     this_addEventListener (emitter no_op 9) (EStr "a") 1%nat None capped
     = Throw (VError TooManyListeners) s
     /\ map_has (_listeners s) (EStr "a") = true
     /\ _listenerMeta s !! EStr "a" = None)
  /\ (exists s,
        this_removeEventListener (emitter re_registering 9) (EStr "a") 1%nat
          (notified re_registering)
        = Return true s
        /\ listeners s (EStr "a") = [1%nat]
        /\ _listenerMeta s !! EStr "a" = Some ∅).
Proof. split; eexists; repeat split; vm_compute; reflexivity. Qed.

(** C8, on the failing input: after [register("a", f1)] and
    [unregister("a", f1)] the emitter has no listener, and [unregisterAll()]
    returns true. *)
Theorem removeAllListeners_true_without_listeners :
  let st := emptied (EStr "a") in
  eventNames st = [EStr "a"]
  /\ listeners st (EStr "a") = []
  /\ listenerCount 9 st None None = Some 0%nat
  /\ exists s, this_removeAllListeners (emitter no_op 9) None st = Return true s.
Proof.
  intros st. repeat split; try (vm_compute; reflexivity).
  eexists. vm_compute. reflexivity.
Qed.

(** C10, on the failing input: after [register("", f1)] neither
    [listenerCount("")] nor [listenerCount()] returns, and neither do
    [unregisterAll("")] and [unregisterAll()], however deep the calls may
    nest. *)
Theorem empty_name_never_returns (prog : Program) (fuel : nat) :
  listeners unnamed (EStr "") = [1%nat]
  /\ listenerCount fuel unnamed (Some (EStr "")) None = None
  /\ listenerCount fuel unnamed None None = None
  /\ this_removeAllListeners (emitter prog fuel) (Some (EStr "")) unnamed = OutOfFuel
  /\ this_removeAllListeners (emitter prog fuel) None unnamed = OutOfFuel.
Proof.
  assert (Hin : EStr "" ∈ eventNames unnamed) by by_computation.
  split; [reflexivity |].
  split; [apply listenerCount_empty_name; [exact Hin | reflexivity] |].
  split; [apply listenerCount_empty_name; [exact Hin | reflexivity] |].
  assert (Hrm : this_removeAllListeners (emitter prog fuel) (Some (EStr "")) unnamed
                = OutOfFuel).
  { induction fuel as [|k IH]; [reflexivity |].
    change (this_removeAllListeners (emitter prog (S k)))
      with (removeAllListeners (emitter prog k)).
    unfold removeAllListeners. change (falsy (Some (EStr ""))) with true. cbv iota.
    change (rev (map_keys (_listeners unnamed))) with [EStr ""].
    simpl for_each. unfold bind at 1 2 3. rewrite IH. reflexivity. }
  split; [exact Hrm |].
  rewrite <- (proj1 (empty_name_is_no_name prog fuel unnamed None)). exact Hrm.
Qed.

(** * Further properties of the class *)

(** ** Counting listeners *)

Lemma map_get_None_keys (m : list (EventName * nat)) (e : EventName) :
  map_get m e = None <-> e ∉ map_keys m.
Proof.
  induction m as [|[k v] m IH]; simpl.
  - split; [intros _ H; inversion H | reflexivity].
  - destruct (decide (k = e)) as [->|Hne].
    + split; [discriminate | intros H; contradiction H; left].
    + rewrite IH. split.
      * intros H Hin. apply elem_of_cons in Hin as [Heq|Hin]; [congruence | exact (H Hin)].
      * intros H Hin. apply H. right. exact Hin.
Qed.

Lemma truthy_names (names : list EventName) :
  EStr "" ∉ names -> Forall (fun e => falsy (Some e) = false) names.
Proof.
  intros H. apply Forall_forall. intros e He. destruct e as [s|n]; [| reflexivity].
  simpl. apply bool_decide_eq_false. intros ->. exact (H He).
Qed.

Lemma listenerCount_name (fuel : nat) (st : State) (e : EventName) :
  falsy (Some e) = false ->
  listenerCount (S fuel) st (Some e) None = Some (length (listeners st e)).
Proof.
  intros He. rewrite listenerCount_S, He. simpl. unfold listeners.
  destruct (map_get (_listeners st) e); reflexivity.
Qed.

Lemma listenerCount_fold (fuel : nat) (st : State) (names : list EventName) :
  Forall (fun e => falsy (Some e) = false) names ->
  forall acc,
    foldl
      (fun count eventName =>
         c ← count; n ← listenerCount (S fuel) st (Some eventName) None; Some (c + n)%nat)
      (Some acc) names
    = Some (acc + sum_list ((fun e => length (listeners st e)) <$> names))%nat.
Proof.
  induction 1 as [|e names He _ IH]; intros acc.
  - simpl. f_equal. lia.
  - cbn [foldl fmap list_fmap sum_list sum_list_with].
    rewrite (listenerCount_name fuel st e He). cbn [mbind option_bind].
    rewrite IH. f_equal. simpl. lia.
Qed.

(** X9.  Counting with [listenerCount]: with an event name and a listener, 1 or 0
    as the listener is registered for the event or not; with an event name,
    the number of its listeners, 0 for an event that is not known; with no
    event name, or the empty string for one, the sum over [eventNames],
    provided no event is named by the empty string. *)
Theorem listenerCount_counts (fuel : nat) (st : State) :
  (forall e l, falsy (Some e) = false ->
     listenerCount (S fuel) st (Some e) (Some l)
     = Some (if bool_decide (l ∈ listeners st e) then 1 else 0)%nat)
  /\ (forall e, falsy (Some e) = false ->
        listenerCount (S fuel) st (Some e) None = Some (length (listeners st e)))
  /\ (EStr "" ∉ eventNames st ->
      forall eventName l, falsy eventName = true ->
        listenerCount (S (S fuel)) st eventName l
        = Some (sum_list ((fun e => length (listeners st e)) <$> eventNames st))).
Proof.
  split; [| split].
  - intros e l He. rewrite listenerCount_S, He. simpl. unfold listeners.
    destruct (map_get (_listeners st) e) as [loc|].
    + f_equal. unfold set_has.
      destruct (bool_decide (Some l ∈ deref st loc)) eqn:E.
      * apply bool_decide_eq_true in E. apply elem_of_set_values in E.
        rewrite bool_decide_eq_true_2 by exact E. reflexivity.
      * apply bool_decide_eq_false in E.
        rewrite bool_decide_eq_false_2; [reflexivity |].
        intros H. apply E, elem_of_set_values, H.
    + rewrite bool_decide_eq_false_2; [reflexivity |]. intros H. inversion H.
  - intros e He. apply listenerCount_name, He.
  - intros Hno eventName l He. rewrite listenerCount_S, He.
    rewrite (listenerCount_fold fuel st (eventNames st) (truthy_names _ Hno) 0). reflexivity.
Qed.

(** ** The cap on listeners *)

(** X1.  Setting [maxListeners]: a negative value is refused with an [Error] and
    nothing changes; any other value, 0 included, is stored and read back,
    no listener is dropped, and from then on a listener that is new to an
    event with that many listeners or more is refused. *)
Theorem maxListeners_set (prog : Program) (k : nat) (n : Z) (st : State) :
  ((n < 0)%Z ->
   set_maxListeners n st
   = Throw (VError (PlainError "Tried to set negative value for maxListeners.")) st)
  /\ ((0 <= n)%Z ->
      exists s,
        set_maxListeners n st = Return tt s
        /\ maxListeners s = n
        /\ eventNames s = eventNames st
        /\ (forall e, listeners s e = listeners st e)
        /\ forall e l o,
             l ∉ listeners st e -> (n <= Z.of_nat (length (listeners st e)))%Z ->
             exists s', this_addEventListener (emitter prog (S k)) e l o s
                        = Throw (VError TooManyListeners) s').
Proof.
  unfold set_maxListeners. split; intros Hn.
  - apply Z.ltb_lt in Hn. rewrite Hn. reflexivity.
  - apply Z.ltb_ge in Hn. rewrite Hn. eexists. split; [reflexivity |].
    split; [reflexivity |]. split; [reflexivity |]. split; [reflexivity |].
    intros e l o Hl Hcap.
    change (this_addEventListener (emitter prog (S k))) with (addEventListener (emitter prog k)).
    eexists. apply addEventListener_checks; [exact Hl | exact Hcap].
Qed.

(** ** What holds of every emitter that a client can reach *)

(** X10.  However the listeners call back into the emitter, [listeners] never
    lists a listener twice. *)
Theorem listeners_never_twice (prog : Program) (st : State) (e : EventName) :
  reachable prog st -> NoDup (listeners st e).
Proof.
  intros H. apply listeners_NoDup. exact (proj1 (reachable_well_formed prog st H)).
Qed.

(** X11.  However the listeners call back into the emitter, no options are kept
    for a listener that is not registered: where [addEventListener] has
    found the listener absent from the set, it finds it absent from the
    meta map, and the branch that keeps older options is never taken. *)
Theorem options_only_of_registered (prog : Program) (st : State) (e : EventName)
    (l : Listener) :
  reachable prog st -> l ∉ listeners st e ->
  _listenerMeta st !! e ≫= (fun metaMap => metaMap !! l) = None.
Proof.
  intros H Hl. apply reachable_consistent in H.
  destruct (_listenerMeta st !! e) as [metaMap|] eqn:Hm; [| reflexivity].
  simpl. destruct (metaMap !! l) as [meta|] eqn:Hml; [| reflexivity].
  exfalso. apply Hl.
  exact (proj2 (consistent_meta st H e metaMap Hm) l (mk_is_Some _ _ Hml)).
Qed.

(** X12.  However the listeners call back into the emitter, [maxListeners] is
    never negative. *)
Theorem maxListeners_never_negative (prog : Program) (st : State) :
  reachable prog st -> (0 <= maxListeners st)%Z.
Proof. intros H. exact (consistent_max st (reachable_consistent prog st H)). Qed.

(** ** Unregistering *)

Lemma filter_absent (l : nat) (ls : list nat) :
  l ∉ ls -> filter (fun x => x ≠ l) ls = ls.
Proof.
  induction ls as [|x ls IH]; intros H; [reflexivity |].
  rewrite filter_cons. destruct (decide (x ≠ l)) as [_|Heq].
  - f_equal. apply IH. intros Hin. apply H. right. exact Hin.
  - contradiction H. apply dec_stable in Heq. subst x. left.
Qed.

Lemma calls_unregister_now (e : EventName) (l : Listener) (st : State) :
  calls (unregister_now e l st) = calls st.
Proof.
  unfold unregister_now. destruct (map_get (_listeners st) e); [| reflexivity].
  simpl. destruct (_listenerMeta st !! e); reflexivity.
Qed.

Lemma _maxListeners_unregister_now (e : EventName) (l : Listener) (st : State) :
  _maxListeners (unregister_now e l st) = _maxListeners st.
Proof.
  unfold unregister_now. destruct (map_get (_listeners st) e); [| reflexivity].
  simpl. destruct (_listenerMeta st !! e); reflexivity.
Qed.

Lemma listeners_unregister_now_at (e e' : EventName) (l : Listener) (st : State) :
  unaliased st ->
  listeners (unregister_now e l st) e'
  = if decide (e' = e) then filter (fun x => x ≠ l) (listeners st e) else listeners st e'.
Proof.
  intros Hun. rewrite listeners_unregister_now.
  destruct (decide (e' = e)) as [->|Hne].
  - rewrite decide_True by reflexivity. reflexivity.
  - destruct (decide (map_get (_listeners st) e = map_get (_listeners st) e')) as [Heq|_];
      [| reflexivity].
    unfold listeners. destruct (map_get (_listeners st) e') as [loc|] eqn:He'; [| reflexivity].
    contradiction Hne. symmetry. exact (Hun e e' loc Heq He').
Qed.

(** The call that [removeEventListener] makes to a listener set that it
    finds, when the listeners of ["removeListener"] are bystanders. *)
Lemma removeEventListener_hit (prog : Program) (fuel : nat) (st : State)
    (e : EventName) (l : Listener) :
  deep_enough fuel st -> bystanders prog st (EStr "removeListener") ->
  l ∈ listeners st e ->
  this_removeEventListener (emitter prog fuel) e l st
  = Return true
      (unregister_now e l (notify (EStr "removeListener") [name_value e; VFunction l] st)).
Proof.
  intros Hdeep Hby Hl. destruct (deep_enough_S fuel st Hdeep) as (n & -> & Hn).
  change (this_removeEventListener (emitter prog (S (S (S n)))))
    with (removeEventListener (emitter prog (S (S n)))).
  unfold listeners in Hl. destruct (map_get (_listeners st) e) as [loc|] eqn:He;
    [| inversion Hl].
  apply (removeEventListener_calm prog (S n) e l loc st); [exact Hby | | exact He |].
  - intros loc'. specialize (Hn loc'). lia.
  - apply elem_of_set_values, Hl.
Qed.

Lemma removeEventListener_miss (this : Methods) (st : State) (e : EventName) (l : Listener) :
  l ∉ listeners st e -> removeEventListener this e l st = Return false st.
Proof.
  intros Hl. unfold removeEventListener, listeners in *.
  destruct (map_get (_listeners st) e) as [loc|]; [| reflexivity].
  assert (H : set_has (deref st loc) l = false).
  { apply set_has_false. intros H. apply Hl, elem_of_set_values, H. }
  rewrite H. reflexivity.
Qed.

(** X6.  Unregistering, when the listeners of ["removeListener"] are bystanders:
    [removeEventListener] returns whether the listener was registered for the
    event; if it was not, or the event is not known, nothing changes and
    nobody is called; if it was, every listener of ["removeListener"] has
    been called once, in order, with the event name and the listener, the
    listener (and its options) are gone, and the other listeners of the
    event and of every other event are as before, in the same order. *)
Theorem removeEventListener_result (prog : Program) (fuel : nat) (st : State)
    (e : EventName) (l : Listener) :
  well_formed st -> deep_enough fuel st -> bystanders prog st (EStr "removeListener") ->
  exists s,
    this_removeEventListener (emitter prog fuel) e l st
    = Return (bool_decide (l ∈ listeners st e)) s
    /\ (forall e', listeners s e'
                   = if decide (e' = e) then filter (fun x => x ≠ l) (listeners st e)
                     else listeners st e')
    /\ calls s
       = calls st ++ (if bool_decide (l ∈ listeners st e)
                      then removeListener_calls st e l else [])
    /\ (l ∈ listeners st e -> is_once s e l = false)
    /\ (l ∉ listeners st e -> s = st).
Proof.
  intros [_ Hun] Hdeep Hby. destruct (decide (l ∈ listeners st e)) as [Hl|Hl].
  - rewrite (bool_decide_eq_true_2 _ Hl).
    eexists. split; [apply removeEventListener_hit; assumption |].
    split; [| split; [| split]].
    + intros e'. rewrite listeners_unregister_now_at by exact Hun.
      unfold notify. rewrite !listeners_with_calls. reflexivity.
    + rewrite calls_unregister_now. reflexivity.
    + intros _. rewrite is_once_unregister_now. apply decide_True.
      split; [reflexivity |]. split; [reflexivity |].
      simpl. unfold listeners in Hl.
      destruct (map_get (_listeners st) e); [eauto | inversion Hl].
    + intros H. contradiction.
  - rewrite (bool_decide_eq_false_2 _ Hl).
    destruct (deep_enough_S fuel st Hdeep) as (n & -> & _).
    exists st. split; [apply removeEventListener_miss, Hl |].
    split; [| split; [| split]].
    + intros e'. destruct (decide (e' = e)) as [->|_]; [| reflexivity].
      symmetry. apply filter_absent, Hl.
    + symmetry. apply app_nil_r.
    + intros H. contradiction.
    + reflexivity.
Qed.

(** ** Registering *)

Lemma is_once_with_sets (h : list (list (option nat))) (st : State) (e : EventName)
    (l : Listener) :
  is_once (with_sets h st) e l = is_once st e l.
Proof. reflexivity. Qed.

Lemma map_keys_app_new (m : list (EventName * nat)) (e : EventName) (loc : nat) :
  map_keys (map_set_new m e loc) = map_keys m ++ [e].
Proof. unfold map_keys, map_set_new. rewrite fmap_app. reflexivity. Qed.

(** [register] below the cap, up to its notification: what is stored. *)
Lemma addEventListener_stores (this : Methods) (st : State) (e : EventName)
    (l : Listener) (o : option EventListenerOptions) :
  consistent st ->
  l ∉ listeners st e ->
  (Z.of_nat (length (listeners st e)) < _maxListeners st)%Z ->
  exists s,
    addEventListener this e l o st
    = (this_emit this (EStr "newListener")
         [name_value e; VFunction l; options_value o] ;;; ret tt) s
    /\ listeners s e = listeners st e ++ [l]
    /\ (forall e', e' <> e -> listeners s e' = listeners st e')
    /\ (forall e' l', e' <> e \/ l' <> l -> is_once s e' l' = is_once st e' l')
    /\ is_once s e l = once_option o
    /\ (forall loc, (length (deref s loc) <= S (length (deref st loc)))%nat)
    /\ calls s = calls st
    /\ _maxListeners s = _maxListeners st
    /\ eventNames s
       = (if map_has (_listeners st) e then eventNames st else eventNames st ++ [e]).
Proof.
  assert (Hpresent : forall st loc,
    consistent st -> map_get (_listeners st) e = Some loc ->
    l ∉ listeners st e ->
    (Z.of_nat (length (listeners st e)) < _maxListeners st)%Z ->
    exists s,
      addEventListener this e l o st
      = (this_emit this (EStr "newListener")
           [name_value e; VFunction l; options_value o] ;;; ret tt) s
      /\ listeners s e = listeners st e ++ [l]
      /\ (forall e', e' <> e -> listeners s e' = listeners st e')
      /\ (forall e' l', e' <> e \/ l' <> l -> is_once s e' l' = is_once st e' l')
      /\ is_once s e l = once_option o
      /\ (forall loc, (length (deref s loc) <= S (length (deref st loc)))%nat)
      /\ calls s = calls st
      /\ _maxListeners s = _maxListeners st
      /\ eventNames s = eventNames st).
  { clear st. intros st loc [Hheap [_ Hua] Hmeta _] Hloc Hl Hcap.
    assert (Hl' := Hl).
    rewrite listeners_size, Hloc in Hcap. unfold listeners in Hl. rewrite Hloc in Hl.
    rewrite elem_of_set_values, <- set_has_false in Hl. apply Z.leb_gt in Hcap.
    unfold addEventListener. rewrite Hloc, Hl, Hcap. cbv zeta.
    set (st2 := with_sets (<[loc := set_add (deref st loc) l]> (sets st)) st).
    assert (Hgoal : forall meta',
      meta' !! e ≫= (fun metaMap => metaMap !! l) = Some {| options := o |} ->
      (forall e' l', e' <> e \/ l' <> l ->
         meta' !! e' ≫= (fun metaMap => metaMap !! l')
         = _listenerMeta st !! e' ≫= (fun metaMap => metaMap !! l')) ->
      exists s,
        (this_emit this (EStr "newListener")
           [name_value e; VFunction l; options_value o] ;;; ret tt)
          (with_listenerMeta meta' st2)
        = (this_emit this (EStr "newListener")
             [name_value e; VFunction l; options_value o] ;;; ret tt) s
        /\ listeners s e = listeners st e ++ [l]
        /\ (forall e', e' <> e -> listeners s e' = listeners st e')
        /\ (forall e' l', e' <> e \/ l' <> l -> is_once s e' l' = is_once st e' l')
        /\ is_once s e l = once_option o
        /\ (forall loc, (length (deref s loc) <= S (length (deref st loc)))%nat)
        /\ calls s = calls st
        /\ _maxListeners s = _maxListeners st
        /\ eventNames s = eventNames st).
    { intros meta' Hnew Hold. exists (with_listenerMeta meta' st2). split; [reflexivity |].
      split; [| split; [| split; [| split; [| split; [| split; [| split]; reflexivity]]]]].
      - unfold st2. rewrite (listeners_add st e e loc l meta' Hheap Hua Hloc Hl).
        rewrite decide_True by reflexivity. reflexivity.
      - intros e' Hne. unfold st2.
        rewrite (listeners_add st e e' loc l meta' Hheap Hua Hloc Hl).
        rewrite decide_False by exact Hne. reflexivity.
      - intros e' l' Hne. unfold is_once. simpl. rewrite (Hold e' l' Hne). reflexivity.
      - unfold is_once. simpl. rewrite Hnew. reflexivity.
      - intros loc'.
        change (deref (with_listenerMeta meta' st2) loc') with (deref st2 loc').
        unfold st2. rewrite deref_insert by apply (Hheap e loc Hloc).
        destruct (decide (loc = loc')) as [<-|]; [| lia].
        unfold set_add. rewrite Hl, length_app. simpl. lia. }
    change (_listenerMeta st2) with (_listenerMeta st).
    destruct (_listenerMeta st !! e) as [m|] eqn:Hm; [destruct (m !! l) as [x|] eqn:Hml |].
    - exfalso. apply Hl'.
      exact (proj2 (Hmeta e m Hm) l (mk_is_Some _ _ Hml)).
    - apply Hgoal.
      + rewrite lookup_insert_eq. simpl. rewrite lookup_insert_eq. reflexivity.
      + intros e' l' Hne. destruct (decide (e' = e)) as [->|Hne'].
        * rewrite lookup_insert_eq, Hm. simpl.
          destruct Hne as [Hne|Hne]; [contradiction |].
          rewrite lookup_insert_ne by congruence. reflexivity.
        * rewrite lookup_insert_ne by congruence. reflexivity.
    - apply Hgoal.
      + rewrite lookup_insert_eq. simpl. rewrite lookup_singleton_eq. reflexivity.
      + intros e' l' Hne. destruct (decide (e' = e)) as [->|Hne'].
        * rewrite lookup_insert_eq, Hm. simpl.
          destruct Hne as [Hne|Hne]; [contradiction |].
          rewrite lookup_singleton_ne by congruence. reflexivity.
        * rewrite lookup_insert_ne by congruence. reflexivity. }
  intros Hst Hl Hcap. unfold map_has.
  destruct (map_get (_listeners st) e) as [loc|] eqn:Hloc.
  - exact (Hpresent st loc Hst Hloc Hl Hcap).
  - rewrite (addEventListener_new_set this e l o st Hloc).
    destruct (consistent_new_set st e Hst Hloc) as [Hs _]. cbv zeta in Hs.
    set (s1 := with_listeners _ _) in *.
    assert (Hls : forall e', listeners s1 e' = listeners st e')
      by (intros e'; apply listeners_new_set; [apply Hst | exact Hloc]).
    assert (Hd : forall loc', deref s1 loc' = deref st loc').
    { intros loc'. unfold deref, s1. simpl.
      destruct (decide (loc' < length (sets st))%nat) as [Hlt|Hge].
      - rewrite lookup_app_l by exact Hlt. reflexivity.
      - rewrite (lookup_ge_None_2 (sets st)) by lia.
        destruct (decide (loc' = length (sets st))) as [->|Hne].
        + rewrite lookup_app_r, Nat.sub_diag by lia. reflexivity.
        + rewrite lookup_ge_None_2; [reflexivity |]. rewrite length_app. simpl. lia. }
    destruct (Hpresent s1 (length (sets st)) Hs)
      as (s & Hr & Hle & Hother & Honce & Hnew & Hlen & Hcalls & Hmax & Hnames).
    + unfold s1. simpl. rewrite map_get_app_new, Hloc, decide_True by reflexivity.
      reflexivity.
    + rewrite Hls. exact Hl.
    + rewrite Hls. exact Hcap.
    + exists s. split; [exact Hr |]. rewrite <- (Hls e). split; [exact Hle |].
      split; [intros e' Hne; rewrite <- (Hls e'); apply Hother, Hne |].
      split; [exact Honce |]. split; [exact Hnew |].
      split; [intros loc'; rewrite <- (Hd loc'); apply Hlen |].
      split; [exact Hcalls |]. split; [exact Hmax |].
      rewrite Hnames. unfold eventNames, s1. simpl. apply map_keys_app_new.
Qed.

(** [register] below the cap, when the listeners of ["newListener"] are
    bystanders. *)
Lemma addEventListener_bystanders (prog : Program) (fuel : nat) (st : State)
    (e : EventName) (l : Listener) (o : option EventListenerOptions) :
  consistent st -> deep_enough fuel st ->
  l ∉ listeners st e ->
  (Z.of_nat (length (listeners st e)) < _maxListeners st)%Z ->
  bystanders prog st (EStr "newListener") ->
  (e = EStr "newListener" -> quiet prog l /\ once_option o = false) ->
  exists s,
    this_addEventListener (emitter prog (S fuel)) e l o st = Return tt s
    /\ listeners s e = listeners st e ++ [l]
    /\ (forall e', e' <> e -> listeners s e' = listeners st e')
    /\ (forall e' l', e' <> e \/ l' <> l -> is_once s e' l' = is_once st e' l')
    /\ is_once s e l = once_option o
    /\ (forall loc, (length (deref s loc) <= S (length (deref st loc)))%nat)
    /\ calls s = calls st ++ newListener_calls s e l o
    /\ _maxListeners s = _maxListeners st
    /\ eventNames s
       = (if map_has (_listeners st) e then eventNames st else eventNames st ++ [e]).
Proof.
  intros Hst Hdeep Hl Hcap Hby Hself.
  destruct (deep_enough_S fuel st Hdeep) as (n & -> & Hn).
  change (this_addEventListener (emitter prog (S (S (S (S n))))))
    with (addEventListener (emitter prog (S (S (S n))))).
  destruct (addEventListener_stores (emitter prog (S (S (S n)))) st e l o Hst Hl Hcap)
    as (s & -> & Hle & Hother & Honce & Hnew & Hlen & Hcalls & Hmax & Hnames).
  change (this_emit (emitter prog (S (S (S n)))))
    with (emit prog (emitter prog (S (S n))) (S (S n))).
  unfold bind.
  rewrite (emit_quiet prog (emitter prog (S (S n))) (S (S n)) (EStr "newListener")
             [name_value e; VFunction l; options_value o] s).
  - exists (notify (EStr "newListener") [name_value e; VFunction l; options_value o] s).
    split; [reflexivity |]. unfold notify, newListener_calls.
    rewrite !listeners_with_calls.
    split; [exact Hle |].
    split; [intros e' Hne; rewrite listeners_with_calls; apply Hother, Hne |].
    split; [intros e' l' Hne; rewrite is_once_with_calls; apply Honce, Hne |].
    split; [rewrite is_once_with_calls; exact Hnew |].
    split; [intros loc; rewrite deref_with_calls; apply Hlen |].
    split; [simpl; rewrite Hcalls; reflexivity |].
    split; [exact Hmax | exact Hnames].
  - intros r Hr. destruct (decide (e = EStr "newListener")) as [->|Hne].
    + rewrite Hle in Hr. apply elem_of_app in Hr as [Hr|Hr].
      * destruct (Hby r Hr) as [Hq Ho]. split; [exact Hq |].
        rewrite Honce; [exact Ho |]. right. intros ->. exact (Hl Hr).
      * apply list_elem_of_singleton in Hr as ->. destruct (Hself eq_refl) as [Hq Ho].
        split; [exact Hq |]. rewrite Hnew. exact Ho.
    + rewrite Hother in Hr by congruence. destruct (Hby r Hr) as [Hq Ho].
      split; [exact Hq |]. rewrite Honce; [exact Ho |]. left. congruence.
  - intros loc. specialize (Hlen loc). specialize (Hn loc). lia.
  - left. discriminate.
Qed.

(** X3.  Registering a listener that is new to its event, below the cap, when the
    listeners of ["newListener"] are bystanders: the listener is appended to
    the listeners of the event with the options it was registered with, no
    other registration changes, and every listener of ["newListener"] is
    called once, in order, with the event name, the listener and the
    options.  The listener is stored before the notification is made: one
    that is registered for ["newListener"] itself is among the listeners
    notified, the last of them, of its own registration. *)
Theorem register_notifies (prog : Program) (fuel : nat) (st : State)
    (e : EventName) (l : Listener) (o : option EventListenerOptions) :
  consistent st -> deep_enough fuel st ->
  l ∉ listeners st e ->
  (Z.of_nat (length (listeners st e)) < maxListeners st)%Z ->
  bystanders prog st (EStr "newListener") ->
  (e = EStr "newListener" -> quiet prog l /\ once_option o = false) ->
  exists s,
    this_addEventListener (emitter prog (S fuel)) e l o st = Return tt s
    /\ listeners s e = listeners st e ++ [l]
    /\ (forall e', e' <> e -> listeners s e' = listeners st e')
    /\ is_once s e l = once_option o
    /\ (forall e' l', e' <> e \/ l' <> l -> is_once s e' l' = is_once st e' l')
    /\ eventNames s
       = (if bool_decide (e ∈ eventNames st) then eventNames st else eventNames st ++ [e])
    /\ calls s
       = calls st ++
         (called (EStr "newListener") [name_value e; VFunction l; options_value o]
            <$> (if decide (e = EStr "newListener")
                 then listeners st (EStr "newListener") ++ [l]
                 else listeners st (EStr "newListener"))).
Proof.
  intros Hst Hdeep Hl Hcap Hby Hself.
  destruct (addEventListener_bystanders prog fuel st e l o Hst Hdeep Hl Hcap Hby Hself)
    as (s & Hr & Hle & Hother & Honce & Hnew & _ & Hcalls & _ & Hnames).
  exists s. split; [exact Hr |]. split; [exact Hle |]. split; [exact Hother |].
  split; [exact Hnew |]. split; [exact Honce |]. split.
  { rewrite Hnames. unfold map_has.
    destruct (map_get (_listeners st) e) as [loc|] eqn:Hloc.
    - rewrite bool_decide_eq_true_2; [reflexivity |].
      destruct (decide (e ∈ eventNames st)) as [H|H]; [exact H |].
      apply map_get_None_keys in H. congruence.
    - rewrite bool_decide_eq_false_2; [reflexivity |]. apply map_get_None_keys, Hloc. }
  rewrite Hcalls. unfold newListener_calls.
  destruct (decide (e = EStr "newListener")) as [->|Hne].
  - rewrite Hle. reflexivity.
  - rewrite Hother by congruence. reflexivity.
Qed.

Lemma filter_snoc_absent (l : nat) (ls : list nat) :
  l ∉ ls -> filter (fun x => x ≠ l) (ls ++ [l]) = ls.
Proof.
  intros H. rewrite filter_app, (filter_absent l ls H).
  rewrite filter_cons, decide_False by (intros Hne; apply Hne; reflexivity).
  rewrite filter_nil. apply app_nil_r.
Qed.

(** X4.  Registering a listener and unregistering it again, for an event other
    than ["newListener"] and ["removeListener"] whose listeners are
    bystanders: both calls succeed, and afterwards every event has the
    listeners it had, in the same order and with the same options, and the
    cap is the same; in between, the listeners of ["newListener"] and then
    those of ["removeListener"] have each been called once. *)
Theorem register_then_unregister (prog : Program) (fuel : nat) (st : State)
    (e : EventName) (l : Listener) (o : option EventListenerOptions) :
  consistent st -> deep_enough fuel st ->
  bystanders prog st (EStr "newListener") ->
  bystanders prog st (EStr "removeListener") ->
  e <> EStr "newListener" -> e <> EStr "removeListener" ->
  l ∉ listeners st e ->
  (Z.of_nat (length (listeners st e)) < maxListeners st)%Z ->
  exists s1 s2,
    this_addEventListener (emitter prog (S fuel)) e l o st = Return tt s1
    /\ this_removeEventListener (emitter prog (S fuel)) e l s1 = Return true s2
    /\ (forall e', listeners s2 e' = listeners st e')
    /\ (forall e' l', is_once s2 e' l' = is_once st e' l')
    /\ maxListeners s2 = maxListeners st
    /\ calls s2 = calls st ++ newListener_calls st e l o ++ removeListener_calls st e l.
Proof.
  intros Hst Hdeep Hnl Hrl Hne1 Hne2 Hl Hcap.
  destruct (addEventListener_bystanders prog fuel st e l o Hst Hdeep Hl Hcap Hnl)
    as (s1 & Hr & Hle & Hother & Honce & Hnew & Hlen & Hcalls & Hmax & _);
    [intros ->; contradiction |].
  assert (Hs1 : consistent s1).
  { pose proof (proj1 (emitter_preserves prog (S fuel)) e l o st Hst) as H.
    rewrite Hr in H. apply H. }
  assert (Hdeep1 : deep_enough (S fuel) s1).
  { intros loc. specialize (Hlen loc). specialize (Hdeep loc). lia. }
  assert (Hrl1 : bystanders prog s1 (EStr "removeListener")).
  { intros r Hin. rewrite Hother in Hin by congruence. destruct (Hrl r Hin) as [Hq Ho].
    split; [exact Hq |]. rewrite Honce; [exact Ho |]. left. congruence. }
  assert (Hl1 : l ∈ listeners s1 e).
  { rewrite Hle. apply elem_of_app. right. left. }
  exists s1. eexists. split; [exact Hr |].
  split; [apply removeEventListener_hit; assumption |].
  split; [| split; [| split]].
  - intros e'. rewrite listeners_unregister_now_at
      by (unfold notify; exact (proj2 (consistent_sets s1 Hs1))).
    unfold notify. rewrite !listeners_with_calls.
    destruct (decide (e' = e)) as [->|Hne].
    + rewrite Hle. apply filter_snoc_absent, Hl.
    + apply Hother, Hne.
  - intros e' l'. rewrite is_once_unregister_now. unfold notify.
    rewrite is_once_with_calls.
    destruct (decide (e = e' /\ l = l' /\ _)) as [(<- & <- & _)|Hno].
    + symmetry. unfold is_once.
      destruct (_listenerMeta st !! e) as [m|] eqn:Hm; [| reflexivity].
      simpl. destruct (m !! l) as [x|] eqn:Hml; [| reflexivity].
      contradiction Hl.
      exact (proj2 (consistent_meta st Hst e m Hm) l (mk_is_Some _ _ Hml)).
    + apply Honce. destruct (decide (e' = e)) as [->|]; [| left; assumption].
      right. intros ->. apply Hno. split; [reflexivity |]. split; [reflexivity |].
      simpl. unfold listeners in Hl1.
      destruct (map_get (_listeners s1) e); [eauto | inversion Hl1].
  - unfold maxListeners. rewrite _maxListeners_unregister_now. exact Hmax.
  - rewrite calls_unregister_now. unfold notify. simpl. rewrite Hcalls, <- app_assoc.
    unfold newListener_calls, removeListener_calls.
    rewrite !Hother by congruence. reflexivity.
Qed.

(** [register] of a listener that is new to its event when nobody listens to
    ["newListener"]. *)
Lemma addEventListener_unobserved (prog : Program) (n : nat) (st : State)
    (e : EventName) (l : Listener) (o : option EventListenerOptions) :
  consistent st ->
  map_get (_listeners st) (EStr "newListener") = None -> e <> EStr "newListener" ->
  l ∉ listeners st e ->
  exists s,
    consistent s
    /\ map_get (_listeners s) (EStr "newListener") = None
    /\ _maxListeners s = _maxListeners st
    /\ (forall e', e' <> e -> listeners s e' = listeners st e')
    /\ if bool_decide (Z.of_nat (length (listeners st e)) < _maxListeners st)%Z
       then this_addEventListener (emitter prog (S (S n))) e l o st = Return tt s
            /\ listeners s e = listeners st e ++ [l]
       else this_addEventListener (emitter prog (S (S n))) e l o st
            = Throw (VError TooManyListeners) s
            /\ listeners s e = listeners st e.
Proof.
  intros Hst Hnone Hne Hl.
  pose proof (proj1 (emitter_preserves prog (S (S n))) e l o st Hst) as Hkeep.
  change (this_addEventListener (emitter prog (S (S n))))
    with (addEventListener (emitter prog (S n))) in *.
  destruct (decide (Z.of_nat (length (listeners st e)) < _maxListeners st)%Z) as [Hcap|Hcap].
  - rewrite (bool_decide_eq_true_2 _ Hcap).
    destruct (addEventListener_registers (emitter prog (S n)) st e l o Hst Hl Hcap)
      as (s & Hr & Hle & Hother & Hmap & _ & Hmax).
    assert (Hemit : this_emit (emitter prog (S n)) (EStr "newListener")
                      [name_value e; VFunction l; options_value o] s = Return false s).
    { change (this_emit (emitter prog (S n))) with (emit prog (emitter prog n) n).
      unfold emit. rewrite Hmap, Hnone by congruence. reflexivity. }
    unfold bind in Hr. rewrite Hemit in Hr. rewrite Hr in Hkeep.
    exists s. split; [apply Hkeep |]. split; [rewrite Hmap by congruence; exact Hnone |].
    split; [exact Hmax |]. split; [exact Hother |]. split; [exact Hr | exact Hle].
  - rewrite (bool_decide_eq_false_2 _ Hcap).
    pose proof (proj2 (addEventListener_checks (emitter prog (S n)) st e l o) Hl
                  ltac:(lia)) as Hr.
    rewrite Hr in Hkeep. eexists. split; [apply Hkeep |].
    split; [| split; [| split; [| split; [exact Hr |]]]].
    + destruct (map_get (_listeners st) e) eqn:He; [exact Hnone |].
      simpl. rewrite map_get_app_new, Hnone, decide_False by exact Hne. reflexivity.
    + destruct (map_get (_listeners st) e); reflexivity.
    + intros e' _. destruct (map_get (_listeners st) e) eqn:He; [reflexivity |].
      apply listeners_new_set; [apply Hst | exact He].
    + destruct (map_get (_listeners st) e) eqn:He; [reflexivity |].
      apply listeners_new_set; [apply Hst | exact He].
Qed.

Lemma register_all_cap (prog : Program) (n : nat) (e : EventName) (ls : list Listener) :
  e <> EStr "newListener" ->
  forall st,
    consistent st ->
    map_get (_listeners st) (EStr "newListener") = None ->
    NoDup ls -> (forall l, l ∈ ls -> l ∉ listeners st e) ->
    exists s,
      register_all (emitter prog (S (S n))) e ls st
      = (if bool_decide
              (ls = [] \/
               (Z.of_nat (length (listeners st e) + length ls) <= _maxListeners st)%Z)
         then Return tt s else Throw (VError TooManyListeners) s)
      /\ listeners s e
         = listeners st e
           ++ take (Z.to_nat (_maxListeners st - Z.of_nat (length (listeners st e)))) ls
      /\ (forall e', e' <> e -> listeners s e' = listeners st e')
      /\ _maxListeners s = _maxListeners st.
Proof.
  intros Hne. induction ls as [|l ls IH]; intros st Hst Hnone Hnd Hnew.
  - exists st. rewrite bool_decide_eq_true_2 by (left; reflexivity).
    split; [reflexivity |]. rewrite take_nil, app_nil_r. repeat split; reflexivity.
  - apply NoDup_cons in Hnd as [Hl Hnd].
    destruct (addEventListener_unobserved prog n st e l None Hst Hnone Hne)
      as (s1 & Hs1 & Hnone1 & Hmax1 & Hother1 & Hcase); [apply Hnew; left |].
    unfold register_all. cbn [for_each]. unfold bind at 1.
    destruct (decide (Z.of_nat (length (listeners st e)) < _maxListeners st)%Z) as [Hcap|Hcap].
    + rewrite (bool_decide_eq_true_2 _ Hcap) in Hcase. destruct Hcase as [Hr Hle].
      rewrite Hr. destruct (IH s1 Hs1 Hnone1 Hnd) as (s & Hrs & Hls & Hothers & Hmax).
      { intros x Hx. rewrite Hle. intros Hin. apply elem_of_app in Hin as [Hin|Hin].
        - exact (Hnew x (list_elem_of_further _ _ _ Hx) Hin).
        - apply list_elem_of_singleton in Hin as ->. exact (Hl Hx). }
      exists s. fold (register_all (emitter prog (S (S n))) e ls). rewrite Hrs.
      split; [| split; [| split]].
      * rewrite Hle, Hmax1, length_app. simpl length.
        apply (f_equal (fun b : bool => if b then _ else _)).
        apply bool_decide_ext. split.
        -- intros [->|H]; right; simpl in *; lia.
        -- intros [H|H]; [discriminate |]. right. simpl in *. lia.
      * rewrite Hls, Hle, Hmax1, length_app, <- app_assoc. simpl length. f_equal.
        replace (Z.to_nat (_maxListeners st - Z.of_nat (length (listeners st e))))
          with (S (Z.to_nat (_maxListeners st - Z.of_nat (length (listeners st e) + 1))))
          by lia.
        reflexivity.
      * intros e' He'. rewrite Hothers by exact He'. apply Hother1, He'.
      * congruence.
    + rewrite (bool_decide_eq_false_2 _ Hcap) in Hcase. destruct Hcase as [Hr Hle].
      rewrite Hr. exists s1. rewrite bool_decide_eq_false_2.
      * split; [reflexivity |]. split; [| split; [exact Hother1 | exact Hmax1]].
        rewrite Hle.
        replace (Z.to_nat (_maxListeners st - Z.of_nat (length (listeners st e)))) with 0%nat
          by lia.
        rewrite take_0, app_nil_r. reflexivity.
      * intros [H|H]; [discriminate |]. simpl length in H. lia.
Qed.

(** X2.  The cap is exact.  A client registers the listeners [ls], all new to the
    event, one after the other, with nobody listening to ["newListener"]:
    the listeners are appended in order as long as the event has fewer than
    [maxListeners] listeners; the loop returns if all of them fit and is cut
    short by [TooManyListeners] at the first that does not, leaving those
    before it registered.  No other event changes. *)
Theorem maxListeners_is_exact (prog : Program) (n : nat) (st : State) (e : EventName)
    (ls : list Listener) :
  consistent st ->
  map_get (_listeners st) (EStr "newListener") = None -> e <> EStr "newListener" ->
  NoDup ls -> (forall l, l ∈ ls -> l ∉ listeners st e) ->
  exists s,
    register_all (emitter prog (S (S n))) e ls st
    = (if bool_decide
            (ls = [] \/
             (Z.of_nat (length (listeners st e) + length ls) <= maxListeners st)%Z)
       then Return tt s else Throw (VError TooManyListeners) s)
    /\ listeners s e
       = listeners st e
         ++ take (Z.to_nat (maxListeners st - Z.of_nat (length (listeners st e)))) ls
    /\ (forall e', e' <> e -> listeners s e' = listeners st e')
    /\ maxListeners s = maxListeners st.
Proof.
  intros Hst Hnone Hne Hnd Hnew.
  exact (register_all_cap prog n e ls Hne st Hst Hnone Hnd Hnew).
Qed.

(** ** Unregistering all the listeners of an event *)

Lemma map_keys_delete (m : list (EventName * nat)) (e : EventName) :
  map_keys (map_delete m e) = filter (fun k => k ≠ e) (map_keys m).
Proof.
  unfold map_keys, map_delete. induction m as [|[k v] m IH]; [reflexivity |].
  rewrite fmap_cons, !filter_cons. cbn [fst].
  destruct (decide (k ≠ e)); [rewrite fmap_cons |]; rewrite IH; reflexivity.
Qed.

Lemma map_delete_absent (m : list (EventName * nat)) (e : EventName) :
  map_get m e = None -> map_delete m e = m.
Proof.
  unfold map_delete. induction m as [|[k v] m IH]; intros H; [reflexivity |].
  simpl in H. destruct (decide (k = e)) as [|Hne]; [discriminate |].
  rewrite filter_cons. simpl. rewrite decide_True by exact Hne. f_equal. apply IH, H.
Qed.

Lemma listeners_same (st s : State) (e : EventName) :
  sets s = sets st -> map_get (_listeners s) e = map_get (_listeners st) e ->
  listeners s e = listeners st e.
Proof. intros Hs Hm. unfold listeners, deref. rewrite Hs, Hm. reflexivity. Qed.

Lemma removeListener_calls_with_calls (c : list Invocation) (st : State) (e : EventName)
    (l : Listener) :
  removeListener_calls (with_calls c st) e l = removeListener_calls st e l.
Proof. reflexivity. Qed.

Lemma concat_all_nil {A B : Type} (f : A -> list B) (xs : list A) :
  (forall x, f x = []) -> concat (f <$> xs) = [].
Proof.
  intros H. induction xs as [|x xs IH]; [reflexivity |].
  cbn [fmap list_fmap concat]. rewrite H. exact IH.
Qed.

Section Bystanders.
Variable prog : Program.

Local Arguments emitter : simpl never.

(** The loop of notifications of [removeAllListeners]. *)
Lemma notify_removals this k e (ls : list Listener) s :
  bystanders prog s (EStr "removeListener") ->
  (forall loc, (length (deref s loc) < k)%nat) ->
  forall c,
    for_each ls
      (fun l => emit prog this k (EStr "removeListener") [name_value e; VFunction l] ;;; ret tt)
      (with_calls c s)
    = Return tt (with_calls (c ++ concat (removeListener_calls s e <$> ls)) s).
Proof.
  intros Hby Hk. induction ls as [|l ls IH]; intros c.
  - simpl. rewrite app_nil_r. reflexivity.
  - cbn [for_each]. unfold bind at 1. unfold bind at 1.
    rewrite (emit_quiet prog this k (EStr "removeListener") [name_value e; VFunction l]
               (with_calls c s)).
    + unfold ret, notify. rewrite listeners_with_calls, with_calls_twice.
      change (calls (with_calls c s)) with c. rewrite IH.
      cbn [fmap list_fmap concat]. rewrite app_assoc. reflexivity.
    + intros r Hr. rewrite listeners_with_calls in Hr. rewrite is_once_with_calls.
      apply Hby, Hr.
    + intros loc. rewrite deref_with_calls. apply Hk.
    + left. discriminate.
Qed.

Lemma removeAllListeners_named fuel st e :
  falsy (Some e) = false -> deep_enough fuel st ->
  bystanders prog st (EStr "removeListener") ->
  exists s,
    this_removeAllListeners (emitter prog fuel) (Some e) st
    = Return (bool_decide (e ∈ eventNames st)) s
    /\ _listeners s = map_delete (_listeners st) e
    /\ _listenerMeta s
       = (if bool_decide (e ∈ eventNames st)
          then delete e (_listenerMeta st) else _listenerMeta st)
    /\ sets s = sets st
    /\ _maxListeners s = _maxListeners st
    /\ calls s
       = calls st ++
         (if decide (e = EStr "removeListener") then []
          else concat (removeListener_calls st e <$> rev (listeners st e))).
Proof.
  intros He Hdeep Hby. destruct (deep_enough_S fuel st Hdeep) as (n & -> & Hn).
  change (this_removeAllListeners (emitter prog (S (S (S n)))))
    with (removeAllListeners (emitter prog (S (S n)))).
  unfold removeAllListeners. rewrite He. cbn [mbind option_bind].
  destruct (map_get (_listeners st) e) as [loc|] eqn:Hloc.
  - assert (Hin : e ∈ eventNames st).
    { destruct (decide (e ∈ eventNames st)) as [H|H]; [exact H |].
      apply map_get_None_keys in H. congruence. }
    rewrite (bool_decide_eq_true_2 _ Hin). cbv zeta.
    set (st1 := with_listenerMeta (delete e (_listenerMeta st))
                  (with_listeners (map_delete (_listeners st) e) st)).
    change (this_emit (emitter prog (S (S n)))) with (emit prog (emitter prog (S n)) (S n)).
    assert (Hls1 : listeners st1 (EStr "removeListener")
                   = if decide (e = EStr "removeListener") then []
                     else listeners st (EStr "removeListener")).
    { unfold listeners at 1. unfold st1 at 1. simpl. rewrite map_get_delete.
      destruct (decide (e = EStr "removeListener")); reflexivity. }
    assert (Hby1 : bystanders prog st1 (EStr "removeListener")).
    { intros r Hr. rewrite Hls1 in Hr.
      destruct (decide (e = EStr "removeListener")) as [|Hne]; [inversion Hr |].
      destruct (Hby r Hr) as [Hq Ho]. split; [exact Hq |].
      unfold is_once, st1. simpl. rewrite lookup_delete_ne by exact Hne. exact Ho. }
    assert (Hk : forall loc', (length (deref st1 loc') < S n)%nat).
    { intros loc'. change (deref st1 loc') with (deref st loc'). specialize (Hn loc'). lia. }
    pose proof (notify_removals (emitter prog (S n)) (S n) e
                  (rev (set_values (deref st loc))) st1 Hby1 Hk (calls st1)) as Hloop.
    rewrite with_calls_same in Hloop.
    unfold bind at 1. rewrite Hloop.
    eexists. split; [reflexivity |]. simpl.
    split; [reflexivity |]. split; [reflexivity |]. split; [reflexivity |].
    split; [reflexivity |]. f_equal.
    unfold removeListener_calls. rewrite Hls1.
    destruct (decide (e = EStr "removeListener")) as [|Hne].
    + apply concat_all_nil. reflexivity.
    + unfold listeners. rewrite Hloc. reflexivity.
  - assert (Hin : e ∉ eventNames st) by (apply map_get_None_keys, Hloc).
    rewrite (bool_decide_eq_false_2 _ Hin). exists st.
    split; [reflexivity |]. split; [symmetry; apply map_delete_absent, Hloc |].
    split; [reflexivity |]. split; [reflexivity |]. split; [reflexivity |].
    unfold listeners. rewrite Hloc. simpl.
    destruct (decide (e = EStr "removeListener")); rewrite app_nil_r; reflexivity.
Qed.
End Bystanders.


(** X7.  Unregistering all the listeners of a named event (not the empty
    string), when the listeners of ["removeListener"] are bystanders:
    [removeAllListeners] returns whether the event was known; the event
    leaves [eventNames], the other names keep their order; its listeners and
    their options are gone, the other events keep theirs; and for each of its
    listeners, the last registered first, every listener of
    ["removeListener"] has been called with the event name and that
    listener -- unless the event is ["removeListener"] itself, whose
    listeners are gone before any notification is made. *)
Theorem removeAllListeners_of_event (prog : Program) (fuel : nat) (st : State)
    (e : EventName) :
  falsy (Some e) = false -> deep_enough fuel st ->
  bystanders prog st (EStr "removeListener") ->
  exists s,
    this_removeAllListeners (emitter prog fuel) (Some e) st
    = Return (bool_decide (e ∈ eventNames st)) s
    /\ eventNames s = filter (fun k => k ≠ e) (eventNames st)
    /\ (forall e', listeners s e' = if decide (e' = e) then [] else listeners st e')
    /\ (forall e' l, is_once s e' l
                     = if decide (e' = e /\ e ∈ eventNames st) then false
                       else is_once st e' l)
    /\ maxListeners s = maxListeners st
    /\ calls s
       = calls st ++
         (if decide (e = EStr "removeListener") then []
          else concat (removeListener_calls st e <$> rev (listeners st e))).
Proof.
  intros He Hdeep Hby.
  destruct (removeAllListeners_named prog fuel st e He Hdeep Hby)
    as (s & Hr & Hmap & Hmeta & Hsets & Hmax & Hcalls).
  exists s. split; [exact Hr |].
  split; [unfold eventNames; rewrite Hmap; apply map_keys_delete |].
  split; [| split; [| split; [exact Hmax | exact Hcalls]]].
  - intros e'. unfold listeners at 1. unfold deref. rewrite Hmap, Hsets, map_get_delete.
    destruct (decide (e' = e)) as [->|Hne].
    + rewrite decide_True by reflexivity. reflexivity.
    + rewrite decide_False by congruence. reflexivity.
  - intros e' l. unfold is_once. rewrite Hmeta.
    destruct (decide (e ∈ eventNames st)) as [Hin|Hin].
    + rewrite (bool_decide_eq_true_2 _ Hin). destruct (decide (e' = e)) as [->|Hne].
      * rewrite lookup_delete_eq, decide_True by (split; [reflexivity | exact Hin]).
        reflexivity.
      * rewrite lookup_delete_ne by congruence.
        rewrite decide_False by (intros [H _]; contradiction). reflexivity.
    + rewrite (bool_decide_eq_false_2 _ Hin).
      rewrite decide_False by (intros [_ H]; contradiction). reflexivity.
Qed.

(** ** Unregistering everything *)

Lemma elem_of_rev {A : Type} (x : A) (l : list A) : x ∈ rev l <-> x ∈ l.
Proof. rewrite !list_elem_of_In. symmetry. apply in_rev. Qed.

Lemma filter_none (names ks : list EventName) :
  (forall k, k ∈ names -> k ∈ ks) -> filter (fun k => k ∉ ks) names = [].
Proof.
  intros H. induction names as [|x names IH]; [reflexivity |].
  rewrite filter_cons, decide_False by (intros Hx; apply Hx, H; left).
  apply IH. intros k Hk. apply H. right. exact Hk.
Qed.

Lemma filter_all (names : list EventName) : filter (fun k => k ∉ []) names = names.
Proof.
  induction names as [|x names IH]; [reflexivity |].
  rewrite filter_cons, decide_True by (inversion 1). f_equal. exact IH.
Qed.

Lemma listeners_map_delete (st s : State) (e e' : EventName) :
  sets s = sets st -> _listeners s = map_delete (_listeners st) e ->
  listeners s e' = if decide (e' = e) then [] else listeners st e'.
Proof.
  intros Hsets Hmap. unfold listeners, deref. rewrite Hmap, Hsets, map_get_delete.
  destruct (decide (e' = e)) as [->|Hne].
  - rewrite decide_True by reflexivity. reflexivity.
  - rewrite decide_False by congruence. reflexivity.
Qed.

Lemma removal_notice_mono (st s : State) (c : Invocation) :
  (forall x l, l ∈ listeners s x -> l ∈ listeners st x) ->
  removal_notice s c -> removal_notice st c.
Proof.
  intros Hsub (Hc & e & l & Hl & Hargs). split; [apply Hsub, Hc |].
  exists e, l. split; [apply Hsub, Hl | exact Hargs].
Qed.

Lemma removal_notices (st : State) (e : EventName) (ls : list Listener) :
  (forall l, l ∈ ls -> l ∈ listeners st e) ->
  Forall (removal_notice st) (concat (removeListener_calls st e <$> ls)).
Proof.
  intros H. apply Forall_concat, Forall_fmap, Forall_forall. intros l Hl.
  unfold removeListener_calls. apply Forall_fmap, Forall_forall. intros r Hr.
  split; [exact Hr |]. exists e, l. split; [apply H, Hl | reflexivity].
Qed.

(** The loop of [removeAllListeners()] over the event names. *)
Lemma removeAllListeners_loop (prog : Program) (fuel : nat) (ks : list EventName) :
  Forall (fun e => falsy (Some e) = false) ks ->
  forall st,
    deep_enough fuel st ->
    bystanders prog st (EStr "removeListener") ->
    (forall e, is_Some (_listenerMeta st !! e) -> e ∈ eventNames st) ->
    exists s log,
      for_each ks
        (fun key => this_removeAllListeners (emitter prog fuel) (Some key) ;;; ret tt) st
      = Return tt s
      /\ eventNames s = filter (fun k => k ∉ ks) (eventNames st)
      /\ sets s = sets st
      /\ _maxListeners s = _maxListeners st
      /\ (forall e, is_Some (_listenerMeta s !! e) -> e ∈ eventNames s)
      /\ (forall x l, l ∈ listeners s x -> l ∈ listeners st x)
      /\ calls s = calls st ++ log
      /\ Forall (removal_notice st) log.
Proof.
  induction 1 as [|e ks He _ IH]; intros st Hdeep Hby Hmeta.
  - exists st, []. split; [reflexivity |].
    split; [symmetry; apply filter_all |].
    split; [reflexivity |]. split; [reflexivity |]. split; [exact Hmeta |].
    split; [intros x l H; exact H |]. split; [symmetry; apply app_nil_r | constructor].
  - destruct (removeAllListeners_named prog fuel st e He Hdeep Hby)
      as (s1 & Hr & Hmap & Hm & Hsets & Hmax & Hcalls).
    assert (Hls : forall e', listeners s1 e'
                             = if decide (e' = e) then [] else listeners st e')
      by (intros e'; apply listeners_map_delete; assumption).
    assert (Hsub : forall x l, l ∈ listeners s1 x -> l ∈ listeners st x).
    { intros x l. rewrite Hls. destruct (decide (x = e)); [inversion 1 | trivial]. }
    assert (Hnames : eventNames s1 = filter (fun k => k ≠ e) (eventNames st))
      by (unfold eventNames; rewrite Hmap; apply map_keys_delete).
    destruct (IH s1) as (s & log & Hrs & Hn & Hsets' & Hmax' & Hmeta' & Hsub' & Hcalls' & Hlog).
    + intros loc. unfold deref. rewrite Hsets. apply Hdeep.
    + intros r Hin. destruct (Hby r (Hsub _ _ Hin)) as [Hq Ho]. split; [exact Hq |].
      unfold is_once in *. rewrite Hm.
      destruct (bool_decide (e ∈ eventNames st)); [| exact Ho].
      destruct (decide (e = EStr "removeListener")) as [->|Hne].
      * rewrite lookup_delete_eq. reflexivity.
      * rewrite lookup_delete_ne by exact Hne. exact Ho.
    + intros x Hx. rewrite Hm in Hx. rewrite Hnames.
      destruct (decide (e ∈ eventNames st)) as [Hin|Hin].
      * rewrite (bool_decide_eq_true_2 _ Hin) in Hx.
        destruct (decide (x = e)) as [->|Hne].
        -- rewrite lookup_delete_eq in Hx. destruct Hx as [? Hx]. discriminate.
        -- rewrite lookup_delete_ne in Hx by congruence.
           apply list_elem_of_filter. split; [exact Hne | apply Hmeta, Hx].
      * rewrite (bool_decide_eq_false_2 _ Hin) in Hx.
        apply list_elem_of_filter. split; [| apply Hmeta, Hx].
        intros ->. apply Hin, Hmeta, Hx.
    + eexists s, _. cbn [for_each]. unfold bind at 1. unfold bind at 1. rewrite Hr.
      split; [exact Hrs |].
      split; [| split; [congruence | split; [congruence | split; [exact Hmeta' |]]]].
      * rewrite Hn, Hnames, list_filter_filter. apply list_filter_iff.
        intros k. rewrite not_elem_of_cons. tauto.
      * split; [intros x l Hl; apply Hsub, Hsub', Hl |].
        split; [rewrite Hcalls', Hcalls, <- app_assoc; reflexivity |].
        apply Forall_app. split.
        -- destruct (decide (e = EStr "removeListener")); [constructor |].
           apply removal_notices. intros l Hl. apply (proj1 (elem_of_rev _ _)), Hl.
        -- eapply Forall_impl; [exact Hlog |].
           intros c. apply removal_notice_mono, Hsub.
Qed.

(** X8.  Unregistering everything, when no event is named by the empty string and
    the listeners of ["removeListener"] are bystanders: [removeAllListeners]
    called with no event name, or with the empty string, returns whether any
    event name was known; afterwards no event name is known, no listener is
    registered, no options are kept and the cap is as before; and the only
    calls made are notifications of the listeners of ["removeListener"], each
    about a listener that was registered. *)
Theorem removeAllListeners_everything (prog : Program) (fuel : nat) (st : State)
    (eventName : option EventName) :
  falsy eventName = true -> EStr "" ∉ eventNames st ->
  consistent st -> deep_enough fuel st ->
  bystanders prog st (EStr "removeListener") ->
  exists s log,
    this_removeAllListeners (emitter prog (S fuel)) eventName st
    = Return (bool_decide (0 < length (eventNames st))%nat) s
    /\ eventNames s = []
    /\ (forall e, listeners s e = [])
    /\ (forall e l, is_once s e l = false)
    /\ maxListeners s = maxListeners st
    /\ calls s = calls st ++ log
    /\ Forall (removal_notice st) log.
Proof.
  intros Hf Hno Hst Hdeep Hby.
  change (this_removeAllListeners (emitter prog (S fuel)))
    with (removeAllListeners (emitter prog fuel)).
  unfold removeAllListeners. rewrite Hf.
  destruct (removeAllListeners_loop prog fuel (rev (map_keys (_listeners st))))
    with (st := st) as (s & log & Hr & Hn & Hsets & Hmax & Hmeta & _ & Hcalls & Hlog).
  - apply Forall_forall. intros e He. apply (proj1 (elem_of_rev _ _)) in He.
    exact (proj1 (Forall_forall _ _) (truthy_names _ Hno) e He).
  - exact Hdeep.
  - exact Hby.
  - intros e [m Hm]. destruct (proj1 (consistent_meta st Hst e m Hm)) as [loc Hloc].
    destruct (decide (e ∈ eventNames st)) as [H|H]; [exact H |].
    apply map_get_None_keys in H. congruence.
  - assert (Hnames : eventNames s = []).
    { rewrite Hn. apply filter_none. intros k Hk. apply (proj2 (elem_of_rev _ _)), Hk. }
    exists s, log. cbv zeta. unfold bind at 1. rewrite Hr. unfold ret. rewrite length_rev.
    split; [reflexivity |]. split; [exact Hnames |].
    split; [| split; [| split; [exact Hmax | split; [exact Hcalls | exact Hlog]]]].
    + intros e. unfold listeners.
      destruct (map_get (_listeners s) e) as [loc|] eqn:Hloc; [| reflexivity].
      exfalso. assert (H : e ∉ eventNames s) by (rewrite Hnames; inversion 1).
      apply map_get_None_keys in H. congruence.
    + intros e l. unfold is_once.
      destruct (_listenerMeta s !! e) as [m|] eqn:Hm; [| reflexivity].
      exfalso. assert (H : e ∈ eventNames s) by (apply Hmeta; eauto).
      rewrite Hnames in H. inversion H.
Qed.

(** ** Dispatching *)



Lemma invoked_calls_for (e : EventName) (log : list Invocation) :
  invoked e log = callee <$> calls_for e log.
Proof. reflexivity. Qed.

Lemma callee_called (e : EventName) (args : list Value) (ls : list Listener) :
  callee <$> (called e args <$> ls) = ls.
Proof. induction ls as [|x ls IH]; [reflexivity |]. simpl. f_equal. exact IH. Qed.



Section Dispatch.
Variable prog : Program.
Variable e : EventName.
Variable args : list Value.
Hypothesis He1 : e <> EStr "error".
Hypothesis He2 : e <> EStr "removeListener".







End Dispatch.

Lemma for_each_app {A : Type} (xs ys : list A) (body : A -> M unit) (st : State) :
  for_each (xs ++ ys) body st = (for_each xs body ;;; for_each ys body) st.
Proof.
  revert st. induction xs as [|x xs IH]; intros st; [reflexivity |].
  simpl. unfold bind. destruct (body x st) as [[] s|v s|]; [apply IH | reflexivity ..].
Qed.






(** ** Registering again *)

Lemma deref_length_unregister_now (e : EventName) (l : Listener) (st : State) (loc : nat) :
  length (deref (unregister_now e l st) loc) = length (deref st loc).
Proof.
  rewrite deref_unregister_now. destruct (decide _); [apply set_delete_length | reflexivity].
Qed.

(** X5.  Unregistering a listener and registering it again, for an event other
    than ["newListener"] and ["removeListener"] whose listeners are
    bystanders, and whose listeners are no more than the cap: both calls
    succeed; the listener is now the last of the listeners of the event, the
    others keep their order; it has the options of the second registration;
    nothing else changes. *)
Theorem unregister_then_register (prog : Program) (fuel : nat) (st : State)
    (e : EventName) (l : Listener) (o : option EventListenerOptions) :
  consistent st -> deep_enough fuel st ->
  bystanders prog st (EStr "newListener") ->
  bystanders prog st (EStr "removeListener") ->
  e <> EStr "newListener" -> e <> EStr "removeListener" ->
  l ∈ listeners st e ->
  (Z.of_nat (length (listeners st e)) <= maxListeners st)%Z ->
  exists s1 s2,
    this_removeEventListener (emitter prog fuel) e l st = Return true s1
    /\ this_addEventListener (emitter prog (S fuel)) e l o s1 = Return tt s2
    /\ listeners s2 e = filter (fun x => x ≠ l) (listeners st e) ++ [l]
    /\ (forall e', e' <> e -> listeners s2 e' = listeners st e')
    /\ is_once s2 e l = once_option o
    /\ (forall e' l', e' <> e \/ l' <> l -> is_once s2 e' l' = is_once st e' l')
    /\ maxListeners s2 = maxListeners st.
Proof.
  intros Hst Hdeep Hnl Hrl Hne1 Hne2 Hl Hcap.
  pose proof (removeEventListener_hit prog fuel st e l Hdeep Hrl Hl) as Hr.
  set (s1 := unregister_now e l
               (notify (EStr "removeListener") [name_value e; VFunction l] st)) in *.
  assert (Hs1 : consistent s1).
  { pose proof (proj1 (proj2 (emitter_preserves prog fuel)) e l st Hst) as H.
    rewrite Hr in H. apply H. }
  assert (Hls1 : forall e', listeners s1 e'
                            = if decide (e' = e) then filter (fun x => x ≠ l) (listeners st e)
                              else listeners st e').
  { intros e'. unfold s1. rewrite listeners_unregister_now_at
      by (unfold notify; exact (proj2 (consistent_sets st Hst))).
    unfold notify. rewrite !listeners_with_calls. reflexivity. }
  assert (Honce1 : forall e' l', e' <> e \/ l' <> l -> is_once s1 e' l' = is_once st e' l').
  { intros e' l' Hne. unfold s1. rewrite is_once_unregister_now. unfold notify.
    rewrite is_once_with_calls. apply decide_False.
    intros (<- & <- & _). destruct Hne as [H|H]; apply H; reflexivity. }
  assert (Hdeep1 : deep_enough fuel s1).
  { intros loc. unfold s1. rewrite deref_length_unregister_now. unfold notify.
    rewrite deref_with_calls. apply Hdeep. }
  assert (Hl1 : l ∉ listeners s1 e).
  { rewrite Hls1, decide_True by reflexivity. rewrite list_elem_of_filter.
    intros [H _]. apply H. reflexivity. }
  assert (Hcap1 : (Z.of_nat (length (listeners s1 e)) < _maxListeners s1)%Z).
  { rewrite Hls1, decide_True by reflexivity.
    unfold s1. rewrite _maxListeners_unregister_now. unfold notify. simpl.
    assert (H : (length (filter (fun x => x ≠ l) (listeners st e))
                 < length (listeners st e))%nat).
    { apply (length_filter_lt _ _ l); [exact Hl |]. intros H. apply H. reflexivity. }
    unfold maxListeners in Hcap. lia. }
  assert (Hnl1 : bystanders prog s1 (EStr "newListener")).
  { intros r Hin. rewrite Hls1, decide_False in Hin by congruence.
    destruct (Hnl r Hin) as [Hq Ho]. split; [exact Hq |].
    rewrite Honce1; [exact Ho |]. left. congruence. }
  destruct (addEventListener_bystanders prog fuel s1 e l o Hs1 Hdeep1 Hl1 Hcap1 Hnl1)
    as (s2 & Hr2 & Hle & Hother & Honce & Hnew & _ & _ & Hmax & _);
    [intros ->; contradiction |].
  exists s1, s2. split; [exact Hr |]. split; [exact Hr2 |].
  split; [rewrite Hle, Hls1, decide_True by reflexivity; reflexivity |].
  split; [intros e' Hne; rewrite Hother, Hls1, decide_False by exact Hne; reflexivity |].
  split; [exact Hnew |].
  split; [intros e' l' Hne; rewrite Honce by exact Hne; apply Honce1, Hne |].
  unfold maxListeners. rewrite Hmax. unfold s1.
  rewrite _maxListeners_unregister_now. reflexivity.
Qed.

(** ** Emitting ["error"] *)

(** X16.  Emitting ["error"] itself, when its listeners are bystanders: with no set
    of listeners of ["error"], [emit] throws its first argument if that is an
    [Error] and [UnhandledError] otherwise, also when it has no argument at
    all, and nothing changes; with one, it returns whether the set has
    listeners, after each of them has been called once, in order, with
    ["error"] and the arguments, and nothing else changes. *)
Theorem emit_error (prog : Program) (fuel : nat) (st : State) (args : list Value) :
  deep_enough fuel st -> bystanders prog st (EStr "error") ->
  (map_has (_listeners st) (EStr "error") = false ->
   this_emit (emitter prog fuel) (EStr "error") args st
   = Throw (match args with VError err :: _ => VError err | _ => VError UnhandledError end) st)
  /\ (map_has (_listeners st) (EStr "error") = true ->
      this_emit (emitter prog fuel) (EStr "error") args st
      = Return (bool_decide (0 < length (listeners st (EStr "error")))%nat)
          (with_calls
             (calls st ++ (called (EStr "error") args <$> listeners st (EStr "error"))) st)).
Proof.
  intros Hdeep Hby. destruct (deep_enough_S fuel st Hdeep) as (n & -> & Hn).
  split; intros Hhas.
  - apply emit_error_without_entry. unfold map_has in Hhas.
    destruct (map_get (_listeners st) (EStr "error")); [discriminate | reflexivity].
  - change (this_emit (emitter prog (S (S (S n)))))
      with (emit prog (emitter prog (S (S n))) (S (S n))).
    apply (emit_quiet prog (emitter prog (S (S n))) (S (S n)) (EStr "error") args st Hby).
    + intros loc. specialize (Hn loc). lia.
    + right. exact Hhas.
Qed.

(** ** The further properties on given emitters *)

Lemma reachable_two_listeners : reachable no_op (two_listeners no_op).
Proof.
  apply (reachable_return no_op
           (after (this_addEventListener (emitter no_op 3) (EStr "a") 1%nat None)
              new_EventEmitter)
           _ 3 (CallAddEventListener (EStr "a") 2%nat None));
    [| vm_compute; reflexivity].
  apply (reachable_return no_op new_EventEmitter _ 3
           (CallAddEventListener (EStr "a") 1%nat None));
    [apply reachable_new | vm_compute; reflexivity].
Qed.

Lemma reachable_once_and_notified : reachable no_op (once_and_notified no_op).
Proof.
  apply (reachable_return no_op
           (after (this_addEventListener (emitter no_op 3) (EStr "removeListener") 7%nat None)
              new_EventEmitter)
           _ 3 (CallAddEventListener (EStr "a") 1%nat once_only));
    [| vm_compute; reflexivity].
  apply (reachable_return no_op new_EventEmitter _ 3
           (CallAddEventListener (EStr "removeListener") 7%nat None));
    [apply reachable_new | vm_compute; reflexivity].
Qed.

Lemma reachable_emptied : reachable no_op (emptied (EStr "a")).
Proof.
  apply (reachable_return no_op
           (after (this_addEventListener (emitter no_op 3) (EStr "a") 1%nat None)
              new_EventEmitter)
           _ 3 (CallRemoveEventListener (EStr "a") 1%nat));
    [| vm_compute; reflexivity].
  apply (reachable_return no_op new_EventEmitter _ 3
           (CallAddEventListener (EStr "a") 1%nat None));
    [apply reachable_new | vm_compute; reflexivity].
Qed.

Lemma reachable_capped : reachable no_op capped.
Proof.
  apply (reachable_return no_op new_EventEmitter _ 3 (SetMaxListeners 0));
    [apply reachable_new | vm_compute; reflexivity].
Qed.

Lemma bystanders_no_op (st : State) (ev : EventName) :
  Forall (fun r => is_once st ev r = false) (listeners st ev) -> bystanders no_op st ev.
Proof.
  intros H r Hr. split; [intros args st'; reflexivity |].
  exact (proj1 (Forall_forall _ _) H r Hr).
Qed.





Lemma quiet_no_op (l : Listener) : quiet no_op l.
Proof. intros args st. reflexivity. Qed.

Lemma listenerCount_counts_witness :
  let st := two_listeners no_op in
  falsy (Some (EStr "a")) = false /\ (EStr "" ∉ eventNames st) /\ falsy None = true
  /\ listenerCount 2 st (Some (EStr "a")) (Some 2%nat)
     = Some (if bool_decide (2%nat ∈ listeners st (EStr "a")) then 1 else 0)%nat
  /\ listenerCount 2 st (Some (EStr "a")) None = Some (length (listeners st (EStr "a")))
  /\ listenerCount 2 st None None
     = Some (sum_list ((fun e => length (listeners st e)) <$> eventNames st)).
Proof.
  intros st.
  assert (Ha : falsy (Some (EStr "a")) = false) by reflexivity.
  assert (Hno : EStr "" ∉ eventNames st) by by_computation.
  assert (Hf : falsy None = true) by reflexivity.
  split; [exact Ha |]. split; [exact Hno |]. split; [exact Hf |].
  split; [exact (proj1 (listenerCount_counts 1 st) (EStr "a") 2%nat Ha) |].
  split; [exact (proj1 (proj2 (listenerCount_counts 1 st)) (EStr "a") Ha) |].
  exact (proj2 (proj2 (listenerCount_counts 0 st)) Hno None None Hf).
Defined.

Lemma maxListeners_set_witness :
  let st := two_listeners no_op in
  ((-1 < 0)%Z
   /\ set_maxListeners (-1) st
      = Throw (VError (PlainError "Tried to set negative value for maxListeners.")) st)
  /\ ((0 <= 2)%Z
      /\ (3%nat ∉ listeners st (EStr "a"))
      /\ (2 <= Z.of_nat (length (listeners st (EStr "a"))))%Z
      /\ exists s,
           set_maxListeners 2 st = Return tt s
           /\ maxListeners s = 2%Z
           /\ exists s', this_addEventListener (emitter no_op 1) (EStr "a") 3%nat None s
                         = Throw (VError TooManyListeners) s').
Proof.
  intros st.
  assert (Hneg : (-1 < 0)%Z) by reflexivity.
  assert (Hpos : (0 <= 2)%Z) by discriminate.
  assert (Hl : 3%nat ∉ listeners st (EStr "a")) by by_computation.
  assert (Hcap : (2 <= Z.of_nat (length (listeners st (EStr "a"))))%Z) by discriminate.
  split; [split; [exact Hneg | exact (proj1 (maxListeners_set no_op 0 (-1) st) Hneg)] |].
  split; [exact Hpos |]. split; [exact Hl |]. split; [exact Hcap |].
  destruct (proj2 (maxListeners_set no_op 0 2 st) Hpos) as (s & Hr & Hmax & _ & _ & Hreg).
  exists s. split; [exact Hr |]. split; [exact Hmax |].
  exact (Hreg (EStr "a") 3%nat None Hl Hcap).
Defined.

Lemma listeners_never_twice_witness :
  reachable no_op (two_listeners no_op)
  /\ NoDup (listeners (two_listeners no_op) (EStr "a")).
Proof.
  split; [exact reachable_two_listeners |].
  exact (listeners_never_twice no_op (two_listeners no_op) (EStr "a") reachable_two_listeners).
Defined.

Lemma options_only_of_registered_witness :
  let st := emptied (EStr "a") in
  reachable no_op st /\ (1%nat ∉ listeners st (EStr "a"))
  /\ _listenerMeta st !! EStr "a" ≫= (fun metaMap => metaMap !! 1%nat) = None.
Proof.
  intros st.
  assert (Hl : 1%nat ∉ listeners st (EStr "a")) by by_computation.
  split; [exact reachable_emptied |]. split; [exact Hl |].
  exact (options_only_of_registered no_op st (EStr "a") 1%nat reachable_emptied Hl).
Defined.

Lemma maxListeners_never_negative_witness :
  reachable no_op capped /\ (0 <= maxListeners capped)%Z.
Proof.
  split; [exact reachable_capped |].
  exact (maxListeners_never_negative no_op capped reachable_capped).
Defined.

Lemma removeEventListener_result_witness :
  let st := once_and_notified no_op in
  well_formed st /\ deep_enough 9 st /\ bystanders no_op st (EStr "removeListener")
  /\ exists s,
       this_removeEventListener (emitter no_op 9) (EStr "a") 1%nat st
       = Return (bool_decide (1%nat ∈ listeners st (EStr "a"))) s
       /\ calls s
          = calls st ++ (if bool_decide (1%nat ∈ listeners st (EStr "a"))
                         then removeListener_calls st (EStr "a") 1%nat else []).
Proof.
  intros st.
  assert (Hwf : well_formed st) by (apply well_formed_intro; by_computation).
  assert (Hdeep : deep_enough 9 st) by (apply deep_enough_intro; by_computation).
  assert (Hby : bystanders no_op st (EStr "removeListener"))
    by (apply bystanders_no_op; by_computation).
  split; [exact Hwf |]. split; [exact Hdeep |]. split; [exact Hby |].
  destruct (removeEventListener_result no_op 9 st (EStr "a") 1%nat Hwf Hdeep Hby)
    as (s & Hr & _ & Hcalls & _).
  exists s. split; [exact Hr | exact Hcalls].
Defined.

Lemma register_notifies_witness :
  let st := new_EventEmitter in
  let e := EStr "newListener" in
  consistent st /\ deep_enough 9 st /\ (1%nat ∉ listeners st e)
  /\ (Z.of_nat (length (listeners st e)) < maxListeners st)%Z
  /\ bystanders no_op st (EStr "newListener")
  /\ (e = EStr "newListener" -> quiet no_op 1%nat /\ once_option None = false)
  /\ exists s,
       this_addEventListener (emitter no_op 10) e 1%nat None st = Return tt s
       /\ listeners s e = listeners st e ++ [1%nat]
       /\ calls s
          = calls st ++
            (called (EStr "newListener") [name_value e; VFunction 1%nat; options_value None]
               <$> (if decide (e = EStr "newListener")
                    then listeners st (EStr "newListener") ++ [1%nat]
                    else listeners st (EStr "newListener"))).
Proof.
  intros st e.
  assert (Hdeep : deep_enough 9 st) by (apply deep_enough_intro; by_computation).
  assert (Hl : 1%nat ∉ listeners st e) by by_computation.
  assert (Hcap : (Z.of_nat (length (listeners st e)) < maxListeners st)%Z) by reflexivity.
  assert (Hby : bystanders no_op st (EStr "newListener"))
    by (apply bystanders_no_op; by_computation).
  assert (Hself : e = EStr "newListener" -> quiet no_op 1%nat /\ once_option None = false)
    by (intros _; split; [apply quiet_no_op | reflexivity]).
  split; [exact consistent_new |]. split; [exact Hdeep |]. split; [exact Hl |].
  split; [exact Hcap |]. split; [exact Hby |]. split; [exact Hself |].
  destruct (register_notifies no_op 9 st e 1%nat None consistent_new Hdeep Hl Hcap Hby Hself)
    as (s & Hr & Hle & _ & _ & _ & _ & Hcalls).
  exists s. split; [exact Hr |]. split; [exact Hle | exact Hcalls].
Defined.

Lemma register_then_unregister_witness :
  let st := once_and_notified no_op in
  consistent st /\ deep_enough 9 st
  /\ bystanders no_op st (EStr "newListener")
  /\ bystanders no_op st (EStr "removeListener")
  /\ EStr "b" <> EStr "newListener" /\ EStr "b" <> EStr "removeListener"
  /\ (2%nat ∉ listeners st (EStr "b"))
  /\ (Z.of_nat (length (listeners st (EStr "b"))) < maxListeners st)%Z
  /\ exists s1 s2,
       this_addEventListener (emitter no_op 10) (EStr "b") 2%nat None st = Return tt s1
       /\ this_removeEventListener (emitter no_op 10) (EStr "b") 2%nat s1 = Return true s2
       /\ (forall e', listeners s2 e' = listeners st e')
       /\ calls s2
          = calls st ++ newListener_calls st (EStr "b") 2%nat None
            ++ removeListener_calls st (EStr "b") 2%nat.
Proof.
  intros st.
  pose proof (reachable_consistent no_op st reachable_once_and_notified) as Hst.
  assert (Hdeep : deep_enough 9 st) by (apply deep_enough_intro; by_computation).
  assert (Hnl : bystanders no_op st (EStr "newListener"))
    by (apply bystanders_no_op; by_computation).
  assert (Hrl : bystanders no_op st (EStr "removeListener"))
    by (apply bystanders_no_op; by_computation).
  assert (Hne1 : EStr "b" <> EStr "newListener") by discriminate.
  assert (Hne2 : EStr "b" <> EStr "removeListener") by discriminate.
  assert (Hl : 2%nat ∉ listeners st (EStr "b")) by by_computation.
  assert (Hcap : (Z.of_nat (length (listeners st (EStr "b"))) < maxListeners st)%Z)
    by reflexivity.
  split; [exact Hst |]. split; [exact Hdeep |]. split; [exact Hnl |]. split; [exact Hrl |].
  split; [exact Hne1 |]. split; [exact Hne2 |]. split; [exact Hl |]. split; [exact Hcap |].
  destruct (register_then_unregister no_op 9 st (EStr "b") 2%nat None
              Hst Hdeep Hnl Hrl Hne1 Hne2 Hl Hcap)
    as (s1 & s2 & Hr1 & Hr2 & Hls & _ & _ & Hcalls).
  exists s1, s2. split; [exact Hr1 |]. split; [exact Hr2 |]. split; [exact Hls | exact Hcalls].
Defined.

(** On a new emitter, whose cap is 10, ten listeners of an event are
    registered and the eleventh is refused. *)
Lemma maxListeners_is_exact_witness :
  let st := new_EventEmitter in
  let ls := seq 1 11 in
  consistent st /\ map_get (_listeners st) (EStr "newListener") = None
  /\ EStr "a" <> EStr "newListener" /\ NoDup ls
  /\ (forall l, l ∈ ls -> l ∉ listeners st (EStr "a"))
  /\ exists s,
       register_all (emitter no_op 2) (EStr "a") ls st = Throw (VError TooManyListeners) s
       /\ listeners s (EStr "a") = seq 1 10.
Proof.
  intros st ls.
  assert (Hnone : map_get (_listeners st) (EStr "newListener") = None) by reflexivity.
  assert (Hne : EStr "a" <> EStr "newListener") by discriminate.
  assert (Hnd : NoDup ls) by by_computation.
  assert (Hnew : forall l, l ∈ ls -> l ∉ listeners st (EStr "a"))
    by (intros l _ H; inversion H).
  split; [exact consistent_new |]. split; [exact Hnone |]. split; [exact Hne |].
  split; [exact Hnd |]. split; [exact Hnew |].
  destruct (maxListeners_is_exact no_op 0 st (EStr "a") ls consistent_new Hnone Hne Hnd Hnew)
    as (s & Hr & Hls & _).
  exists s. split; [| exact Hls].
  rewrite bool_decide_eq_false_2 in Hr; [exact Hr |].
  intros [H|H]; [discriminate | apply H; reflexivity].
Defined.

Lemma removeAllListeners_of_event_witness :
  let st := once_and_notified no_op in
  falsy (Some (EStr "a")) = false /\ deep_enough 9 st
  /\ bystanders no_op st (EStr "removeListener")
  /\ exists s,
       this_removeAllListeners (emitter no_op 9) (Some (EStr "a")) st
       = Return (bool_decide (EStr "a" ∈ eventNames st)) s
       /\ eventNames s = filter (fun k => k ≠ EStr "a") (eventNames st)
       /\ calls s
          = calls st ++
            (if decide (EStr "a" = EStr "removeListener") then []
             else concat (removeListener_calls st (EStr "a")
                            <$> rev (listeners st (EStr "a")))).
Proof.
  intros st.
  assert (Ha : falsy (Some (EStr "a")) = false) by reflexivity.
  assert (Hdeep : deep_enough 9 st) by (apply deep_enough_intro; by_computation).
  assert (Hby : bystanders no_op st (EStr "removeListener"))
    by (apply bystanders_no_op; by_computation).
  split; [exact Ha |]. split; [exact Hdeep |]. split; [exact Hby |].
  destruct (removeAllListeners_of_event no_op 9 st (EStr "a") Ha Hdeep Hby)
    as (s & Hr & Hnames & _ & _ & _ & Hcalls).
  exists s. split; [exact Hr |]. split; [exact Hnames | exact Hcalls].
Defined.

Lemma removeAllListeners_everything_witness :
  let st := once_and_notified no_op in
  falsy None = true /\ (EStr "" ∉ eventNames st) /\ consistent st /\ deep_enough 9 st
  /\ bystanders no_op st (EStr "removeListener")
  /\ exists s log,
       this_removeAllListeners (emitter no_op 10) None st
       = Return (bool_decide (0 < length (eventNames st))%nat) s
       /\ eventNames s = []
       /\ calls s = calls st ++ log
       /\ Forall (removal_notice st) log.
Proof.
  intros st.
  assert (Hf : falsy None = true) by reflexivity.
  assert (Hno : EStr "" ∉ eventNames st) by by_computation.
  pose proof (reachable_consistent no_op st reachable_once_and_notified) as Hst.
  assert (Hdeep : deep_enough 9 st) by (apply deep_enough_intro; by_computation).
  assert (Hby : bystanders no_op st (EStr "removeListener"))
    by (apply bystanders_no_op; by_computation).
  split; [exact Hf |]. split; [exact Hno |]. split; [exact Hst |]. split; [exact Hdeep |].
  split; [exact Hby |].
  destruct (removeAllListeners_everything no_op 9 st None Hf Hno Hst Hdeep Hby)
    as (s & log & Hr & Hnames & _ & _ & _ & Hcalls & Hlog).
  exists s, log. split; [exact Hr |]. split; [exact Hnames |].
  split; [exact Hcalls | exact Hlog].
Defined.





Lemma unregister_then_register_witness :
  let st := once_and_notified no_op in
  consistent st /\ deep_enough 9 st
  /\ bystanders no_op st (EStr "newListener")
  /\ bystanders no_op st (EStr "removeListener")
  /\ EStr "a" <> EStr "newListener" /\ EStr "a" <> EStr "removeListener"
  /\ 1%nat ∈ listeners st (EStr "a")
  /\ (Z.of_nat (length (listeners st (EStr "a"))) <= maxListeners st)%Z
  /\ is_once st (EStr "a") 1%nat = true
  /\ exists s1 s2,
       this_removeEventListener (emitter no_op 9) (EStr "a") 1%nat st = Return true s1
       /\ this_addEventListener (emitter no_op 10) (EStr "a") 1%nat None s1 = Return tt s2
       /\ listeners s2 (EStr "a")
          = filter (fun x => x ≠ 1%nat) (listeners st (EStr "a")) ++ [1%nat]
       /\ is_once s2 (EStr "a") 1%nat = once_option None.
Proof.
  intros st.
  pose proof (reachable_consistent no_op st reachable_once_and_notified) as Hst.
  assert (Hdeep : deep_enough 9 st) by (apply deep_enough_intro; by_computation).
  assert (Hnl : bystanders no_op st (EStr "newListener"))
    by (apply bystanders_no_op; by_computation).
  assert (Hrl : bystanders no_op st (EStr "removeListener"))
    by (apply bystanders_no_op; by_computation).
  assert (Hne1 : EStr "a" <> EStr "newListener") by discriminate.
  assert (Hne2 : EStr "a" <> EStr "removeListener") by discriminate.
  assert (Hl : 1%nat ∈ listeners st (EStr "a")) by by_computation.
  assert (Hcap : (Z.of_nat (length (listeners st (EStr "a"))) <= maxListeners st)%Z)
    by discriminate.
  split; [exact Hst |]. split; [exact Hdeep |]. split; [exact Hnl |]. split; [exact Hrl |].
  split; [exact Hne1 |]. split; [exact Hne2 |]. split; [exact Hl |]. split; [exact Hcap |].
  split; [reflexivity |].
  destruct (unregister_then_register no_op 9 st (EStr "a") 1%nat None
              Hst Hdeep Hnl Hrl Hne1 Hne2 Hl Hcap)
    as (s1 & s2 & Hr1 & Hr2 & Hle & _ & Hnew & _).
  exists s1, s2. split; [exact Hr1 |]. split; [exact Hr2 |]. split; [exact Hle | exact Hnew].
Defined.

Lemma emit_error_witness :
  (deep_enough 9 new_EventEmitter /\ bystanders no_op new_EventEmitter (EStr "error")
   /\ map_has (_listeners new_EventEmitter) (EStr "error") = false
   /\ this_emit (emitter no_op 9) (EStr "error") [VString "plain"] new_EventEmitter
      = Throw (VError UnhandledError) new_EventEmitter)
  /\ (let st := guarded no_op in
      deep_enough 9 st /\ bystanders no_op st (EStr "error")
      /\ map_has (_listeners st) (EStr "error") = true
      /\ this_emit (emitter no_op 9) (EStr "error") [VError (PlainError "x")] st
         = Return (bool_decide (0 < length (listeners st (EStr "error")))%nat)
             (with_calls
                (calls st ++
                 (called (EStr "error") [VError (PlainError "x")]
                    <$> listeners st (EStr "error"))) st)).
Proof.
  split.
  - assert (Hdeep : deep_enough 9 new_EventEmitter)
      by (apply deep_enough_intro; by_computation).
    assert (Hby : bystanders no_op new_EventEmitter (EStr "error"))
      by (apply bystanders_no_op; by_computation).
    assert (Hhas : map_has (_listeners new_EventEmitter) (EStr "error") = false)
      by reflexivity.
    split; [exact Hdeep |]. split; [exact Hby |]. split; [exact Hhas |].
    exact (proj1 (emit_error no_op 9 new_EventEmitter [VString "plain"] Hdeep Hby) Hhas).
  - intros st.
    assert (Hdeep : deep_enough 9 st) by (apply deep_enough_intro; by_computation).
    assert (Hby : bystanders no_op st (EStr "error"))
      by (apply bystanders_no_op; by_computation).
    assert (Hhas : map_has (_listeners st) (EStr "error") = true) by reflexivity.
    split; [exact Hdeep |]. split; [exact Hby |]. split; [exact Hhas |].
    exact (proj2 (emit_error no_op 9 st [VError (PlainError "x")] Hdeep Hby) Hhas).
Defined.

(** * The listeners that [emit] visits *)

(** ** The log only grows *)

Lemma appends_ret {A : Type} (a : A) : appends (ret a).
Proof. intros st. simpl. reflexivity. Qed.

Lemma appends_throw {A : Type} (v : Value) : appends (@throw A v).
Proof. intros st. simpl. reflexivity. Qed.

Lemma appends_then (c : list Invocation) (s : State) {A : Type} (m : M A) :
  c `prefix_of` calls s -> appends m ->
  match m s with
  | Return _ s' | Throw _ s' => c `prefix_of` calls s'
  | OutOfFuel => True
  end.
Proof.
  intros Hc Hm. specialize (Hm s).
  destruct (m s) as [a s'|v s'|]; [| | exact I]; (etransitivity; [exact Hc | exact Hm]).
Qed.

Lemma appends_bind {A B : Type} (m : M A) (k : A -> M B) :
  appends m -> (forall a, appends (k a)) -> appends (bind m k).
Proof.
  intros Hm Hk st. unfold bind. specialize (Hm st).
  destruct (m st) as [a s|v s|]; [| exact Hm | exact I].
  apply (appends_then _ s (k a) Hm (Hk a)).
Qed.

Lemma appends_try_catch {A : Type} (body : M A) (handler : Value -> M A) :
  appends body -> (forall v, appends (handler v)) -> appends (try_catch body handler).
Proof.
  intros Hb Hh st. unfold try_catch. specialize (Hb st).
  destruct (body st) as [a s|v s|]; [exact Hb | | exact I].
  apply (appends_then _ s (handler v) Hb (Hh v)).
Qed.

Lemma appends_try_finally {A : Type} (body : M A) (cleanup : M unit) :
  appends body -> appends cleanup -> appends (try_finally body cleanup).
Proof.
  intros Hb Hc st. unfold try_finally. specialize (Hb st).
  destruct (body st) as [a s|v s|]; [| | exact I].
  - apply (appends_then _ s _ Hb).
    apply appends_bind; [exact Hc | intros _; apply appends_ret].
  - apply (appends_then _ s _ Hb).
    apply appends_bind; [exact Hc | intros _; apply appends_throw].
Qed.

Lemma appends_for_each {A : Type} (xs : list A) (body : A -> M unit) :
  (forall x, appends (body x)) -> appends (for_each xs body).
Proof.
  intros Hb. induction xs as [|x xs IH]; [apply appends_ret |].
  simpl. apply appends_bind; [apply Hb | intros _; exact IH].
Qed.

Lemma appends_for_of_set (k loc : nat) (body : Listener -> M unit) :
  (forall l, appends (body l)) -> forall index, appends (for_of_set k loc index body).
Proof.
  intros Hb. induction k as [|k IH]; intros index st; [exact I |].
  rewrite for_of_set_S. destruct (deref st loc !! index) as [[l|]|]; [| apply IH | reflexivity].
  apply (appends_bind (body l) (fun _ => for_of_set k loc (S index) body));
    [apply Hb | intros _; apply IH].
Qed.

Lemma appends_set_maxListeners (n : Z) : appends (set_maxListeners n).
Proof. intros st. unfold set_maxListeners. destruct (n <? 0)%Z; reflexivity. Qed.

(** [listener.apply] writes the call in the log before anything else. *)
Lemma call_listener_unfold (prog : Program) (this : Methods) (e : EventName)
    (args : list Value) (l : Listener) (st : State) :
  let st1 := with_calls (calls st ++ [called e args l]) st in
  call_listener prog this e args l st
  = try_finally
      (try_catch
         (for_each (prog l (name_value e :: args) st1) (run_cmd this))
         (fun err => this_emit this (EStr "error") [err] ;;; ret tt))
      (remove_if_once this e l) st1.
Proof. reflexivity. Qed.

Section Appends.
Variable prog : Program.
Variable this : Methods.
Hypothesis Hadd : forall e l o, appends (this_addEventListener this e l o).
Hypothesis Hremove : forall e l, appends (this_removeEventListener this e l).
Hypothesis HremoveAll : forall e, appends (this_removeAllListeners this e).
Hypothesis Hemit : forall e args, appends (this_emit this e args).

Lemma appends_addEventListener e l o : appends (addEventListener this e l o).
Proof.
  intros st. unfold addEventListener.
  destruct (match map_get (_listeners st) e with Some _ => _ | None => _ end)
    as [loc s] eqn:Hs.
  assert (Hcalls : calls s = calls st).
  { destruct (map_get (_listeners st) e); injection Hs as _ <-; reflexivity. }
  destruct (set_has (deref s loc) l); [rewrite Hcalls; reflexivity |].
  destruct (_maxListeners s <=? _)%Z; [rewrite Hcalls; reflexivity |].
  cbv zeta.
  assert (Hnext : forall s', calls s' = calls st ->
            match (this_emit this (EStr "newListener")
                     [name_value e; VFunction l; options_value o] ;;; ret tt) s' with
            | Return _ s'' | Throw _ s'' => calls st `prefix_of` calls s''
            | OutOfFuel => True
            end).
  { intros s' Hs'. apply (appends_then (calls st) s'); [rewrite Hs'; reflexivity |].
    apply appends_bind; [apply Hemit | intros _; apply appends_ret]. }
  simpl. destruct (_listenerMeta s !! e) as [m|]; [destruct (m !! l) |];
    apply Hnext; exact Hcalls.
Qed.

Lemma appends_removeEventListener e l : appends (removeEventListener this e l).
Proof.
  intros st. unfold removeEventListener.
  destruct (map_get (_listeners st) e) as [loc|]; [| reflexivity].
  destruct (negb _); [reflexivity |].
  apply appends_bind; [apply Hemit |].
  intros _ s. cbv zeta. destruct (_listenerMeta _ !! e); reflexivity.
Qed.

Lemma appends_removeAllListeners e : appends (removeAllListeners this e).
Proof.
  intros st. unfold removeAllListeners. destruct (falsy e).
  - apply appends_bind; [| intros _; apply appends_ret].
    apply appends_for_each. intros key.
    apply appends_bind; [apply HremoveAll | intros _; apply appends_ret].
  - destruct (e ≫= map_get (_listeners st)) as [loc|]; [| reflexivity].
    destruct e as [e|]; [| reflexivity]. cbv zeta.
    apply (appends_then (calls st)); [reflexivity |].
    apply appends_bind; [| intros _; apply appends_ret].
    apply appends_for_each. intros x.
    apply appends_bind; [apply Hemit | intros _; apply appends_ret].
Qed.

Lemma appends_run_cmd c : appends (run_cmd this c).
Proof.
  destruct c; simpl.
  - apply Hadd.
  - apply appends_bind; [apply Hremove | intros _; apply appends_ret].
  - apply appends_bind; [apply HremoveAll | intros _; apply appends_ret].
  - apply appends_bind; [apply Hemit | intros _; apply appends_ret].
  - apply appends_set_maxListeners.
  - apply appends_throw.
Qed.

Lemma appends_remove_if_once e l : appends (remove_if_once this e l).
Proof.
  intros st. unfold remove_if_once. destruct (once_set _); [| reflexivity].
  apply appends_bind; [apply Hremove | intros _; apply appends_ret].
Qed.

(** A visit writes the call of the listener in the log, and adds to it. *)
Lemma call_listener_called e args l st :
  match call_listener prog this e args l st with
  | Return _ s | Throw _ s => (calls st ++ [called e args l]) `prefix_of` calls s
  | OutOfFuel => True
  end.
Proof.
  rewrite call_listener_unfold. cbv zeta.
  set (st1 := with_calls (calls st ++ [called e args l]) st).
  change (calls st ++ [called e args l]) with (calls st1).
  apply appends_try_finally; [| apply appends_remove_if_once].
  apply appends_try_catch.
  - apply appends_for_each, appends_run_cmd.
  - intros v. apply appends_bind; [apply Hemit | intros _; apply appends_ret].
Qed.

Lemma appends_call_listener e args l : appends (call_listener prog this e args l).
Proof.
  intros st. pose proof (call_listener_called e args l st) as H.
  destruct (call_listener prog this e args l st) as [a s|v s|]; [| | exact I];
    (etransitivity; [apply prefix_app_r; reflexivity | exact H]).
Qed.

Lemma appends_emit k e args : appends (emit prog this k e args).
Proof.
  intros st. unfold emit. destruct (map_get (_listeners st) e) as [loc|].
  - apply appends_bind; [| intros _; apply appends_ret].
    apply appends_for_of_set. intros l. apply appends_call_listener.
  - destruct (decide (e = EStr "error")); [| reflexivity].
    destruct args as [|[] ?]; reflexivity.
Qed.

(** The calls of the listeners visited are in the log, in the order of the
    visits. *)
Lemma for_each_called e args (ls : list Listener) :
  forall st s,
    for_each ls (call_listener prog this e args) st = Return tt s ->
    (called e args <$> ls) `sublist_of` since st (calls s).
Proof.
  induction ls as [|x ls IH]; intros st s Hr; [apply sublist_nil_l |].
  cbn [for_each] in Hr. unfold bind in Hr.
  pose proof (call_listener_called e args x st) as Hx.
  destruct (call_listener prog this e args x st) as [[] s1|v s1|]; [| discriminate ..].
  pose proof (appends_for_each ls _ (appends_call_listener e args) s1) as Hrest.
  rewrite Hr in Hrest. destruct Hx as [k1 Hk1]. destruct Hrest as [k2 Hk2].
  specialize (IH s1 s Hr). rewrite Hk2, since_app in IH.
  rewrite Hk2, Hk1, <- !app_assoc, since_app. cbn [fmap list_fmap app].
  apply sublist_skip, sublist_inserts_l, IH.
Qed.
End Appends.

Lemma emitter_appends (prog : Program) (fuel : nat) :
  (forall e l o, appends (this_addEventListener (emitter prog fuel) e l o))
  /\ (forall e l, appends (this_removeEventListener (emitter prog fuel) e l))
  /\ (forall e, appends (this_removeAllListeners (emitter prog fuel) e))
  /\ (forall e args, appends (this_emit (emitter prog fuel) e args)).
Proof.
  induction fuel as [|fuel (Hadd & Hremove & HremoveAll & Hemit)].
  - repeat split; intros; intros st; exact I.
  - split; [| split; [| split]]; intros.
    + apply appends_addEventListener, Hemit.
    + apply appends_removeEventListener, Hemit.
    + apply appends_removeAllListeners; assumption.
    + apply appends_emit; assumption.
Qed.

(** ** The set that is iterated, and its snapshot *)

Lemma drop_cons_lookup {A : Type} (l : list A) (index : nat) (x : A) (rest : list A) :
  drop index l = x :: rest -> l !! index = Some x /\ drop (S index) l = rest.
Proof.
  intros H. split.
  - rewrite <- (Nat.add_0_r index), <- lookup_drop, H. reflexivity.
  - rewrite <- (Nat.add_1_l index), Nat.add_comm, <- drop_drop, H. reflexivity.
Qed.

Lemma drop_nil_lookup {A : Type} (l : list A) (index : nat) :
  drop index l = [] -> l !! index = None.
Proof.
  intros H. apply lookup_ge_None_2.
  pose proof (length_drop l index) as Hlen. rewrite H in Hlen. simpl in Hlen. lia.
Qed.

(** The loop over the live set visits the listeners that it held when the
    loop began, as long as no visit disturbs what is still to be visited. *)
Lemma for_of_set_undisturbed (loc : nat) (body : Listener -> M unit)
    (entries : list (option Listener)) :
  forall index k st,
    drop index (deref st loc) = entries ->
    undisturbed loc body entries index st ->
    (length entries < k)%nat ->
    for_of_set k loc index body st = for_each (set_values entries) body st.
Proof.
  induction entries as [|x rest IH]; intros index k st Hdrop Hun Hk.
  - destruct k as [|k]; [simpl in Hk; lia |].
    rewrite for_of_set_S, (drop_nil_lookup _ _ Hdrop). reflexivity.
  - destruct k as [|k]; [simpl in Hk; lia |]. simpl in Hk.
    destruct (drop_cons_lookup _ _ _ _ Hdrop) as [Hx Hrest].
    rewrite for_of_set_S, Hx, set_values_cons. destruct x as [x|].
    + cbn [for_each]. unfold bind. cbn [undisturbed] in Hun.
      destruct (body x st) as [[] s|v s|]; [| reflexivity ..].
      destruct Hun as [Hs Hun]. apply IH; [exact Hs | exact Hun | lia].
    + apply IH; [exact Hrest | exact Hun | lia].
Qed.

Lemma emit_undisturbed (prog : Program) (fuel : nat) (st : State) (e : EventName)
    (args : list Value) (loc : nat) :
  map_get (_listeners st) e = Some loc ->
  (length (deref st loc) < fuel)%nat ->
  undisturbed loc (call_listener prog (emitter prog fuel) e args) (deref st loc) 0 st ->
  this_emit (emitter prog (S fuel)) e args st
  = (for_each (listeners st e) (call_listener prog (emitter prog fuel) e args) ;;;
     ret (bool_decide (0 < length (listeners st e))%nat)) st.
Proof.
  intros Hloc Hlen Hun.
  change (this_emit (emitter prog (S fuel))) with (emit prog (emitter prog fuel) fuel).
  unfold emit, listeners. rewrite Hloc. unfold bind, set_size.
  rewrite (for_of_set_undisturbed loc _ (deref st loc) 0 fuel st eq_refl Hun Hlen).
  reflexivity.
Qed.

Lemma for_each_app_then {A B : Type} (xs ys : list A) (body : A -> M unit) (k : M B)
    (st : State) :
  (for_each (xs ++ ys) body ;;; k) st = (for_each xs body ;;; for_each ys body ;;; k) st.
Proof.
  unfold bind at 1. rewrite for_each_app. unfold bind.
  destruct (for_each xs body st) as [[] s|v s|]; reflexivity.
Qed.

(** Listeners that leave the emitter alone disturb nothing: a visit
    deletes at most the listener visited, which is in the set once. *)
Lemma calm_undisturbed (prog : Program) (n : nat) (e : EventName) (args : list Value)
    (loc : nat) (entries : list (option Listener)) :
  forall index st,
    calm prog st -> sets_nodup st ->
    (forall loc', (length (deref st loc') < n)%nat) ->
    map_get (_listeners st) e = Some loc ->
    drop index (deref st loc) = entries ->
    undisturbed loc (call_listener prog (emitter prog (S (S n))) e args) entries index st.
Proof.
  induction entries as [|x rest IH]; intros index st Hcalm Hnd Hn Hloc Hdrop; [exact I |].
  destruct (drop_cons_lookup _ _ _ _ Hdrop) as [Hx Hrest]. destruct x as [x|].
  - cbn [undisturbed].
    rewrite (call_listener_calm prog n e args x loc st Hcalm Hn Hloc)
      by (apply list_elem_of_lookup; eauto).
    destruct (visit_outcome prog e args x st) as (notes & Hv & _). cbv zeta in Hv.
    set (c := calls st ++ called e args x :: notes) in Hv.
    set (s := after_call e x (with_calls c st)) in Hv.
    destruct Hv as [Hv|[v Hv]]; rewrite Hv; [| exact I].
    pose proof (settles_visit e x c st) as Hs. fold s in Hs.
    assert (Hd : drop (S index) (deref s loc) = rest).
    { unfold s. rewrite deref_after_call, deref_with_calls.
      destruct (is_once (with_calls c st) e x); [| exact Hrest].
      destruct (decide _); [| exact Hrest].
      unfold set_delete. rewrite <- fmap_drop, Hrest.
      apply (set_delete_absent rest x). intros Hin.
      pose proof (Hnd loc) as Hnd'.
      rewrite <- (take_drop index (deref st loc)), Hdrop, set_values_app,
        set_values_cons in Hnd'.
      apply NoDup_app in Hnd' as (_ & _ & Hnd'). apply NoDup_cons in Hnd' as [Hnd' _].
      apply Hnd', elem_of_set_values, Hin. }
    split; [exact Hd |]. apply IH.
    + apply (calm_settles prog st s Hcalm Hs).
    + apply (settles_nodup st s Hs Hnd).
    + intros loc'. rewrite (settles_length st s Hs). apply Hn.
    + rewrite (settles_listeners st s Hs). exact Hloc.
    + exact Hd.
  - cbn [undisturbed]. apply IH; assumption.
Qed.

(** C1 (as amended).  [emit] is the dispatch over the snapshot of the
    listeners of the event taken when the call starts, whatever the
    listeners do with the emitter, provided that no visit disturbs the part
    of the set of the event that is still to be visited: nothing is added to
    that set during the call, and no listener is deleted from it before its
    turn (and provided that ["error"] has no emptied set).  When such a call
    returns, it returns whether the event had listeners, and the calls of the
    listeners of the snapshot, each with the event name and the arguments,
    are in the log in the order of registration. *)
Theorem emit_undisturbed_is_snapshot (prog : Program) (fuel : nat) (st : State)
    (e : EventName) (args : list Value) :
  (forall loc, map_get (_listeners st) e = Some loc ->
     (length (deref st loc) < fuel)%nat
     /\ undisturbed loc (call_listener prog (emitter prog fuel) e args) (deref st loc) 0 st) ->
  (e = EStr "error" -> listeners st e = [] -> map_get (_listeners st) e = None) ->
  this_emit (emitter prog (S fuel)) e args st
  = emit_over_snapshot prog (emitter prog fuel) e args st
  /\ forall b s,
       this_emit (emitter prog (S fuel)) e args st = Return b s ->
       b = bool_decide (0 < length (listeners st e))%nat
       /\ (called e args <$> listeners st e) `sublist_of` since st (calls s).
Proof.
  intros Hun Herr.
  destruct (emitter_appends prog fuel) as (Hadd & Hremove & HremoveAll & Hemit).
  destruct (map_get (_listeners st) e) as [loc|] eqn:Hloc.
  - destruct (Hun loc eq_refl) as [Hlen Hu].
    rewrite (emit_undisturbed prog fuel st e args loc Hloc Hlen Hu). split.
    + unfold emit_over_snapshot. destruct (listeners st e) as [|x ls] eqn:Hls.
      * destruct (decide (e = EStr "error")) as [He|He]; [| reflexivity].
        specialize (Herr He eq_refl). discriminate.
      * reflexivity.
    + intros b s Hr. unfold bind in Hr.
      destruct (for_each (listeners st e) _ st) as [[] s'|v s'|] eqn:Hfor;
        [| discriminate ..].
      injection Hr as <- <-. split; [reflexivity |].
      apply (for_each_called prog (emitter prog fuel) Hadd Hremove HremoveAll Hemit
               e args (listeners st e) st s' Hfor).
  - assert (Hls : listeners st e = []) by (unfold listeners; rewrite Hloc; reflexivity).
    change (this_emit (emitter prog (S fuel))) with (emit prog (emitter prog fuel) fuel).
    unfold emit, emit_over_snapshot. rewrite Hloc, Hls. split; [reflexivity |].
    intros b s Hr. destruct (decide (e = EStr "error")).
    + destruct args as [|[] ?]; discriminate.
    + injection Hr as <- <-. split; [reflexivity | apply sublist_nil_l].
Qed.

(** C6.  Registering a listener that is already registered for the event
    returns at once and changes nothing: the count and the order of the
    listeners are as before, and no listener is called, so no
    ["newListener"] notification is made; any later [emit] does what it
    would have done without that call.  The listener is in the set once:
    a later [emit] of the event, in which no visit disturbs what is still to
    be visited, runs the visits of the listeners registered before it, then
    its visit, once, then those of the listeners registered after it, and
    when that [emit] returns the call of the listener is in the log.  When
    the registered listeners leave the emitter alone, the log of an [emit]
    that returns holds that call exactly once. *)
Theorem register_twice (prog : Program) (n : nat) (st : State) (e : EventName)
    (l : Listener) (o : option EventListenerOptions) :
  l ∈ listeners st e ->
  this_addEventListener (emitter prog (S n)) e l o st = Return tt st
  /\ (forall fuel args,
        this_emit (emitter prog fuel) e args
          (after (this_addEventListener (emitter prog (S n)) e l o) st)
        = this_emit (emitter prog fuel) e args st)
  /\ (sets_nodup st ->
      exists pre suf,
        listeners st e = pre ++ l :: suf /\ (l ∉ pre) /\ (l ∉ suf)
        /\ forall fuel args,
             (forall loc, map_get (_listeners st) e = Some loc ->
                (length (deref st loc) < fuel)%nat
                /\ undisturbed loc (call_listener prog (emitter prog fuel) e args)
                     (deref st loc) 0 st) ->
             let visit := call_listener prog (emitter prog fuel) e args in
             this_emit (emitter prog (S fuel)) e args st
             = (for_each pre visit ;;; visit l ;;; for_each suf visit ;;; ret true) st
             /\ forall b s,
                  this_emit (emitter prog (S fuel)) e args st = Return b s ->
                  called e args l ∈ since st (calls s))
  /\ (forall fuel args b s,
        calm prog st -> well_formed st -> deep_enough fuel st ->
        this_emit (emitter prog fuel) e args st = Return b s ->
        times_called e l (since st (calls s)) = 1%nat).
Proof.
  intros Hl.
  assert (Hsame : this_addEventListener (emitter prog (S n)) e l o st = Return tt st).
  { change (this_addEventListener (emitter prog (S n)))
      with (addEventListener (emitter prog n)).
    apply addEventListener_checks, Hl. }
  split; [exact Hsame |]. split; [| split].
  - intros fuel args. unfold after. rewrite Hsame. reflexivity.
  - intros Hnd. destruct (list_elem_of_split _ _ Hl) as (pre & suf & Hsplit).
    pose proof (listeners_NoDup st e Hnd) as Hnd'. rewrite Hsplit in Hnd'.
    apply NoDup_app in Hnd' as (_ & Hpre & Hsuf). apply NoDup_cons in Hsuf as [Hsuf _].
    exists pre, suf. split; [exact Hsplit |].
    split; [intros H; apply (Hpre l H); left |]. split; [exact Hsuf |].
    intros fuel args Hun visit.
    destruct (map_get (_listeners st) e) as [loc|] eqn:Hloc;
      [| unfold listeners in Hl; rewrite Hloc in Hl; inversion Hl].
    destruct (Hun loc eq_refl) as [Hlen Hu].
    rewrite (emit_undisturbed prog fuel st e args loc Hloc Hlen Hu). fold visit.
    split.
    + rewrite Hsplit, length_app. simpl length.
      rewrite bool_decide_eq_true_2 by lia.
      rewrite for_each_app_then. unfold bind.
      destruct (for_each pre visit st) as [[] s1|v s1|]; [| reflexivity ..].
      cbn [for_each]. unfold bind. destruct (visit l s1) as [[] s2|v s2|]; reflexivity.
    + intros b s Hr. unfold bind in Hr.
      destruct (for_each (listeners st e) visit st) as [[] s'|v s'|] eqn:Hfor;
        [| discriminate ..].
      injection Hr as _ <-.
      destruct (emitter_appends prog fuel) as (Hadd & Hremove & HremoveAll & Hemit).
      pose proof (for_each_called prog (emitter prog fuel) Hadd Hremove HremoveAll Hemit
                    e args (listeners st e) st s' Hfor) as Hsub.
      eapply elem_of_sublist; [| exact Hsub].
      apply list_elem_of_fmap. exists l. split; [reflexivity | exact Hl].
  - intros fuel args b s Hcalm Hwf Hdeep Hr.
    destruct (emit_calm_log prog fuel st e args Hcalm Hwf Hdeep)
      as (s' & log & Hcalls & [[Hr' Hinv]|[[v Hr'] _]]); [| congruence].
    rewrite Hr in Hr'. injection Hr' as _ <-.
    rewrite Hcalls, since_app. unfold times_called. rewrite Hinv.
    rewrite count_NoDup by (apply listeners_NoDup, Hwf).
    rewrite decide_True by exact Hl. reflexivity.
Qed.

(** The theorem on an emitter with two listeners of ["a"], the first of
    which unregisters all the listeners of ["a"] and registers a third while
    ["a"] is emitted: the map comes to hold a new set for ["a"], the set that
    is iterated stays as it was, and the call visits the two listeners that
    were registered when it started. *)
Lemma emit_undisturbed_is_snapshot_witness :
  let st := two_listeners detaching in
  (forall loc, map_get (_listeners st) (EStr "a") = Some loc ->
     (length (deref st loc) < 9)%nat
     /\ undisturbed loc (call_listener detaching (emitter detaching 9) (EStr "a") [])
          (deref st loc) 0 st)
  /\ (EStr "a" = EStr "error" -> listeners st (EStr "a") = [] ->
      map_get (_listeners st) (EStr "a") = None)
  /\ this_emit (emitter detaching 10) (EStr "a") [] st
     = emit_over_snapshot detaching (emitter detaching 9) (EStr "a") [] st
  /\ exists s,
       this_emit (emitter detaching 10) (EStr "a") [] st = Return true s
       /\ true = bool_decide (0 < length (listeners st (EStr "a")))%nat
       /\ (called (EStr "a") [] <$> listeners st (EStr "a")) `sublist_of` since st (calls s).
Proof.
  intros st.
  assert (Hun : forall loc, map_get (_listeners st) (EStr "a") = Some loc ->
            (length (deref st loc) < 9)%nat
            /\ undisturbed loc (call_listener detaching (emitter detaching 9) (EStr "a") [])
                 (deref st loc) 0 st).
  { intros loc Hloc. vm_compute in Hloc. injection Hloc as <-.
    split; [by_computation | vm_compute; repeat split; reflexivity]. }
  assert (Herr : EStr "a" = EStr "error" -> listeners st (EStr "a") = [] ->
                 map_get (_listeners st) (EStr "a") = None) by discriminate.
  split; [exact Hun |]. split; [exact Herr |].
  destruct (emit_undisturbed_is_snapshot detaching 9 st (EStr "a") [] Hun Herr)
    as [Heq Hlog].
  split; [exact Heq |].
  assert (Hr : exists s, this_emit (emitter detaching 10) (EStr "a") [] st = Return true s)
    by (eexists; vm_compute; reflexivity).
  destruct Hr as [s Hr]. exists s. split; [exact Hr | exact (Hlog true s Hr)].
Defined.

(** The theorem on the same emitter, for the second of its listeners, and,
    for its last part, on an emitter with two listeners that do nothing. *)
Lemma register_twice_witness :
  (let st := two_listeners detaching in
   2%nat ∈ listeners st (EStr "a")
   /\ this_addEventListener (emitter detaching 1) (EStr "a") 2%nat None st = Return tt st
   /\ sets_nodup st
   /\ exists pre suf,
        listeners st (EStr "a") = pre ++ 2%nat :: suf /\ (2%nat ∉ pre) /\ (2%nat ∉ suf)
        /\ (forall loc, map_get (_listeners st) (EStr "a") = Some loc ->
              (length (deref st loc) < 9)%nat
              /\ undisturbed loc (call_listener detaching (emitter detaching 9) (EStr "a") [])
                   (deref st loc) 0 st)
        /\ let visit := call_listener detaching (emitter detaching 9) (EStr "a") [] in
           this_emit (emitter detaching 10) (EStr "a") [] st
           = (for_each pre visit ;;; visit 2%nat ;;; for_each suf visit ;;; ret true) st)
  /\ (let st := two_listeners no_op in
      2%nat ∈ listeners st (EStr "a")
      /\ calm no_op st /\ well_formed st /\ deep_enough 9 st
      /\ times_called (EStr "a") 2%nat
           (since st (calls (after (this_emit (emitter no_op 9) (EStr "a") []) st))) = 1%nat).
Proof.
  split; intros st.
  - assert (H : 2%nat ∈ listeners st (EStr "a")) by by_computation.
    assert (Hnd : sets_nodup st) by (apply well_formed_intro; by_computation).
    assert (Hun : forall loc, map_get (_listeners st) (EStr "a") = Some loc ->
              (length (deref st loc) < 9)%nat
              /\ undisturbed loc
                   (call_listener detaching (emitter detaching 9) (EStr "a") [])
                   (deref st loc) 0 st).
    { intros loc Hloc. vm_compute in Hloc. injection Hloc as <-.
      split; [by_computation | vm_compute; repeat split; reflexivity]. }
    destruct (register_twice detaching 0 st (EStr "a") 2%nat None H)
      as (Hr & _ & Hvisit & _).
    split; [exact H |]. split; [exact Hr |]. split; [exact Hnd |].
    destruct (Hvisit Hnd) as (pre & suf & Hsplit & Hpre & Hsuf & Hemit).
    exists pre, suf. split; [exact Hsplit |]. split; [exact Hpre |]. split; [exact Hsuf |].
    split; [exact Hun |]. exact (proj1 (Hemit 9%nat [] Hun)).
  - assert (H : 2%nat ∈ listeners st (EStr "a")) by by_computation.
    assert (Hcalm : calm no_op st).
    { apply calm_no_op. intros e l [-> | ->] Hl; vm_compute in Hl; inversion Hl. }
    assert (Hwf : well_formed st) by (apply well_formed_intro; by_computation).
    assert (Hdeep : deep_enough 9 st) by (apply deep_enough_intro; by_computation).
    destruct (register_twice no_op 0 st (EStr "a") 2%nat None H) as (_ & _ & _ & Hemit).
    split; [exact H |]. split; [exact Hcalm |]. split; [exact Hwf |]. split; [exact Hdeep |].
    apply (Hemit 9%nat [] true _ Hcalm Hwf Hdeep). vm_compute. reflexivity.
Defined.
